(** * Grace packing: offline-first bill store and its reconciliation

    A shallow embedding of the bill model ([types]), of the storage
    service (local persistence in [localStorage], the Supabase mirror and
    [fullSync]) and of the handlers of [App.tsx] that create, group, pack
    and check bills, followed by the properties of the synchronisation
    engine, of the single-bill operations of the store, of the
    connection to the remote, and of the handlers that edit, delete and
    select bills.

    Conventions of the embedding.
    - A JavaScript [number] holding a timestamp or a count is a [Z].
    - A JavaScript string is a [string] of ASCII characters.
      [JSString.trim] and [JSString.toLowerCase] are
      [String.prototype.trim] and [toLowerCase] on such strings and are
      not meant beyond them; the duplicate check is stated for the
      host's own two functions, whatever they do outside ASCII
      ([findDuplicateBy]).
    - The key of the bills holds what the program writes there, a list
      of bills, or nothing, or a text that is no JSON.  A JSON text of
      another shape is read here as unreadable, whereas in the program
      [JSON.parse] returns its value and the array methods of the
      callers throw on it; the properties that depend on this reading
      are stated for a store that holds a list of bills
      ([storeTyped]).
    - An optional field ([imageUrl?], [colorTheme?], [packedAt?]) is an
      [option]; [None] is [undefined].
    - Code that awaits runs here to completion: a handler is a function
      of the state of the world, interleavings are out of scope. *)

From Stdlib Require Import ZArith Ascii String List Bool Lia.
From Stdlib Require Import Sorting.Permutation Sorting.Sorted.
From stdpp Require Import base decidable option list strings gmap pretty.

Local Open Scope string_scope.
Local Open Scope Z_scope.
Local Open Scope list_scope.

(* ===================================================================== *)
(** * The host platform *)
(* ===================================================================== *)

(** ** Strings: [String.prototype.trim] and [toLowerCase]

    Both are given on ASCII strings, where the white space is TAB, LF,
    VT, FF, CR and SPACE and the only letters with a lower case are [A]
    to [Z]. *)

Module JSString.

(** WhiteSpace and LineTerminator code points of ECMAScript below 128:
    TAB, LF, VT, FF, CR and SPACE. *)
Definition isWhiteSpace (c : ascii) : bool :=
  let n := nat_of_ascii c in
  ((9 <=? n) && (n <=? 13))%nat || (n =? 32)%nat.

Fixpoint trimStart (s : string) : string :=
  match s with
  | EmptyString => EmptyString
  | String c rest => if isWhiteSpace c then trimStart rest else s
  end.

Fixpoint trimEnd (s : string) : string :=
  match s with
  | EmptyString => EmptyString
  | String c rest =>
      match trimEnd rest with
      | EmptyString => if isWhiteSpace c then EmptyString
                       else String c EmptyString
      | kept => String c kept
      end
  end.

Definition trim (s : string) : string := trimEnd (trimStart s).

Definition lowerChar (c : ascii) : ascii :=
  let n := nat_of_ascii c in
  if ((65 <=? n) && (n <=? 90))%nat then ascii_of_nat (n + 32) else c.

Fixpoint toLowerCase (s : string) : string :=
  match s with
  | EmptyString => EmptyString
  | String c rest => String (lowerChar c) (toLowerCase rest)
  end.

(** Truthiness of a string: only the empty string is falsy. *)
Definition truthy (s : string) : bool :=
  match s with EmptyString => false | _ => true end.

(** [Number.prototype.toString(36)] on a non-negative integer. *)
Definition digit36 (d : Z) : ascii :=
  if d <? 10 then ascii_of_nat (48 + Z.to_nat d)
  else ascii_of_nat (87 + Z.to_nat d).

Fixpoint toString36_go (fuel : nat) (n : Z) (acc : string) : string :=
  match fuel with
  | O => acc
  | S fuel' =>
      let acc' := String (digit36 (n mod 36)) acc in
      if n <? 36 then acc' else toString36_go fuel' (n / 36) acc'
  end.

Definition toString36 (n : Z) : string :=
  toString36_go (S (Z.to_nat (Z.log2 n))) n EmptyString.

End JSString.

(** ** 32-bit integers: [ToInt32] and [<<]

    A [number] is kept as the integer it holds; the bitwise operators
    first bring it into the signed 32-bit range. *)

Module JSNumber.

Definition toInt32 (n : Z) : Z := (n + 2 ^ 31) mod 2 ^ 32 - 2 ^ 31.

(** [n << k] *)
Definition shiftLeft (n : Z) (k : Z) : Z := toInt32 (Z.shiftl (toInt32 n) k).

End JSNumber.

(** ** Arrays and [Map]

    [Array.prototype.sort] is stable; with a comparator [cmp] an element
    [a] stays in front of [b] unless [cmp a b > 0].  [Map] iterates in
    insertion order, and [set] on a present key keeps the key's place. *)

Module JSArray.

Section Sort.
Context {A : Type} (cmp : A -> A -> Z).

Fixpoint insert (x : A) (l : list A) : list A :=
  match l with
  | [] => [x]
  | y :: ys => if cmp x y <=? 0 then x :: l else y :: insert x ys
  end.

Fixpoint sort (l : list A) : list A :=
  match l with
  | [] => []
  | x :: xs => insert x (sort xs)
  end.
End Sort.

Fixpoint findIndex {A : Type} (p : A -> bool) (l : list A) : option nat :=
  match l with
  | [] => None
  | x :: xs => if p x then Some O else option_map S (findIndex p xs)
  end.

End JSArray.

Module JSMap.

Definition t (V : Type) : Type := list (string * V).

Definition empty {V : Type} : t V := [].

Fixpoint get {V : Type} (k : string) (m : t V) : option V :=
  match m with
  | [] => None
  | (k', v) :: rest => if String.eqb k' k then Some v else get k rest
  end.

Fixpoint set {V : Type} (k : string) (v : V) (m : t V) : t V :=
  match m with
  | [] => [(k, v)]
  | (k', v') :: rest =>
      if String.eqb k' k then (k', v) :: rest else (k', v') :: set k v rest
  end.

Definition keys {V : Type} (m : t V) : list string := map fst m.
Definition values {V : Type} (m : t V) : list V := map snd m.

End JSMap.

(** ** JSON documents

    A text held by [localStorage] is represented by the document that
    [JSON.parse] reads from it ([JSONText]), or, when it is no JSON text,
    by its characters ([PlainText]).  [JSON.stringify] of a value is the
    [JSONText] of its document; a member whose value is [undefined] is
    left out of an object. *)

#[warnings="-register-all"]
Inductive JSON : Type :=
| JNull
| JBool (b : bool)
| JNumber (n : Z)
| JString (s : string)
| JArray (items : list JSON)
| JObject (members : list (string * JSON)).

Inductive StoredText : Type :=
| JSONText (doc : JSON)
| PlainText (chars : string).

Module JSONDoc.

Fixpoint member (k : string) (ms : list (string * JSON)) : option JSON :=
  match ms with
  | [] => None
  | (k', v) :: rest => if String.eqb k' k then Some v else member k rest
  end.

Definition field (k : string) (j : JSON) : option JSON :=
  match j with JObject ms => member k ms | _ => None end.

Definition asString (j : JSON) : option string :=
  match j with JString s => Some s | _ => None end.
Definition asNumber (j : JSON) : option Z :=
  match j with JNumber n => Some n | _ => None end.
Definition asBool (j : JSON) : option bool :=
  match j with JBool b => Some b | _ => None end.

(** An optional member: absent when the value is [undefined]. *)
Definition optional {A : Type} (k : string) (enc : A -> JSON) (o : option A)
  : list (string * JSON) :=
  match o with Some a => [(k, enc a)] | None => [] end.

(** Number of characters of the text of a document (escapes in strings
    apart), the unit in which the storage quota is counted: brackets,
    separating commas, quotes and colons included. *)
Fixpoint length (j : JSON) : nat :=
  match j with
  | JNull => 4
  | JBool b => if b then 4 else 5
  | JNumber n => String.length (pretty n)
  | JString s => 2 + String.length s
  | JArray l => 2 + pred (List.length l) + list_sum (map length l)
  | JObject ms =>
      2 + pred (List.length ms)
      + list_sum (map (fun kv => 3 + String.length (fst kv) + length (snd kv)) ms)
  end%nat.

End JSONDoc.

Definition text_truthy (t : StoredText) : bool :=
  match t with
  | JSONText _ => true
  | PlainText s => JSString.truthy s
  end.

Definition text_length (t : StoredText) : nat :=
  match t with
  | JSONText d => JSONDoc.length d
  | PlainText s => String.length s
  end.

(* ===================================================================== *)
(** * types: the bill record *)
(* ===================================================================== *)

Inductive PackingStatus : Type := PENDING | PACKED.

Record BillData : Type := mkBill {
  id : string;
  imageUrl : option string;
  customerName : string;
  address : string;
  invoiceNo : string;
  billDate : string;
  status : PackingStatus;
  isDelivery : bool;
  hasCRN : bool;
  isEditedBill : bool;
  isAdditionalBill : bool;
  boxCount : Z;
  description : string;
  colorTheme : option string;
  entryDate : string;
  createdAt : Z;
  updatedAt : Z;
  packedAt : option Z
}.

#[global] Instance PackingStatus_eq_dec : EqDecision PackingStatus.
Proof. solve_decision. Defined.

#[global] Instance BillData_eq_dec : EqDecision BillData.
Proof. solve_decision. Defined.

(** The document of a bill and of a list of bills, and the reading of a
    document at type [BillData[]]. *)

Module BillJSON.
Import JSONDoc.

Definition status_to_json (s : PackingStatus) : JSON :=
  match s with PENDING => JString "PENDING" | PACKED => JString "PACKED" end.

Definition status_of_json (j : JSON) : option PackingStatus :=
  match j with
  | JString s =>
      if String.eqb s "PENDING" then Some PENDING
      else if String.eqb s "PACKED" then Some PACKED else None
  | _ => None
  end.

Definition to_json (b : BillData) : JSON :=
  JObject
    ([("id", JString (id b))]
     ++ optional "imageUrl" JString (imageUrl b)
     ++ [("customerName", JString (customerName b));
         ("address", JString (address b));
         ("invoiceNo", JString (invoiceNo b));
         ("billDate", JString (billDate b));
         ("status", status_to_json (status b));
         ("isDelivery", JBool (isDelivery b));
         ("hasCRN", JBool (hasCRN b));
         ("isEditedBill", JBool (isEditedBill b));
         ("isAdditionalBill", JBool (isAdditionalBill b));
         ("boxCount", JNumber (boxCount b));
         ("description", JString (description b))]
     ++ optional "colorTheme" JString (colorTheme b)
     ++ [("entryDate", JString (entryDate b));
         ("createdAt", JNumber (createdAt b));
         ("updatedAt", JNumber (updatedAt b))]
     ++ optional "packedAt" JNumber (packedAt b)).

Definition of_json (j : JSON) : option BillData :=
  i ← field "id" j ≫= asString;
  cn ← field "customerName" j ≫= asString;
  ad ← field "address" j ≫= asString;
  inv ← field "invoiceNo" j ≫= asString;
  bd ← field "billDate" j ≫= asString;
  st ← field "status" j ≫= status_of_json;
  dl ← field "isDelivery" j ≫= asBool;
  crn ← field "hasCRN" j ≫= asBool;
  ed ← field "isEditedBill" j ≫= asBool;
  ad' ← field "isAdditionalBill" j ≫= asBool;
  bc ← field "boxCount" j ≫= asNumber;
  de ← field "description" j ≫= asString;
  en ← field "entryDate" j ≫= asString;
  cr ← field "createdAt" j ≫= asNumber;
  up ← field "updatedAt" j ≫= asNumber;
  Some (mkBill i (field "imageUrl" j ≫= asString) cn ad inv bd st dl crn ed
          ad' bc de (field "colorTheme" j ≫= asString) en cr up
          (field "packedAt" j ≫= asNumber)).

Definition stringify (bills : list BillData) : StoredText :=
  JSONText (JArray (map to_json bills)).

Fixpoint all_of_json (js : list JSON) : option (list BillData) :=
  match js with
  | [] => Some []
  | j :: rest =>
      b ← of_json j; bs ← all_of_json rest; Some (b :: bs)
  end.

(** [JSON.parse(stored)] at type [BillData[]].  A text that is no JSON
    makes [JSON.parse] throw.  A document that is not an array of bills
    is read here in the same way, as [None]; the program does not check
    it: there [JSON.parse] returns the value, and [findIndex], [filter]
    or [forEach] of the callers throw a [TypeError] on it.  Such a
    store is outside this embedding. *)
Definition parse (t : StoredText) : option (list BillData) :=
  match t with
  | JSONText (JArray js) => all_of_json js
  | _ => None
  end.

End BillJSON.

(* ===================================================================== *)
(** * The world a handler runs in *)
(* ===================================================================== *)

Inductive Error : Type :=
| QuotaExceededError   (* localStorage.setItem over quota *)
| SyntaxError          (* JSON.parse of a malformed text *)
| TypeError            (* a method called on null *)
| PostgrestError       (* the [error] member of a Supabase response *)
| NetworkError.        (* a request whose promise rejects *)

Record SupabaseClient : Type := mkClient { url : string; key : string }.

(** A row of the hosted table [bills]: id (text, pk), data (jsonb),
    updated_at (bigint). *)
Module Payload.
Record t : Type := mk { id : string; data : BillData; updated_at : Z }.
End Payload.

(** What a Supabase call resolves to: [{ data, error }]. *)
Module Response.
Record t (A : Type) : Type := mk { data : option A; error : option Error }.
Arguments mk {A} _ _.
Arguments data {A} _.
Arguments error {A} _.
End Response.

Inductive Request : Type :=
| Select
| Upsert (payload : Payload.t)
| Delete (rowId : string).

(** The fate of a request: executed and answered, answered with an
    [error], or lost (the promise rejects). *)
Inductive Outcome : Type := Delivered | Refused | Dropped.

Inductive Event : Type :=
| ConsoleError (msg : string) (e : Error)
| Alert (msg : string)
| Sent (r : Request).

Record World : Type := mkWorld {
  localStorage : gmap string StoredText;   (* window.localStorage *)
  quota : nat;                             (* characters it can hold *)
  supabase : option SupabaseClient;        (* [let supabase] of the service *)
  bills_table : list Payload.t;            (* the hosted table *)
  network : list Outcome;                  (* fate of the coming requests *)
  clock : Z;                               (* last reading of the clock *)
  ticks : list Z;                          (* time passing before each coming reading *)
  random : list string;                    (* coming [Math.random] suffixes *)
  events : list Event                      (* what was shown, logged and sent *)
}.

Definition set_localStorage (m : gmap string StoredText) (w : World) : World :=
  mkWorld m (quota w) (supabase w) (bills_table w) (network w) (clock w)
          (ticks w) (random w) (events w).
Definition set_bills_table (t : list Payload.t) (w : World) : World :=
  mkWorld (localStorage w) (quota w) (supabase w) t (network w) (clock w)
          (ticks w) (random w) (events w).
Definition set_network (n : list Outcome) (w : World) : World :=
  mkWorld (localStorage w) (quota w) (supabase w) (bills_table w) n (clock w)
          (ticks w) (random w) (events w).
Definition set_clock (c : Z) (ts : list Z) (w : World) : World :=
  mkWorld (localStorage w) (quota w) (supabase w) (bills_table w) (network w) c
          ts (random w) (events w).
Definition set_random (r : list string) (w : World) : World :=
  mkWorld (localStorage w) (quota w) (supabase w) (bills_table w) (network w)
          (clock w) (ticks w) r (events w).
Definition set_events (e : list Event) (w : World) : World :=
  mkWorld (localStorage w) (quota w) (supabase w) (bills_table w) (network w)
          (clock w) (ticks w) (random w) e.
Definition set_supabase (c : option SupabaseClient) (w : World) : World :=
  mkWorld (localStorage w) (quota w) c (bills_table w) (network w)
          (clock w) (ticks w) (random w) (events w).

(** ** Computations: state and exceptions *)

Inductive Result (A : Type) : Type :=
| Ok (a : A)
| Throw (e : Error).
Arguments Ok {A} _.
Arguments Throw {A} _.

Definition M (A : Type) : Type := World -> Result A * World.

Definition ret {A : Type} (a : A) : M A := fun w => (Ok a, w).

Definition bind {A B : Type} (m : M A) (k : A -> M B) : M B :=
  fun w => match m w with
           | (Ok a, w') => k a w'
           | (Throw e, w') => (Throw e, w')
           end.

Definition throw {A : Type} (e : Error) : M A := fun w => (Throw e, w).

Definition try_catch {A : Type} (m : M A) (handler : Error -> M A) : M A :=
  fun w => match m w with
           | (Ok a, w') => (Ok a, w')
           | (Throw e, w') => handler e w'
           end.

Definition gets {A : Type} (f : World -> A) : M A := fun w => (Ok (f w), w).
Definition modify (f : World -> World) : M unit := fun w => (Ok tt, f w).

Declare Scope js_scope.
Delimit Scope js_scope with js.
Notation "'let*' x ':=' m 'in' k" := (bind m (fun x => k))
  (at level 10, x name, m at level 100, k at level 200) : js_scope.
Notation "m1 ';;' m2" := (bind m1 (fun _ => m2))
  (at level 100, right associativity) : js_scope.
Local Open Scope js_scope.

Fixpoint forEach {A : Type} (l : list A) (body : A -> M unit) : M unit :=
  match l with
  | [] => ret tt
  | x :: xs => body x ;; forEach xs body
  end.

Definition emit (ev : Event) : M unit :=
  modify (fun w => set_events (events w ++ [ev]) w).

Definition console_error (msg : string) (e : Error) : M unit :=
  emit (ConsoleError msg e).

Definition alert (msg : string) : M unit := emit (Alert msg).

(** ** [window.localStorage] *)

Definition storage_used (m : gmap string StoredText) : nat :=
  map_fold (fun k v acc => String.length k + text_length v + acc)%nat O m.

Definition getItem (k : string) : M (option StoredText) :=
  gets (fun w => localStorage w !! k).

(** [setItem] stores the value, or throws and stores nothing when the
    result would not fit. *)
Definition setItem (k : string) (v : StoredText) : M unit :=
  fun w =>
    let m' := <[k := v]> (localStorage w) in
    if (storage_used m' <=? quota w)%nat
    then (Ok tt, set_localStorage m' w)
    else (Throw QuotaExceededError, w).

Definition removeItem (k : string) : M unit :=
  modify (fun w => set_localStorage (delete k (localStorage w)) w).

(** ** [Date.now] and [Math.random] *)

Definition Date_now : M Z :=
  fun w =>
    match ticks w with
    | [] => (Ok (clock w), w)
    | d :: ds => (Ok (clock w + d), set_clock (clock w + d) ds w)
    end.

(** [Math.random().toString(36).substr(2, 6)] *)
Definition Math_random_suffix : M string :=
  fun w =>
    match random w with
    | [] => (Ok EmptyString, w)
    | s :: rest => (Ok s, set_random rest w)
    end.

(** ** The Supabase client on the table [bills] *)

Module Supabase.

Definition next_outcome : M Outcome :=
  fun w =>
    match network w with
    | [] => (Ok Delivered, w)
    | o :: rest => (Ok o, set_network rest w)
    end.

Definition respond {A : Type} (r : Request) (run : M A) : M (Response.t A) :=
  emit (Sent r) ;;
  let* o := next_outcome in
  match o with
  | Delivered => let* a := run in ret (Response.mk (Some a) None)
  | Refused => ret (Response.mk None (Some PostgrestError))
  | Dropped => throw NetworkError
  end.

(** [supabase.from('bills').select('*')] *)
Definition select_all (c : SupabaseClient) : M (Response.t (list Payload.t)) :=
  respond Select (gets bills_table).

(** The primary key is [id]: a row with the id of the payload is
    replaced, otherwise the payload is added. *)
Fixpoint upsert_row (p : Payload.t) (t : list Payload.t) : list Payload.t :=
  match t with
  | [] => [p]
  | r :: rest =>
      if String.eqb (Payload.id r) (Payload.id p) then p :: rest
      else r :: upsert_row p rest
  end.

(** [supabase.from('bills').upsert(payload)] *)
Definition upsert (c : SupabaseClient) (p : Payload.t) : M (Response.t unit) :=
  respond (Upsert p) (modify (fun w => set_bills_table (upsert_row p (bills_table w)) w)).

(** [supabase.from('bills').delete().eq('id', id)] *)
Definition delete_eq_id (c : SupabaseClient) (i : string) : M (Response.t unit) :=
  respond (Delete i)
    (modify (fun w =>
       set_bills_table
         (List.filter (fun r => negb (String.eqb (Payload.id r) i)) (bills_table w)) w)).

End Supabase.

(* ===================================================================== *)
(** * services/storageService *)
(* ===================================================================== *)

(** The stored connection configuration, [{ url, key }]. *)
Module SupabaseConfig.
Record t : Type := mk { url : string; key : string }.
End SupabaseConfig.

(** An entry of the colour palette. *)
Module ThemeStyle.
Record t : Type := mk {
  name : string; bg : string; border : string; text : string; ring : string
}.
End ThemeStyle.

Module storageService.

Definition STORAGE_KEY : string := "grace_bills_data".
Definition SUPABASE_CONFIG_KEY : string := "grace_supabase_config".

(** [JSON.parse(stored)], which throws on a text it cannot read. *)
Definition JSON_parse (t : StoredText) : M (list BillData) :=
  match BillJSON.parse t with
  | Some bills => ret bills
  | None => throw SyntaxError
  end.

(** ** Local storage *)

Definition getStoredBills : M (list BillData) :=
  try_catch
    (let* stored := getItem STORAGE_KEY in
     match stored with
     | Some t => if text_truthy t then JSON_parse t else ret []
     | None => ret []
     end)
    (fun e => console_error "Failed to load bills:" e ;; ret []).

Definition saveBillsToStorage (bills : list BillData) : M unit :=
  try_catch
    (setItem STORAGE_KEY (BillJSON.stringify bills))
    (fun e =>
       console_error "Failed to save bills (likely quota exceeded):" e ;;
       alert "Storage full! Please delete some old bills or images.").

(** ** The remote mirror *)

Definition isSupabaseConnected : M bool :=
  gets (fun w => match supabase w with Some _ => true | None => false end).

Definition syncUpItem (bill : BillData) : M unit :=
  let* client := gets supabase in
  match client with
  | None => ret tt
  | Some c =>
      try_catch
        (let payload := Payload.mk (id bill) bill (updatedAt bill) in
         let* resp := Supabase.upsert c payload in
         match Response.error resp with
         | Some error => console_error "Upload Error" error
         | None => ret tt
         end)
        (fun e => console_error "Upload Exception" e)
  end.

Definition deleteRemoteItem (i : string) : M unit :=
  let* client := gets supabase in
  match client with
  | None => ret tt
  | Some c =>
      try_catch
        (let* resp := Supabase.delete_eq_id c i in
         match Response.error resp with
         | Some error => console_error "Delete Error" error
         | None => ret tt
         end)
        (fun e => console_error "Delete Exception" e)
  end.

Definition saveBillToStorage (bill : BillData) : M unit :=
  let* bills := getStoredBills in
  let index := JSArray.findIndex (fun b => String.eqb (id b) (id bill)) bills in
  let bills' := match index with
                | Some i => <[i := bill]> bills     (* bills[index] = bill *)
                | None => bill :: bills             (* bills.unshift(bill) *)
                end in
  saveBillsToStorage bills' ;;
  let* client := gets supabase in
  match client with
  | Some _ => syncUpItem bill
  | None => ret tt
  end.

Definition deleteBillFromStorage (i : string) : M unit :=
  let* stored := getStoredBills in
  let bills := List.filter (fun b => negb (String.eqb (id b) i)) stored in
  saveBillsToStorage bills ;;
  let* client := gets supabase in
  match client with
  | Some _ => deleteRemoteItem i
  | None => ret tt
  end.

Definition clearAllBills : M unit :=
  try_catch (removeItem STORAGE_KEY)
            (fun e => console_error "Failed to clear bills:" e).

(** ** Full synchronisation: fetch, merge (last write wins), update both *)

(** [localBills.forEach(b => mergedMap.set(b.id, b))] *)
Definition addLocal (m : JSMap.t BillData) (b : BillData) : JSMap.t BillData :=
  JSMap.set (id b) b m.

(** The body of [remoteBills.forEach]: the remote bill overwrites the
    entry when there is none or when it is strictly newer. *)
Definition mergeRemote (m : JSMap.t BillData) (r : BillData) : JSMap.t BillData :=
  match JSMap.get (id r) m with
  | None => JSMap.set (id r) r m
  | Some local =>
      if updatedAt r >? updatedAt local then JSMap.set (id r) r m else m
  end.

(** [(a, b) => b.createdAt - a.createdAt] *)
Definition byCreatedAtDesc (a b : BillData) : Z := createdAt b - createdAt a.

Definition mergeBills (localBills remoteBills : list BillData) : list BillData :=
  let mergedMap := fold_left addLocal localBills JSMap.empty in
  let mergedMap := fold_left mergeRemote remoteBills mergedMap in
  JSArray.sort byCreatedAtDesc (JSMap.values mergedMap).

(** The test of the push loop: no remote bill of that id, or the bill
    is strictly newer than the first remote bill of that id. *)
Definition needsPush (remoteBills : list BillData) (bill : BillData) : bool :=
  match List.find (fun r => String.eqb (id r) (id bill)) remoteBills with
  | None => true
  | Some remote => updatedAt bill >? updatedAt remote
  end.

Definition fullSync : M (list BillData) :=
  let* client := gets supabase in
  match client with
  | None => getStoredBills
  | Some c =>
      try_catch
        ((* 1. Fetch Remote *)
         let* resp := Supabase.select_all c in
         (match Response.error resp with
          | Some error => throw error
          | None => ret tt
          end) ;;
         let* remoteRows := match Response.data resp with
                            | Some rows => ret rows
                            | None => throw TypeError
                            end in
         let remoteBills := map Payload.data remoteRows in
         let* localBills := getStoredBills in
         (* 2. Merge *)
         let mergedBills := mergeBills localBills remoteBills in
         (* 3. Save to Local *)
         saveBillsToStorage mergedBills ;;
         (* 4. Push updates to Remote *)
         forEach mergedBills
           (fun bill => if needsPush remoteBills bill
                        then syncUpItem bill else ret tt) ;;
         ret mergedBills)
        (fun e => console_error "Sync Error" e ;; getStoredBills)
  end.

(** ** Connection configuration *)

(** [JSON.stringify({ url, key })] *)
Definition config_stringify (url key : string) : StoredText :=
  JSONText (JObject [("url", JString url); ("key", JString key)]).

(** [JSON.parse(stored)] read as a configuration or [null]; [None] is a
    text that [JSON.parse] refuses or, here, a document of another
    shape. *)
Definition config_parse (t : StoredText) : option (option SupabaseConfig.t) :=
  match t with
  | PlainText _ => None
  | JSONText JNull => Some None
  | JSONText doc =>
      match JSONDoc.field "url" doc ≫= JSONDoc.asString,
            JSONDoc.field "key" doc ≫= JSONDoc.asString with
      | Some u, Some k => Some (Some (SupabaseConfig.mk u k))
      | _, _ => None
      end
  end.

(** No [try] around the parse: a malformed text throws. *)
Definition getSupabaseConfig : M (option SupabaseConfig.t) :=
  let* stored := getItem SUPABASE_CONFIG_KEY in
  match stored with
  | Some t =>
      if text_truthy t then
        match config_parse t with
        | Some config => ret config
        | None => throw SyntaxError
        end
      else ret None
  | None => ret None
  end.

Section InitSupabase.

(** [createClient] of the Supabase library: the client, or the error it
    throws on arguments it refuses. *)
Variable createClient : string -> string -> Result SupabaseClient.

Definition initSupabase (url key : string) : M bool :=
  try_catch
    (let* client := (fun w => (createClient url key, w)) in
     modify (set_supabase (Some client)) ;;
     setItem SUPABASE_CONFIG_KEY (config_stringify url key) ;;
     ret true)
    (fun e => console_error "Supabase Init Error" e ;; ret false).

End InitSupabase.

Definition disconnectSupabase : M unit :=
  modify (set_supabase None) ;;
  removeItem SUPABASE_CONFIG_KEY.

(** ** Colour palette *)

Definition COLOR_PALETTE : list ThemeStyle.t :=
  [ ThemeStyle.mk "slate" "bg-slate-50" "border-slate-200" "text-slate-900" "ring-slate-500";
    ThemeStyle.mk "red" "bg-red-50" "border-red-200" "text-red-900" "ring-red-500";
    ThemeStyle.mk "orange" "bg-orange-50" "border-orange-200" "text-orange-900" "ring-orange-500";
    ThemeStyle.mk "amber" "bg-amber-50" "border-amber-200" "text-amber-900" "ring-amber-500";
    ThemeStyle.mk "green" "bg-emerald-50" "border-emerald-200" "text-emerald-900" "ring-emerald-500";
    ThemeStyle.mk "teal" "bg-teal-50" "border-teal-200" "text-teal-900" "ring-teal-500";
    ThemeStyle.mk "blue" "bg-blue-50" "border-blue-200" "text-blue-900" "ring-blue-500";
    ThemeStyle.mk "indigo" "bg-indigo-50" "border-indigo-200" "text-indigo-900" "ring-indigo-500";
    ThemeStyle.mk "purple" "bg-purple-50" "border-purple-200" "text-purple-900" "ring-purple-500";
    ThemeStyle.mk "pink" "bg-pink-50" "border-pink-200" "text-pink-900" "ring-pink-500" ].

(** The loop [hash = description.charCodeAt(i) + ((hash << 5) - hash)],
    on an ASCII description, where [charCodeAt] is the character. *)
Fixpoint themeHash (description : string) (hash : Z) : Z :=
  match description with
  | EmptyString => hash
  | String ch rest =>
      themeHash rest
        (Z.of_nat (nat_of_ascii ch) + (JSNumber.shiftLeft hash 5 - hash))
  end.

(** [undefined] is [None], for the arguments and for an index outside
    the palette. *)
Definition getThemeStyles (colorName description : option string)
  : option ThemeStyle.t :=
  let byDescription :=
    match description with
    | Some d =>
        if (0 <? String.length (JSString.trim d))%nat then
          let hash := themeHash d 0 in
          let index := Z.abs hash mod Z.of_nat (List.length COLOR_PALETTE) in
          COLOR_PALETTE !! Z.to_nat index
        else COLOR_PALETTE !! O
    | None => COLOR_PALETTE !! O
    end in
  match colorName with
  | Some c =>
      if JSString.truthy c then
        match List.find (fun t => String.eqb (ThemeStyle.name t) c) COLOR_PALETTE with
        | Some found => Some found
        | None => byDescription
        end
      else byDescription
  | None => byDescription
  end.

End storageService.

(* ===================================================================== *)
(** * App: the handlers of the main component *)
(* ===================================================================== *)

(** The fields read from a bill image, [{ customerName, address,
    invoiceNo, billDate }]. *)
Module Extracted.
Record t : Type := mk {
  customerName : string; address : string;
  invoiceNo : string; billDate : string
}.
Definition empty : t := mk "" "" "" "".
End Extracted.

(** The [manualData] of a quick add, [{ boxCount, description }]. *)
Module ManualData.
Record t : Type := mk { boxCount : Z; description : string }.
End ManualData.

(** The argument of [handleManualQuickAdd]. *)
Module QuickAdd.
Record t : Type := mk {
  customerName : string; invoiceNo : string;
  boxCount : Z; description : string
}.
End QuickAdd.

Module DuplicateAlert.
Record t : Type := mk {
  existing : BillData; newData : Extracted.t; base64 : option string
}.
End DuplicateAlert.

Module App.
Import storageService.

(** The [useState] cells of the component that the handlers below read
    or write. *)
Record AppState : Type := mkApp {
  allBills : list BillData;
  currentDate : string;
  loadingId : option string;
  processStatus : string;
  expandedId : option string;
  isSelectionMode : bool;
  selectedIds : gset string;
  showGroupModal : bool;
  groupNameInput : string;
  groupColorInput : string;
  duplicateAlert : option DuplicateAlert.t;
  isCloudConnectedState : bool;
  isSyncing : bool
}.

Definition setAllBills (v : list BillData) (s : AppState) : AppState :=
  mkApp v (currentDate s) (loadingId s) (processStatus s) (expandedId s)
        (isSelectionMode s) (selectedIds s) (showGroupModal s)
        (groupNameInput s) (groupColorInput s) (duplicateAlert s)
        (isCloudConnectedState s) (isSyncing s).
Definition setLoadingId (v : option string) (s : AppState) : AppState :=
  mkApp (allBills s) (currentDate s) v (processStatus s) (expandedId s)
        (isSelectionMode s) (selectedIds s) (showGroupModal s)
        (groupNameInput s) (groupColorInput s) (duplicateAlert s)
        (isCloudConnectedState s) (isSyncing s).
Definition setProcessStatus (v : string) (s : AppState) : AppState :=
  mkApp (allBills s) (currentDate s) (loadingId s) v (expandedId s)
        (isSelectionMode s) (selectedIds s) (showGroupModal s)
        (groupNameInput s) (groupColorInput s) (duplicateAlert s)
        (isCloudConnectedState s) (isSyncing s).
Definition setExpandedId (v : option string) (s : AppState) : AppState :=
  mkApp (allBills s) (currentDate s) (loadingId s) (processStatus s) v
        (isSelectionMode s) (selectedIds s) (showGroupModal s)
        (groupNameInput s) (groupColorInput s) (duplicateAlert s)
        (isCloudConnectedState s) (isSyncing s).
Definition setIsSelectionMode (v : bool) (s : AppState) : AppState :=
  mkApp (allBills s) (currentDate s) (loadingId s) (processStatus s)
        (expandedId s) v (selectedIds s) (showGroupModal s)
        (groupNameInput s) (groupColorInput s) (duplicateAlert s)
        (isCloudConnectedState s) (isSyncing s).
Definition setSelectedIds (v : gset string) (s : AppState) : AppState :=
  mkApp (allBills s) (currentDate s) (loadingId s) (processStatus s)
        (expandedId s) (isSelectionMode s) v (showGroupModal s)
        (groupNameInput s) (groupColorInput s) (duplicateAlert s)
        (isCloudConnectedState s) (isSyncing s).
Definition setShowGroupModal (v : bool) (s : AppState) : AppState :=
  mkApp (allBills s) (currentDate s) (loadingId s) (processStatus s)
        (expandedId s) (isSelectionMode s) (selectedIds s) v
        (groupNameInput s) (groupColorInput s) (duplicateAlert s)
        (isCloudConnectedState s) (isSyncing s).
Definition setDuplicateAlert (v : option DuplicateAlert.t) (s : AppState)
  : AppState :=
  mkApp (allBills s) (currentDate s) (loadingId s) (processStatus s)
        (expandedId s) (isSelectionMode s) (selectedIds s)
        (showGroupModal s) (groupNameInput s) (groupColorInput s) v
        (isCloudConnectedState s) (isSyncing s).
Definition setIsSyncing (v : bool) (s : AppState) : AppState :=
  mkApp (allBills s) (currentDate s) (loadingId s) (processStatus s)
        (expandedId s) (isSelectionMode s) (selectedIds s)
        (showGroupModal s) (groupNameInput s) (groupColorInput s)
        (duplicateAlert s) (isCloudConnectedState s) v.

(** A call that the handler starts and does not await ([handleSync()]
    at the end of a batch edit): it goes on once the handler has
    returned, and the handler returns it with its state. *)
Inductive Task : Type := SyncTask.

(** [Date.now().toString(36) + Math.random().toString(36).substr(2, 6)] *)
Definition generateId : M string :=
  let* t := Date_now in
  let* r := Math_random_suffix in
  ret (JSString.toString36 t +:+ r).

Definition handleSync (st : AppState) : M AppState :=
  let* connected := isSupabaseConnected in
  if negb connected then ret st
  else
    let* synced := fullSync in
    ret (setIsSyncing false (setAllBills synced st)).

Definition runTask (t : Task) (st : AppState) : M AppState :=
  match t with SyncTask => handleSync st end.

Definition triggerSync (st : AppState) : list Task :=
  if isCloudConnectedState st then [SyncTask] else [].

(** ** Batch edits of the selected bills *)

Definition groupStamp (name color : string) (now : Z) (b : BillData) : BillData :=
  mkBill (id b) (imageUrl b) (customerName b) (address b) (invoiceNo b)
         (billDate b) (status b) (isDelivery b) (hasCRN b) (isEditedBill b)
         (isAdditionalBill b) (boxCount b)
         name                                                (* description *)
         (if JSString.truthy color then Some color else None) (* colorTheme *)
         (entryDate b) (createdAt b)
         now                                                 (* updatedAt *)
         (packedAt b).

Definition applyGroupSettings (st : AppState) : M (AppState * list Task) :=
  let* now := Date_now in
  let updates :=
    map (fun b => if bool_decide (id b ∈ selectedIds st)
                  then groupStamp (groupNameInput st) (groupColorInput st) now b
                  else b)
        (allBills st) in
  saveBillsToStorage updates ;;
  ret (setSelectedIds ∅
         (setIsSelectionMode false
            (setAllBills updates (setShowGroupModal false st))),
       triggerSync st).

Definition packStamp (now : Z) (b : BillData) : BillData :=
  mkBill (id b) (imageUrl b) (customerName b) (address b) (invoiceNo b)
         (billDate b)
         PACKED                                              (* status *)
         (isDelivery b) (hasCRN b) (isEditedBill b) (isAdditionalBill b)
         (boxCount b) (description b) (colorTheme b) (entryDate b)
         (createdAt b)
         now                                                 (* updatedAt *)
         (Some now).                                         (* packedAt *)

(** [confirmed] is the answer to [window.confirm]. *)
Definition handlePackSelected (confirmed : bool) (st : AppState)
  : M (AppState * list Task) :=
  if (size (selectedIds st) =? 0)%nat then ret (st, [])
  else if confirmed then
    let* now := Date_now in
    let updates :=
      map (fun b => if bool_decide (id b ∈ selectedIds st)
                    then packStamp now b else b)
          (allBills st) in
    saveBillsToStorage updates ;;
    ret (setSelectedIds ∅ (setIsSelectionMode false (setAllBills updates st)),
         triggerSync st)
  else ret (st, []).

(** ** Creation *)

Definition createBill (extracted : Extracted.t) (base64Image : option string)
           (manualData : option ManualData.t) (st : AppState) : M AppState :=
  let* newId := generateId in
  let* created := Date_now in
  let* updated := Date_now in
  let newBill :=
    mkBill newId
           (Some (default "" base64Image))
           (Extracted.customerName extracted)
           (Extracted.address extracted)
           (Extracted.invoiceNo extracted)
           (Extracted.billDate extracted)
           PENDING false false false false
           (default 0 (ManualData.boxCount <$> manualData))
           (default "" (ManualData.description <$> manualData))
           None
           (currentDate st)
           created
           updated
           None in
  let updatedBills := newBill :: allBills st in
  saveBillToStorage newBill ;;
  ret (setExpandedId (Some (id newBill)) (setAllBills updatedBills st)).

(** The duplicate check of [handleAddBill]: the first bill whose
    trimmed, lower-cased invoice number is that of the new bill. *)
Definition findDuplicate (invoiceNo' : string) (bills : list BillData)
  : option BillData :=
  if JSString.truthy invoiceNo' then
    let normalizedNew := JSString.toLowerCase (JSString.trim invoiceNo') in
    if (0 <? String.length normalizedNew)%nat then
      List.find
        (fun b => JSString.truthy (invoiceNo b)
                  && String.eqb (JSString.toLowerCase (JSString.trim (invoiceNo b)))
                                normalizedNew)
        bills
    else None
  else None.

Section DuplicateCheck.

(** [String.prototype.trim] and [String.prototype.toLowerCase] of the
    host. *)
Variable trim : string -> string.
Variable toLowerCase : string -> string.


End DuplicateCheck.

(** [capture] is the compressed image and the fields extracted from
    it, [None] when the handler is called without a file. *)
Definition handleAddBill (capture : option (string * Extracted.t))
           (st : AppState) : M AppState :=
  let finally (s : AppState) : AppState :=
    match duplicateAlert st with
    | None => setProcessStatus "" (setLoadingId None s)
    | Some _ => s
    end in
  let working := setProcessStatus "Compressing image..."
                   (setLoadingId (Some "new") st) in
  match capture with
  | Some (base64Image, extracted) =>
      match findDuplicate (Extracted.invoiceNo extracted) (allBills st) with
      | Some duplicate =>
          ret (finally
                 (setDuplicateAlert
                    (Some (DuplicateAlert.mk duplicate extracted (Some base64Image)))
                    (setProcessStatus "" (setLoadingId None working))))
      | None =>
          let* s := createBill extracted (Some base64Image) None
                      (setProcessStatus "Saving bill..." working) in
          ret (finally s)
      end
  | None =>
      let* s := createBill Extracted.empty None None
                  (setProcessStatus "Saving bill..." working) in
      ret (finally s)
  end.

Definition handleManualQuickAdd (data : QuickAdd.t) (st : AppState) : M AppState :=
  let* s := createBill
              (Extracted.mk (QuickAdd.customerName data) "" (QuickAdd.invoiceNo data)
                            (currentDate st))
              None
              (Some (ManualData.mk (QuickAdd.boxCount data) (QuickAdd.description data)))
              (setProcessStatus "Quick add..." (setLoadingId (Some "new") st)) in
  ret (setProcessStatus "" (setLoadingId None s)).

Definition handleConfirmDuplicate (st : AppState) : M AppState :=
  match duplicateAlert st with
  | Some d =>
      let* s := createBill (DuplicateAlert.newData d) (DuplicateAlert.base64 d) None
                  (setProcessStatus "Creating duplicate entry..."
                     (setLoadingId (Some "new_dup") (setDuplicateAlert None st))) in
      ret (setProcessStatus "" (setLoadingId None s))
  | None => ret st
  end.

Definition handleUpdateBill (updated : BillData) (st : AppState) : M AppState :=
  saveBillToStorage updated ;;
  ret (setAllBills
         (map (fun b => if String.eqb (id b) (id updated) then updated else b)
              (allBills st))
         st).

(** ** Selection *)

Definition setGroupNameInput (v : string) (s : AppState) : AppState :=
  mkApp (allBills s) (currentDate s) (loadingId s) (processStatus s)
        (expandedId s) (isSelectionMode s) (selectedIds s) (showGroupModal s)
        v (groupColorInput s) (duplicateAlert s)
        (isCloudConnectedState s) (isSyncing s).
Definition setGroupColorInput (v : string) (s : AppState) : AppState :=
  mkApp (allBills s) (currentDate s) (loadingId s) (processStatus s)
        (expandedId s) (isSelectionMode s) (selectedIds s) (showGroupModal s)
        (groupNameInput s) v (duplicateAlert s)
        (isCloudConnectedState s) (isSyncing s).

Definition toggleSelectionMode (st : AppState) : AppState :=
  let s1 := setIsSelectionMode (negb (isSelectionMode st)) st in
  let s2 := if isSelectionMode st then setSelectedIds ∅ s1 else s1 in
  setExpandedId None s2.

Definition handleToggleSelect (i : string) (st : AppState) : AppState :=
  let newSet :=
    if bool_decide (i ∈ selectedIds st)
    then selectedIds st ∖ {[ i ]}       (* newSet.delete(id) *)
    else {[ i ]} ∪ selectedIds st in    (* newSet.add(id) *)
  setSelectedIds newSet st.

Definition openGroupModal (st : AppState) : AppState :=
  if (size (selectedIds st) =? 0)%nat then st
  else
    let selectedBills :=
      List.filter (fun b => bool_decide (id b ∈ selectedIds st)) (allBills st) in
    let commonName :=
      match List.find (fun b => JSString.truthy (description b)) selectedBills with
      | Some b => description b
      | None => ""
      end in
    let commonColor :=
      match List.find (fun b => match colorTheme b with
                                | Some c => JSString.truthy c
                                | None => false
                                end) selectedBills with
      | Some b => default "" (colorTheme b)
      | None => ""
      end in
    setShowGroupModal true
      (setGroupColorInput commonColor (setGroupNameInput commonName st)).

(** ** Deletion *)

(** The calls [deleteBillFromStorage(id)] of the loop are not awaited;
    they run here one after the other, in the order in which
    [elements] lists the set. *)
Definition handleDeleteSelected (confirmed : bool) (st : AppState) : M AppState :=
  if (size (selectedIds st) =? 0)%nat then ret st
  else if confirmed then
    let updates :=
      List.filter (fun b => negb (bool_decide (id b ∈ selectedIds st)))
                  (allBills st) in
    saveBillsToStorage updates ;;
    (if isCloudConnectedState st
     then forEach (elements (selectedIds st)) deleteBillFromStorage
     else ret tt) ;;
    ret (setSelectedIds ∅ (setIsSelectionMode false (setAllBills updates st)))
  else ret st.

Definition handleDeleteBill (confirmed : bool) (i : string) (st : AppState)
  : M AppState :=
  if confirmed then
    deleteBillFromStorage i ;;
    let s1 := setAllBills
                (List.filter (fun b => negb (String.eqb (id b) i)) (allBills st))
                st in
    ret (if bool_decide (expandedId st = Some i) then setExpandedId None s1 else s1)
  else ret st.

(** [first] and [final] are the answers to the two confirmations. *)
Definition handleClearAllData (first final : bool) (st : AppState) : M AppState :=
  if first then
    if final then clearAllBills ;; ret (setAllBills [] st)
    else ret st
  else ret st.

(** ** The two lists of the day *)

Definition todayNewBills (st : AppState) : list BillData :=
  JSArray.sort byCreatedAtDesc
    (List.filter (fun b => String.eqb (entryDate b) (currentDate st)) (allBills st)).

Section Backlog.

(** [String.prototype.localeCompare] of the host. *)
Variable localeCompare : string -> string -> Z.

Definition backlogBills (st : AppState) : list BillData :=
  JSArray.sort (fun a b => localeCompare (entryDate a) (entryDate b))
    (List.filter
       (fun b => match status b with PENDING => true | PACKED => false end
                 && String.ltb (entryDate b) (currentDate st))
       (allBills st)).

End Backlog.

End App.

(* ===================================================================== *)
(** * components/BillCard: the edits of one card *)
(* ===================================================================== *)

Module BillCard.

(** A key of [BillData] with a value for it: the arguments [field] and
    [value] of [handleChange]. *)
Inductive FieldValue : Type :=
| SetId (v : string)
| SetImageUrl (v : option string)
| SetCustomerName (v : string)
| SetAddress (v : string)
| SetInvoiceNo (v : string)
| SetBillDate (v : string)
| SetStatus (v : PackingStatus)
| SetIsDelivery (v : bool)
| SetHasCRN (v : bool)
| SetIsEditedBill (v : bool)
| SetIsAdditionalBill (v : bool)
| SetBoxCount (v : Z)
| SetDescription (v : string)
| SetColorTheme (v : option string)
| SetEntryDate (v : string)
| SetCreatedAt (v : Z)
| SetUpdatedAt (v : Z)
| SetPackedAt (v : option Z).

(** [{ ...bill, [field]: value }] *)
Definition setField (fv : FieldValue) (b : BillData) : BillData :=
  match fv with
  | SetId v =>
      mkBill v (imageUrl b) (customerName b) (address b) (invoiceNo b)
             (billDate b) (status b) (isDelivery b) (hasCRN b) (isEditedBill b)
             (isAdditionalBill b) (boxCount b) (description b) (colorTheme b)
             (entryDate b) (createdAt b) (updatedAt b) (packedAt b)
  | SetImageUrl v =>
      mkBill (id b) v (customerName b) (address b) (invoiceNo b)
             (billDate b) (status b) (isDelivery b) (hasCRN b) (isEditedBill b)
             (isAdditionalBill b) (boxCount b) (description b) (colorTheme b)
             (entryDate b) (createdAt b) (updatedAt b) (packedAt b)
  | SetCustomerName v =>
      mkBill (id b) (imageUrl b) v (address b) (invoiceNo b)
             (billDate b) (status b) (isDelivery b) (hasCRN b) (isEditedBill b)
             (isAdditionalBill b) (boxCount b) (description b) (colorTheme b)
             (entryDate b) (createdAt b) (updatedAt b) (packedAt b)
  | SetAddress v =>
      mkBill (id b) (imageUrl b) (customerName b) v (invoiceNo b)
             (billDate b) (status b) (isDelivery b) (hasCRN b) (isEditedBill b)
             (isAdditionalBill b) (boxCount b) (description b) (colorTheme b)
             (entryDate b) (createdAt b) (updatedAt b) (packedAt b)
  | SetInvoiceNo v =>
      mkBill (id b) (imageUrl b) (customerName b) (address b) v
             (billDate b) (status b) (isDelivery b) (hasCRN b) (isEditedBill b)
             (isAdditionalBill b) (boxCount b) (description b) (colorTheme b)
             (entryDate b) (createdAt b) (updatedAt b) (packedAt b)
  | SetBillDate v =>
      mkBill (id b) (imageUrl b) (customerName b) (address b) (invoiceNo b)
             v (status b) (isDelivery b) (hasCRN b) (isEditedBill b)
             (isAdditionalBill b) (boxCount b) (description b) (colorTheme b)
             (entryDate b) (createdAt b) (updatedAt b) (packedAt b)
  | SetStatus v =>
      mkBill (id b) (imageUrl b) (customerName b) (address b) (invoiceNo b)
             (billDate b) v (isDelivery b) (hasCRN b) (isEditedBill b)
             (isAdditionalBill b) (boxCount b) (description b) (colorTheme b)
             (entryDate b) (createdAt b) (updatedAt b) (packedAt b)
  | SetIsDelivery v =>
      mkBill (id b) (imageUrl b) (customerName b) (address b) (invoiceNo b)
             (billDate b) (status b) v (hasCRN b) (isEditedBill b)
             (isAdditionalBill b) (boxCount b) (description b) (colorTheme b)
             (entryDate b) (createdAt b) (updatedAt b) (packedAt b)
  | SetHasCRN v =>
      mkBill (id b) (imageUrl b) (customerName b) (address b) (invoiceNo b)
             (billDate b) (status b) (isDelivery b) v (isEditedBill b)
             (isAdditionalBill b) (boxCount b) (description b) (colorTheme b)
             (entryDate b) (createdAt b) (updatedAt b) (packedAt b)
  | SetIsEditedBill v =>
      mkBill (id b) (imageUrl b) (customerName b) (address b) (invoiceNo b)
             (billDate b) (status b) (isDelivery b) (hasCRN b) v
             (isAdditionalBill b) (boxCount b) (description b) (colorTheme b)
             (entryDate b) (createdAt b) (updatedAt b) (packedAt b)
  | SetIsAdditionalBill v =>
      mkBill (id b) (imageUrl b) (customerName b) (address b) (invoiceNo b)
             (billDate b) (status b) (isDelivery b) (hasCRN b) (isEditedBill b)
             v (boxCount b) (description b) (colorTheme b)
             (entryDate b) (createdAt b) (updatedAt b) (packedAt b)
  | SetBoxCount v =>
      mkBill (id b) (imageUrl b) (customerName b) (address b) (invoiceNo b)
             (billDate b) (status b) (isDelivery b) (hasCRN b) (isEditedBill b)
             (isAdditionalBill b) v (description b) (colorTheme b)
             (entryDate b) (createdAt b) (updatedAt b) (packedAt b)
  | SetDescription v =>
      mkBill (id b) (imageUrl b) (customerName b) (address b) (invoiceNo b)
             (billDate b) (status b) (isDelivery b) (hasCRN b) (isEditedBill b)
             (isAdditionalBill b) (boxCount b) v (colorTheme b)
             (entryDate b) (createdAt b) (updatedAt b) (packedAt b)
  | SetColorTheme v =>
      mkBill (id b) (imageUrl b) (customerName b) (address b) (invoiceNo b)
             (billDate b) (status b) (isDelivery b) (hasCRN b) (isEditedBill b)
             (isAdditionalBill b) (boxCount b) (description b) v
             (entryDate b) (createdAt b) (updatedAt b) (packedAt b)
  | SetEntryDate v =>
      mkBill (id b) (imageUrl b) (customerName b) (address b) (invoiceNo b)
             (billDate b) (status b) (isDelivery b) (hasCRN b) (isEditedBill b)
             (isAdditionalBill b) (boxCount b) (description b) (colorTheme b)
             v (createdAt b) (updatedAt b) (packedAt b)
  | SetCreatedAt v =>
      mkBill (id b) (imageUrl b) (customerName b) (address b) (invoiceNo b)
             (billDate b) (status b) (isDelivery b) (hasCRN b) (isEditedBill b)
             (isAdditionalBill b) (boxCount b) (description b) (colorTheme b)
             (entryDate b) v (updatedAt b) (packedAt b)
  | SetUpdatedAt v =>
      mkBill (id b) (imageUrl b) (customerName b) (address b) (invoiceNo b)
             (billDate b) (status b) (isDelivery b) (hasCRN b) (isEditedBill b)
             (isAdditionalBill b) (boxCount b) (description b) (colorTheme b)
             (entryDate b) (createdAt b) v (packedAt b)
  | SetPackedAt v =>
      mkBill (id b) (imageUrl b) (customerName b) (address b) (invoiceNo b)
             (billDate b) (status b) (isDelivery b) (hasCRN b) (isEditedBill b)
             (isAdditionalBill b) (boxCount b) (description b) (colorTheme b)
             (entryDate b) (createdAt b) (updatedAt b) v
  end.

(** [{ ...b, updatedAt: now }]: the key [updatedAt] comes last in the
    literal of [handleChange], so it also overrides a [value] given for
    [updatedAt]. *)
Definition stampUpdatedAt (now : Z) (b : BillData) : BillData :=
  mkBill (id b) (imageUrl b) (customerName b) (address b) (invoiceNo b)
         (billDate b) (status b) (isDelivery b) (hasCRN b) (isEditedBill b)
         (isAdditionalBill b) (boxCount b) (description b) (colorTheme b)
         (entryDate b) (createdAt b) now (packedAt b).

Section Card.

(** The props [bill] and [onChange] of the card; [App] passes
    [handleUpdateBill] as [onChange]. *)
Context {A : Type}.
Variable bill : BillData.
Variable onChange : BillData -> M A.

(** [onChange({ ...bill, [field]: value, updatedAt: Date.now() })] *)
Definition handleChange (fv : FieldValue) : M A :=
  let* now := Date_now in
  onChange (stampUpdatedAt now (setField fv bill)).

(** [updatedAt] and [packedAt] each read the clock; a bill that is set
    back to pending loses its [packedAt]. *)
Definition handleStatusChange (newStatus : PackingStatus) : M A :=
  let* updated := Date_now in
  let* packed := match newStatus with
                 | PACKED => let* t := Date_now in ret (Some t)
                 | PENDING => ret None
                 end in
  onChange
    (mkBill (id bill) (imageUrl bill) (customerName bill) (address bill)
            (invoiceNo bill) (billDate bill)
            newStatus                                        (* status *)
            (isDelivery bill) (hasCRN bill) (isEditedBill bill)
            (isAdditionalBill bill) (boxCount bill) (description bill)
            (colorTheme bill) (entryDate bill) (createdAt bill)
            updated                                          (* updatedAt *)
            packed).                                         (* packedAt *)

End Card.

End BillCard.

(* ===================================================================== *)
(** * Vocabulary of the properties *)
(* ===================================================================== *)

Import storageService.
Import App.

(** The bills of a given id. *)
Definition hasId (i : string) (b : BillData) : bool := String.eqb (id b) i.

Definition ids (bills : list BillData) : list string := map id bills.

(** The content of the Local Store: what [getStoredBills] returns. *)
Definition storedBillsOf (w : World) : list BillData :=
  match fst (getStoredBills w) with
  | Ok bills => bills
  | Throw _ => []
  end.

(** The key of the bills holds nothing or a list of bills, as the
    program writes it. *)
Definition storeTyped (w : World) : Prop :=
  match localStorage w !! STORAGE_KEY with
  | None => True
  | Some t => exists bills, t = BillJSON.stringify bills
  end.

(** The content of the remote replica: the [data] of the rows. *)
Definition remoteBillsOf (w : World) : list BillData :=
  map Payload.data (bills_table w).

(** The next request is executed and answered without error. *)
Definition nextDelivered (w : World) : Prop :=
  hd Delivered (network w) = Delivered.

(** The store takes the write of [bills]: [setItem] does not throw. *)
Definition writeTaken (bills : list BillData) (w : World) : Prop :=
  fst (setItem STORAGE_KEY (BillJSON.stringify bills) w) = Ok tt.

(** The same in terms of the quota. *)
Definition writeFits (bills : list BillData) (w : World) : Prop :=
  (storage_used (<[STORAGE_KEY := BillJSON.stringify bills]> (localStorage w))
   <= quota w)%nat.

#[global] Instance Outcome_eq_dec : EqDecision Outcome.
Proof. solve_decision. Defined.

#[global] Instance nextDelivered_dec w : Decision (nextDelivered w).
Proof. unfold nextDelivered. apply _. Defined.

#[global] Instance writeFits_dec bills w : Decision (writeFits bills w).
Proof. unfold writeFits. apply _. Defined.

(** The bills sent by [upsert] in a list of events. *)
Definition uploadOf (e : Event) : option BillData :=
  match e with
  | Sent (Upsert p) => Some (Payload.data p)
  | _ => None
  end.

Definition uploads (evs : list Event) : list BillData := omap uploadOf evs.

(** The events that a run from [w] to [w'] added. *)
Definition eventsSince (w w' : World) : list Event :=
  drop (List.length (events w)) (events w').

(** The bills pushed to the remote replica between [w] and [w']. *)
Definition pushedBetween (w w' : World) : list BillData :=
  uploads (eventsSince w w').

(** [r] is the remote counterpart of [b]: the first remote bill of its id. *)
Definition remoteCounterpart (remoteBills : list BillData) (b r : BillData) : Prop :=
  exists before after : list BillData,
    remoteBills = before ++ r :: after /\
    id r = id b /\
    Forall (fun x => id x <> id b) before.

(** Last writer wins, one remote bill at a time. *)
Definition lww (current : option BillData) (r : BillData) : option BillData :=
  match current with
  | None => Some r
  | Some l => if updatedAt r >? updatedAt l then Some r else Some l
  end.

(** An entry map made by [set (id b) b]: distinct keys, each the id of
    its value. *)
Definition keyedById (m : JSMap.t BillData) : Prop :=
  NoDup (JSMap.keys m) /\ Forall (fun kv => id (snd kv) = fst kv) m.

(** The entry map of the merge, before sorting. *)
Definition mergedMapOf (localBills remoteBills : list BillData) : JSMap.t BillData :=
  fold_left mergeRemote remoteBills (fold_left addLocal localBills JSMap.empty).

(** A run from [w] to [w'] that keeps the client and the quota, and
    whose new events upload exactly [ups], in this order. *)
Definition Step (w w' : World) (ups : list BillData) : Prop :=
  supabase w' = supabase w /\
  quota w' = quota w /\
  exists evs, events w' = events w ++ evs /\ uploads evs = ups.

(** What the user is shown when the store is full. *)
Definition storageAlert : Event :=
  Alert "Storage full! Please delete some old bills or images.".

(** The fields of a bill that neither packing nor stamping touches. *)
Definition sameDetails (b b' : BillData) : Prop :=
  id b' = id b /\ imageUrl b' = imageUrl b /\
  customerName b' = customerName b /\ address b' = address b /\
  invoiceNo b' = invoiceNo b /\ billDate b' = billDate b /\
  isDelivery b' = isDelivery b /\ hasCRN b' = hasCRN b /\
  isEditedBill b' = isEditedBill b /\ isAdditionalBill b' = isAdditionalBill b /\
  boxCount b' = boxCount b /\ description b' = description b /\
  colorTheme b' = colorTheme b /\ entryDate b' = entryDate b /\
  createdAt b' = createdAt b.

(** ** Vocabulary of the further properties *)

(** The requests sent and the alerts shown in a list of events. *)
Definition requestOf (e : Event) : option Request :=
  match e with Sent r => Some r | _ => None end.

Definition alertOf (e : Event) : option string :=
  match e with Alert msg => Some msg | _ => None end.

Definition requestsOf (evs : list Event) : list Request := omap requestOf evs.
Definition alertsOf (evs : list Event) : list string := omap alertOf evs.

(** The requests sent and the alerts shown between [w] and [w']. *)
Definition requestsBetween (w w' : World) : list Request :=
  requestsOf (eventsSince w w').
Definition alertsBetween (w w' : World) : list string :=
  alertsOf (eventsSince w w').

Definition storageAlertText : string :=
  "Storage full! Please delete some old bills or images.".

(** The row that [syncUpItem] sends for a bill. *)
Definition payloadOf (b : BillData) : Payload.t :=
  Payload.mk (id b) b (updatedAt b).

(** A run from [w] to [w'] that keeps the client and the quota, sends
    the requests [reqs] and shows the alerts [alerts], in this order. *)
Definition Run (w w' : World) (reqs : list Request) (alerts : list string) : Prop :=
  supabase w' = supabase w /\
  quota w' = quota w /\
  exists evs, events w' = events w ++ evs /\
              requestsOf evs = reqs /\ alertsOf evs = alerts.

(** Every coming request is delivered. *)
Definition allDelivered (w : World) : Prop :=
  Forall (fun o => o = Delivered) (network w).

(** The table is keyed by the id of the bill each row holds, one row per
    id. *)
Definition tableKeyed (t : list Payload.t) : Prop :=
  NoDup (map Payload.id t) /\
  Forall (fun r => Payload.id r = id (Payload.data r)) t.

(** The table after the rows of [bills] were upserted one by one. *)
Definition pushAll (bills : list BillData) (t : list Payload.t) : list Payload.t :=
  fold_left (fun t b => Supabase.upsert_row (payloadOf b) t) bills t.

(** [w'] differs from [w] at most in the clock and in the random
    suffixes to come. *)
Definition sameButClock (w w' : World) : Prop :=
  localStorage w' = localStorage w /\ quota w' = quota w /\
  supabase w' = supabase w /\ bills_table w' = bills_table w /\
  network w' = network w /\ events w' = events w.


(* ===================================================================== *)
(** * A worked scenario *)
(* ===================================================================== *)

(** Bill A as the device holds it, and A' as the remote holds it after
    it was packed on another device. *)
Definition billA : BillData :=
  mkBill "1" (Some "") "Grace Stores" "Kochi" "INV-001" "2024-03-01" PENDING
         false false false false 2 "" None "2024-03-02" 50 100 None.

Definition billA' : BillData :=
  mkBill "1" (Some "") "Grace Stores" "Kochi" "INV-001" "2024-03-01" PACKED
         false false false false 2 "" None "2024-03-02" 50 200 (Some 200).


Definition client0 : SupabaseClient := mkClient "https://grace.supabase.co" "anon".

(** The store holds A, the remote holds A', the device clock reads 150. *)
Definition world0 : World :=
  mkWorld {[ STORAGE_KEY := BillJSON.stringify [billA] ]} 5000
          (Some client0) [Payload.mk "1" billA' 200] [] 150 [] [] [].

(** The same with the coming request lost. *)
Definition worldDropped : World := set_network [Dropped] world0.

(** The same with a store that is full. *)
Definition worldFull : World :=
  mkWorld {[ STORAGE_KEY := BillJSON.stringify [billA] ]} 330
          (Some client0) [Payload.mk "1" billA' 200] [] 150 [] [] [].

(** The same with a clock that advances by one millisecond before its
    third reading. *)
Definition worldTicking : World :=
  mkWorld {[ STORAGE_KEY := BillJSON.stringify [billA] ]} 5000
          None [] [] 1000 [0; 0; 1] ["k3x9ab"] [].

(** The component showing [bills] with bill 1 selected. *)
Definition appSelecting (bills : list BillData) : AppState :=
  mkApp bills "2024-03-02" None "" None true {[ "1" ]} false "Shelf B" "blue"
        None false false.


(** A device without a client whose store holds a text that is no
    JSON. *)
Definition worldUnreadable : World :=
  mkWorld {[ STORAGE_KEY := PlainText "not json" ]} 5000
          None [] [] 150 [] [] [].

(** A device without a client whose store holds A. *)
Definition worldOffline : World :=
  mkWorld {[ STORAGE_KEY := BillJSON.stringify [billA] ]} 5000
          None [] [] 150 [] [] [].

(** A library that accepts every configuration. *)
Definition createClient0 (url key : string) : Result SupabaseClient :=
  Ok (mkClient url key).

(** The fields read from a second image of bill A, the invoice number
    in lower case and with blanks around it. *)
Definition extractedA : Extracted.t :=
  Extracted.mk "Grace Stores" "Kochi" " inv-001 " "2024-03-01".

(* ===================================================================== *)
(** * Strings *)
(* ===================================================================== *)

Example trim_example : JSString.trim "  INV-001 " = "INV-001".
Proof. reflexivity. Qed.

Example toLowerCase_example : JSString.toLowerCase "INV-001" = "inv-001".
Proof. reflexivity. Qed.

Example toString36_example : JSString.toString36 1295 = "zz".
Proof. reflexivity. Qed.

(* ===================================================================== *)
(** * Arrays and maps *)
(* ===================================================================== *)

Section SortFacts.
Context {A : Type} (cmp : A -> A -> Z).

Lemma insert_Permutation (x : A) (l : list A) :
  Permutation (JSArray.insert cmp x l) (x :: l).
Proof.
  induction l as [|y ys IH]; simpl; [reflexivity|].
  destruct (cmp x y <=? 0); [reflexivity|].
  rewrite IH. apply perm_swap.
Qed.

Lemma sort_Permutation (l : list A) : Permutation (JSArray.sort cmp l) l.
Proof.
  induction l as [|x xs IH]; simpl; [reflexivity|].
  rewrite insert_Permutation. by constructor.
Qed.

Lemma elem_of_sort (x : A) (l : list A) : x ∈ JSArray.sort cmp l <-> x ∈ l.
Proof. by rewrite sort_Permutation. Qed.

(** With a comparator that decides a total preorder, the result is
    sorted. *)
Context (R : A -> A -> Prop).
Hypothesis cmp_R : forall x y, cmp x y <= 0 <-> R x y.
Hypothesis R_total : forall x y, R x y \/ R y x.
Hypothesis R_trans : forall x y z, R x y -> R y z -> R x z.

Lemma insert_StronglySorted (x : A) (l : list A) :
  StronglySorted R l -> StronglySorted R (JSArray.insert cmp x l).
Proof.
  induction 1 as [|y ys Hys IH Hall]; simpl.
  - repeat constructor.
  - destruct (Z.leb_spec (cmp x y) 0) as [Hle|Hgt].
    + apply cmp_R in Hle. constructor; [by constructor|].
      constructor; [done|]. eapply Forall_impl; [exact Hall|].
      intros z Hz. by apply (R_trans x y z).
    + constructor; [exact IH|].
      rewrite insert_Permutation. constructor; [|done].
      destruct (R_total x y) as [Hxy|Hyx]; [|done].
      apply cmp_R in Hxy. lia.
Qed.

Lemma sort_StronglySorted (l : list A) : StronglySorted R (JSArray.sort cmp l).
Proof.
  induction l as [|x xs IH]; simpl; [constructor|].
  by apply insert_StronglySorted.
Qed.
End SortFacts.

Section MapFacts.
Context {V : Type}.
Implicit Types (m : JSMap.t V) (k : string) (v : V).

Lemma get_set_eq k v m : JSMap.get k (JSMap.set k v m) = Some v.
Proof.
  induction m as [|[k' v'] rest IH]; simpl.
  - by rewrite String.eqb_refl.
  - destruct (String.eqb_spec k' k) as [->|Hne]; simpl.
    + by rewrite String.eqb_refl.
    + destruct (String.eqb_spec k' k); [done|]. exact IH.
Qed.

Lemma get_set_ne k k' v m :
  k <> k' -> JSMap.get k' (JSMap.set k v m) = JSMap.get k' m.
Proof.
  intros Hne. induction m as [|[k0 v0] rest IH]; simpl.
  - destruct (String.eqb_spec k k'); [done|reflexivity].
  - destruct (String.eqb_spec k0 k) as [->|Hk]; simpl.
    + destruct (String.eqb_spec k k'); [done|reflexivity].
    + destruct (String.eqb_spec k0 k'); [reflexivity|]. exact IH.
Qed.

Lemma get_None_keys k m : JSMap.get k m = None <-> k ∉ JSMap.keys m.
Proof.
  induction m as [|[k' v'] rest IH]; simpl.
  - split; [intros _; apply not_elem_of_nil|done].
  - rewrite not_elem_of_cons.
    destruct (String.eqb_spec k' k) as [->|Hne].
    + split; [done|]. intros [? _]. done.
    + rewrite IH. split; [intros ?; split; [congruence|done]|by intros [_ ?]].
Qed.

Lemma keys_set k v m :
  JSMap.keys (JSMap.set k v m)
  = match JSMap.get k m with
    | Some _ => JSMap.keys m
    | None => JSMap.keys m ++ [k]
    end.
Proof.
  unfold JSMap.keys.
  induction m as [|[k' v'] rest IH]; simpl; [reflexivity|].
  destruct (String.eqb_spec k' k) as [->|Hne]; simpl; [reflexivity|].
  rewrite IH. by destruct (JSMap.get k rest).
Qed.

Lemma NoDup_keys_set k v m :
  NoDup (JSMap.keys m) -> NoDup (JSMap.keys (JSMap.set k v m)).
Proof.
  intros Hnd. rewrite keys_set.
  destruct (JSMap.get k m) eqn:Hget; [done|].
  apply NoDup_app. split_and!; [done| |apply NoDup_singleton].
  intros x Hx ->%list_elem_of_singleton.
  by apply get_None_keys in Hget.
Qed.

Lemma get_Some_elem_of k v m : JSMap.get k m = Some v -> (k, v) ∈ m.
Proof.
  induction m as [|[k' v'] rest IH]; simpl; [done|].
  destruct (String.eqb_spec k' k) as [->|Hne].
  - intros [= ->]. by left.
  - intros ?. right. by apply IH.
Qed.

Lemma elem_of_get k v m : NoDup (JSMap.keys m) -> (k, v) ∈ m -> JSMap.get k m = Some v.
Proof.
  induction m as [|[k' v'] rest IH]; simpl.
  - intros _ []%elem_of_nil.
  - intros [Hk Hnd]%NoDup_cons [[= -> ->]|Hin]%elem_of_cons.
    + by rewrite String.eqb_refl.
    + destruct (String.eqb_spec k' k) as [->|Hne]; [|by apply IH].
      exfalso. apply Hk. change k with (fst (k, v)).
      by apply list_elem_of_fmap_2.
Qed.
End MapFacts.

(* ===================================================================== *)
(** * The merge of [fullSync] *)
(* ===================================================================== *)

Lemma keyedById_empty : keyedById JSMap.empty.
Proof. split; [apply NoDup_nil_2 | apply Forall_nil_2]. Qed.

Lemma Forall_set_entry (P : string * BillData -> Prop) k v (m : JSMap.t BillData) :
  P (k, v) -> (forall v', P (k, v') -> P (k, v)) ->
  Forall P m -> Forall P (JSMap.set k v m).
Proof.
  intros Hkv Hrepl. induction 1 as [|[k' v'] rest Hhd Htl IH]; simpl.
  - by repeat constructor.
  - destruct (String.eqb_spec k' k) as [->|Hne]; constructor; auto.
Qed.

Lemma keyedById_set (b : BillData) (m : JSMap.t BillData) :
  keyedById m -> keyedById (JSMap.set (id b) b m).
Proof.
  intros [Hnd Hall]. split; [by apply NoDup_keys_set|].
  apply Forall_set_entry; auto.
Qed.

Lemma keyedById_addLocal m b : keyedById m -> keyedById (addLocal m b).
Proof. apply keyedById_set. Qed.

Lemma keyedById_mergeRemote m r : keyedById m -> keyedById (mergeRemote m r).
Proof.
  intros Hm. unfold mergeRemote.
  destruct (JSMap.get (id r) m) as [l|]; [|by apply keyedById_set].
  destruct (updatedAt r >? updatedAt l); [by apply keyedById_set|done].
Qed.

Lemma keyedById_fold (f : JSMap.t BillData -> BillData -> JSMap.t BillData) bills m :
  (forall m b, keyedById m -> keyedById (f m b)) ->
  keyedById m -> keyedById (fold_left f bills m).
Proof.
  intros Hf. revert m. induction bills as [|b bs IH]; simpl; auto.
Qed.

Lemma keyedById_values m (b : BillData) :
  keyedById m -> b ∈ JSMap.values m <-> JSMap.get (id b) m = Some b.
Proof.
  intros [Hnd Hall]. split.
  - intros ([k v] & -> & Hin)%list_elem_of_fmap. simpl.
    rewrite Forall_forall in Hall. specialize (Hall _ Hin). simpl in Hall.
    rewrite Hall. by apply elem_of_get.
  - intros Hget%get_Some_elem_of.
    change b with (snd (id b, b)). by apply list_elem_of_fmap_2.
Qed.

Lemma keyedById_ids m : keyedById m -> ids (JSMap.values m) = JSMap.keys m.
Proof.
  intros [_ Hall]. unfold ids, JSMap.values, JSMap.keys.
  induction Hall as [|[k v] rest Hkv _ IH]; simpl in *; [done|].
  by rewrite Hkv, IH.
Qed.

(** Reading an entry after the local bills were added: the last local
    bill of that id, if any. *)
Lemma get_fold_addLocal i bills m :
  JSMap.get i (fold_left addLocal bills m)
  = match last (List.filter (hasId i) bills) with
    | Some b => Some b
    | None => JSMap.get i m
    end.
Proof.
  revert m. induction bills as [|b bs IH]; intros m; simpl; [done|].
  rewrite IH. unfold hasId at 2, addLocal.
  destruct (String.eqb_spec (id b) i) as [<-|Hne].
  - rewrite last_cons, get_set_eq. by destruct (last _).
  - by rewrite get_set_ne.
Qed.

(** Reading an entry after the remote bills were merged: last writer
    wins over the remote bills of that id, in order. *)
Lemma get_mergeRemote i m r :
  JSMap.get i (mergeRemote m r)
  = if hasId i r then lww (JSMap.get i m) r else JSMap.get i m.
Proof.
  unfold mergeRemote, hasId.
  destruct (String.eqb_spec (id r) i) as [<-|Hne].
  - destruct (JSMap.get (id r) m) as [l|] eqn:Hget; simpl.
    + destruct (updatedAt r >? updatedAt l); [apply get_set_eq|done].
    + apply get_set_eq.
  - destruct (JSMap.get (id r) m) as [l|]; [|by apply get_set_ne].
    destruct (updatedAt r >? updatedAt l); [by apply get_set_ne|done].
Qed.

Lemma get_fold_mergeRemote i bills m :
  JSMap.get i (fold_left mergeRemote bills m)
  = fold_left lww (List.filter (hasId i) bills) (JSMap.get i m).
Proof.
  revert m. induction bills as [|r rs IH]; intros m; simpl; [done|].
  rewrite IH, get_mergeRemote. by destruct (hasId i r).
Qed.

Lemma lww_fold_is_Some bills o :
  is_Some (fold_left lww bills o) <-> is_Some o \/ bills <> [].
Proof.
  revert o. induction bills as [|r rs IH]; intros o; simpl.
  - split; [by left|]. by intros [?|?].
  - rewrite IH. split; [by right|]. intros _. left.
    destruct o as [l|]; simpl; [|by eexists].
    destruct (updatedAt r >? updatedAt l); by eexists.
Qed.

Lemma filter_hasId_nonempty i bills :
  List.filter (hasId i) bills <> [] <-> i ∈ ids bills.
Proof.
  unfold ids. induction bills as [|b bs IH]; simpl.
  - split; [done|]. by intros ?%elem_of_nil.
  - rewrite elem_of_cons. unfold hasId at 1.
    destruct (String.eqb_spec (id b) i) as [<-|Hne].
    + split; [by left|done].
    + rewrite IH. split; [by right|]. by intros [?|?].
Qed.

Lemma mergedMapOf_keyed l r : keyedById (mergedMapOf l r).
Proof.
  unfold mergedMapOf.
  apply keyedById_fold; [apply keyedById_mergeRemote|].
  apply keyedById_fold; [apply keyedById_addLocal|apply keyedById_empty].
Qed.

Lemma get_mergedMapOf i l r :
  JSMap.get i (mergedMapOf l r)
  = fold_left lww (List.filter (hasId i) r) (last (List.filter (hasId i) l)).
Proof.
  unfold mergedMapOf. rewrite get_fold_mergeRemote, get_fold_addLocal.
  by destruct (last _).
Qed.

Lemma mergeBills_Permutation l r :
  Permutation (mergeBills l r) (JSMap.values (mergedMapOf l r)).
Proof. apply sort_Permutation. Qed.

Lemma elem_of_mergeBills b l r :
  b ∈ mergeBills l r
  <-> fold_left lww (List.filter (hasId (id b)) r)
                (last (List.filter (hasId (id b)) l)) = Some b.
Proof.
  rewrite mergeBills_Permutation, keyedById_values by apply mergedMapOf_keyed.
  by rewrite get_mergedMapOf.
Qed.

(** The merged bills come newest created first. *)
Lemma mergeBills_sorted l r :
  StronglySorted (fun a b => createdAt b <= createdAt a) (mergeBills l r).
Proof.
  apply sort_StronglySorted; unfold byCreatedAtDesc; intros; lia.
Qed.

Lemma mergeBills_NoDup l r : NoDup (ids (mergeBills l r)).
Proof.
  unfold ids. rewrite mergeBills_Permutation.
  fold (ids (JSMap.values (mergedMapOf l r))).
  rewrite keyedById_ids by apply mergedMapOf_keyed.
  apply mergedMapOf_keyed.
Qed.

Lemma mergeBills_ids i l r :
  i ∈ ids (mergeBills l r) <-> i ∈ ids l \/ i ∈ ids r.
Proof.
  unfold ids at 1. rewrite mergeBills_Permutation.
  fold (ids (JSMap.values (mergedMapOf l r))).
  rewrite keyedById_ids by apply mergedMapOf_keyed.
  assert (i ∈ JSMap.keys (mergedMapOf l r)
          <-> is_Some (JSMap.get i (mergedMapOf l r))) as ->.
  { rewrite <- not_eq_None_Some, get_None_keys.
    split; [tauto|apply dec_stable]. }
  rewrite get_mergedMapOf, lww_fold_is_Some, <- !filter_hasId_nonempty.
  by rewrite <- not_eq_None_Some, last_None.
Qed.

(** A list with distinct ids holds each of its bills as the only one of
    its id. *)
Lemma filter_hasId_NoDup bills b :
  NoDup (ids bills) -> b ∈ bills -> List.filter (hasId (id b)) bills = [b].
Proof.
  unfold ids. induction bills as [|x xs IH]; simpl.
  - by intros _ ?%elem_of_nil.
  - intros [Hx Hnd]%NoDup_cons Hin. unfold hasId at 1.
    assert (Hnone : forall y, id y ∉ map id xs -> List.filter (hasId (id y)) xs = []).
    { intros y Hy. destruct (List.filter (hasId (id y)) xs) eqn:E; [done|].
      exfalso. apply Hy. apply filter_hasId_nonempty. by rewrite E. }
    apply elem_of_cons in Hin as [->|Hin].
    + rewrite String.eqb_refl. f_equal. by apply Hnone.
    + destruct (String.eqb_spec (id x) (id b)) as [Heq|Hne]; [|by apply IH].
      exfalso. apply Hx. rewrite Heq. by apply list_elem_of_fmap_2.
Qed.

(* ===================================================================== *)
(** * Running the service *)
(* ===================================================================== *)

Lemma bind_ok {A B : Type} (m : M A) (k : A -> M B) w a w1 :
  m w = (Ok a, w1) -> bind m k w = k a w1.
Proof. unfold bind. by intros ->. Qed.

Lemma bind_throw {A B : Type} (m : M A) (k : A -> M B) w e w1 :
  m w = (Throw e, w1) -> bind m k w = (Throw e, w1).
Proof. unfold bind. by intros ->. Qed.

Lemma try_catch_ok {A : Type} (m : M A) (h : Error -> M A) w a w1 :
  m w = (Ok a, w1) -> try_catch m h w = (Ok a, w1).
Proof. unfold try_catch. by intros ->. Qed.

Lemma try_catch_throw {A : Type} (m : M A) (h : Error -> M A) w e w1 :
  m w = (Throw e, w1) -> try_catch m h w = h e w1.
Proof. unfold try_catch. by intros ->. Qed.

Lemma uploads_app evs1 evs2 : uploads (evs1 ++ evs2) = uploads evs1 ++ uploads evs2.
Proof. apply omap_app. Qed.

Lemma Step_refl w : Step w w [].
Proof. repeat split. exists []. by rewrite app_nil_r. Qed.

Lemma Step_trans w w1 w2 u1 u2 :
  Step w w1 u1 -> Step w1 w2 u2 -> Step w w2 (u1 ++ u2).
Proof.
  intros (Hs1 & Hq1 & e1 & He1 & Hu1) (Hs2 & Hq2 & e2 & He2 & Hu2).
  split; [congruence|]. split; [congruence|].
  exists (e1 ++ e2). split.
  - by rewrite He2, He1, app_assoc.
  - by rewrite uploads_app, Hu1, Hu2.
Qed.

Lemma Step_emit w ev : Step w (set_events (events w ++ [ev]) w) (uploads [ev]).
Proof. repeat split. by exists [ev]. Qed.

Lemma Step_pushedBetween w w' ups : Step w w' ups -> pushedBetween w w' = ups.
Proof.
  intros (_ & _ & evs & Hev & Hups).
  unfold pushedBetween, eventsSince. by rewrite Hev, drop_app_length.
Qed.

(** ** Reading the store *)

Lemma getStoredBills_run w :
  exists w', getStoredBills w = (Ok (storedBillsOf w), w') /\
             localStorage w' = localStorage w /\
             bills_table w' = bills_table w /\
             network w' = network w /\
             Step w w' [].
Proof.
  unfold storedBillsOf, getStoredBills, try_catch, bind, getItem, gets, JSON_parse.
  destruct (localStorage w !! STORAGE_KEY) as [t|]; simpl.
  - destruct (text_truthy t); simpl.
    + destruct (BillJSON.parse t); simpl.
      * eexists; split_and!; eauto using Step_refl.
      * eexists; split_and!; eauto. eapply Step_emit.
    + eexists; split_and!; eauto using Step_refl.
  - eexists; split_and!; eauto using Step_refl.
Qed.

(** What is read depends on the storage alone. *)
Lemma storedBillsOf_ext w1 w2 :
  localStorage w1 = localStorage w2 -> storedBillsOf w1 = storedBillsOf w2.
Proof.
  intros Heq.
  unfold storedBillsOf, getStoredBills, try_catch, bind, getItem, gets, JSON_parse.
  rewrite Heq.
  destruct (localStorage w2 !! STORAGE_KEY) as [t|]; simpl; [|done].
  destruct (text_truthy t); simpl; [|done].
  by destruct (BillJSON.parse t).
Qed.

(** ** Writing the store *)

Lemma writeTaken_fits bills w : writeTaken bills w <-> writeFits bills w.
Proof.
  unfold writeTaken, writeFits, setItem.
  destruct (Nat.leb_spec
              (storage_used (<[STORAGE_KEY := BillJSON.stringify bills]> (localStorage w)))
              (quota w)); simpl; split; try done; lia.
Qed.

Lemma saveBillsToStorage_fits bills w :
  writeFits bills w ->
  saveBillsToStorage bills w
  = (Ok tt, set_localStorage
              (<[STORAGE_KEY := BillJSON.stringify bills]> (localStorage w)) w).
Proof.
  intros Hfit%Nat.leb_le. unfold saveBillsToStorage, try_catch, setItem.
  by rewrite Hfit.
Qed.

Lemma saveBillsToStorage_full bills w :
  ~ writeFits bills w ->
  saveBillsToStorage bills w
  = (Ok tt,
     set_events
       (events w
        ++ [ConsoleError "Failed to save bills (likely quota exceeded):"
                         QuotaExceededError;
            storageAlert]) w).
Proof.
  intros Hfull%Nat.leb_nle. unfold saveBillsToStorage, try_catch, setItem.
  rewrite Hfull. unfold bind, console_error, alert, emit, modify. simpl.
  by rewrite <- app_assoc.
Qed.

Lemma saveBillsToStorage_run bills w :
  exists w', saveBillsToStorage bills w = (Ok tt, w') /\
             bills_table w' = bills_table w /\
             network w' = network w /\
             Step w w' [] /\
             (writeFits bills w ->
              localStorage w'
              = <[STORAGE_KEY := BillJSON.stringify bills]> (localStorage w)) /\
             (~ writeFits bills w ->
              localStorage w' = localStorage w /\
              storageAlert ∈ eventsSince w w').
Proof.
  destruct (decide (writeFits bills w)) as [Hfit|Hfull].
  - rewrite saveBillsToStorage_fits by done.
    eexists. split; [reflexivity|]. split_and!; try done.
    repeat split. exists []. by rewrite app_nil_r.
  - rewrite saveBillsToStorage_full by done.
    eexists. split; [reflexivity|]. split_and!; try done.
    + repeat split. eexists. split; [reflexivity|done].
    + intros _. split; [done|]. unfold eventsSince. simpl.
      rewrite drop_app_length. set_solver.
Qed.

(** ** Requests *)

Lemma syncUpItem_run b w c :
  supabase w = Some c ->
  exists w', syncUpItem b w = (Ok tt, w') /\
             localStorage w' = localStorage w /\
             Step w w' [b].
Proof.
  intros Hsup.
  unfold syncUpItem, bind, gets, try_catch, Supabase.upsert, Supabase.respond,
    bind, emit, modify, Supabase.next_outcome, console_error, emit, modify.
  rewrite Hsup. simpl.
  destruct (network w) as [|[| |] rest]; simpl;
    (eexists; split; [reflexivity|]; split; [done|]; repeat split; simpl;
     eexists; split; [try reflexivity; by rewrite <- app_assoc|done]).
Qed.

Lemma pushLoop_run remoteBills bills w c :
  supabase w = Some c ->
  exists w',
    forEach bills (fun bill => if needsPush remoteBills bill
                               then syncUpItem bill else ret tt) w
    = (Ok tt, w') /\
    localStorage w' = localStorage w /\
    Step w w' (List.filter (needsPush remoteBills) bills).
Proof.
  revert w. induction bills as [|b bs IH]; intros w Hsup; simpl.
  - exists w. split_and!; eauto using Step_refl.
  - destruct (needsPush remoteBills b).
    + destruct (syncUpItem_run b w c Hsup) as (w1 & Hrun & Hls & Hstep).
      destruct (IH w1) as (w2 & Hrun2 & Hls2 & Hstep2).
      { destruct Hstep as [-> _]. done. }
      exists w2. rewrite (bind_ok _ _ _ _ _ Hrun). split_and!; [done|congruence|].
      apply (Step_trans _ _ _ [b] _ Hstep Hstep2).
    + destruct (IH w Hsup) as (w2 & Hrun2 & Hls2 & Hstep2).
      exists w2. split_and!; done.
Qed.

Lemma select_all_delivered c w :
  nextDelivered w ->
  exists w', Supabase.select_all c w
             = (Ok (Response.mk (Some (bills_table w)) None), w') /\
             localStorage w' = localStorage w /\
             bills_table w' = bills_table w /\
             Step w w' [].
Proof.
  unfold nextDelivered, Supabase.select_all, Supabase.respond, bind, emit, modify,
    Supabase.next_outcome, gets. simpl.
  destruct (network w) as [|o rest]; simpl.
  - intros _. eexists; split_and!; eauto. apply Step_emit.
  - intros ->. simpl. eexists; split_and!; eauto.
    repeat split. by exists [Sent Select].
Qed.

(** A fetch that is not delivered is answered with an error, or lost. *)
Lemma select_all_failed c w :
  ~ nextDelivered w ->
  exists w', (Supabase.select_all c w
              = (Ok (Response.mk None (Some PostgrestError)), w') \/
              Supabase.select_all c w = (Throw NetworkError, w')) /\
             localStorage w' = localStorage w /\
             Step w w' [].
Proof.
  unfold nextDelivered, Supabase.select_all, Supabase.respond, bind, emit, modify,
    Supabase.next_outcome, gets. simpl.
  destruct (network w) as [|[| |] rest]; simpl; intros Hnd; try done.
  - eexists; split_and!; eauto. repeat split. by exists [Sent Select].
  - eexists; split_and!; eauto. repeat split. by exists [Sent Select].
Qed.

(** ** The two ways through [fullSync] *)

(** Connected and the fetch delivered: the merge is written back, the
    bills that need it are pushed, the merge is returned. *)
Lemma fullSync_delivered c w :
  supabase w = Some c ->
  nextDelivered w ->
  let remoteBills := remoteBillsOf w in
  let merged := mergeBills (storedBillsOf w) remoteBills in
  exists w',
    fullSync w = (Ok merged, w') /\
    Step w w' (List.filter (needsPush remoteBills) merged) /\
    (writeFits merged w ->
     localStorage w' = <[STORAGE_KEY := BillJSON.stringify merged]> (localStorage w)) /\
    (~ writeFits merged w -> localStorage w' = localStorage w).
Proof.
  intros Hsup Hnet remoteBills merged.
  destruct (select_all_delivered c w Hnet) as (w1 & Hsel & Hls1 & Htab1 & Hst1).
  destruct (getStoredBills_run w1) as (w2 & Hget & Hls2 & Htab2 & Hnet2 & Hst2).
  rewrite (storedBillsOf_ext w1 w) in Hget by done.
  destruct (saveBillsToStorage_run merged w2)
    as (w3 & Hsave & Htab3 & Hnet3 & Hst3 & Hfit & Hfull).
  assert (Hsup3 : supabase w3 = Some c).
  { destruct Hst1 as [E1 _], Hst2 as [E2 _], Hst3 as [E3 _]. congruence. }
  destruct (pushLoop_run remoteBills merged w3 c Hsup3) as (w4 & Hpush & Hls4 & Hst4).
  assert (Hfits : writeFits merged w2 <-> writeFits merged w).
  { unfold writeFits. destruct Hst1 as (_ & Q1 & _), Hst2 as (_ & Q2 & _).
    by rewrite Hls2, Hls1, Q2, Q1. }
  exists w4. split_and!.
  - unfold fullSync. rewrite (bind_ok _ _ _ _ _ (eq_refl : gets supabase w = _)).
    rewrite Hsup. apply try_catch_ok.
    rewrite (bind_ok _ _ _ _ _ Hsel). simpl.
    unfold bind at 1, ret at 1. unfold bind at 1, ret at 1.
    rewrite (bind_ok _ _ _ _ _ Hget).
    fold remoteBills. fold merged.
    rewrite (bind_ok _ _ _ _ _ Hsave).
    by rewrite (bind_ok _ _ _ _ _ Hpush).
  - pose proof (Step_trans _ _ _ _ _ (Step_trans _ _ _ _ _ (Step_trans _ _ _ _ _ Hst1 Hst2) Hst3) Hst4) as H.
    exact H.
  - intros Hf%Hfits. rewrite Hls4, (Hfit Hf). congruence.
  - intros Hf. rewrite Hls4. destruct Hfull as [-> _]; [by rewrite Hfits|congruence].
Qed.

(** Connected and the fetch failed: the error is logged and the stored
    bills are returned; the store is not written. *)
Lemma fullSync_fetch_failed c w :
  supabase w = Some c ->
  ~ nextDelivered w ->
  exists w', fullSync w = (Ok (storedBillsOf w), w') /\
             localStorage w' = localStorage w /\
             Step w w' [].
Proof.
  intros Hsup Hnet.
  destruct (select_all_failed c w Hnet) as (w1 & Hsel & Hls1 & Hst1).
  assert (exists e w2, Step w w2 [] /\ localStorage w2 = localStorage w /\
            fullSync w = (console_error "Sync Error" e ;; getStoredBills) w2)
    as (e & w2 & Hst2 & Hls2 & ->).
  { unfold fullSync. rewrite (bind_ok _ _ _ _ _ (eq_refl : gets supabase w = _)).
    rewrite Hsup. destruct Hsel as [Hsel|Hsel].
    - exists PostgrestError, w1. split_and!; [done..|].
      erewrite try_catch_throw; [reflexivity|].
      by rewrite (bind_ok _ _ _ _ _ Hsel).
    - exists NetworkError, w1. split_and!; [done..|].
      erewrite try_catch_throw; [reflexivity|].
      by rewrite (bind_throw _ _ _ _ _ Hsel). }
  set (w3 := set_events (events w2 ++ [ConsoleError "Sync Error" e]) w2).
  destruct (getStoredBills_run w3) as (w4 & Hget & Hls4 & _ & _ & Hst4).
  rewrite (storedBillsOf_ext w3 w) in Hget by done.
  exists w4. split_and!.
  - by rewrite (bind_ok _ _ _ _ w3 (eq_refl : console_error _ _ w2 = (Ok tt, w3))).
  - by rewrite Hls4.
  - apply (Step_trans _ _ _ [] [] Hst2).
    apply (Step_trans _ w3 _ [] []); [apply Step_emit|done].
Qed.

Lemma fullSync_disconnected w :
  supabase w = None -> fullSync w = getStoredBills w.
Proof.
  intros Hsup. unfold fullSync.
  rewrite (bind_ok _ _ _ _ _ (eq_refl : gets supabase w = _)). by rewrite Hsup.
Qed.

(* ===================================================================== *)
(** * The store round trip *)
(* ===================================================================== *)

Lemma of_json_to_json b : BillJSON.of_json (BillJSON.to_json b) = Some b.
Proof.
  destruct b as [i img cn ad inv bd st dl crn ed add bc de col en cr up pk].
  destruct img, col, pk, st; reflexivity.
Qed.

Lemma all_of_json_to_json bills :
  BillJSON.all_of_json (map BillJSON.to_json bills) = Some bills.
Proof.
  induction bills as [|b bs IH]; simpl; [done|].
  by rewrite of_json_to_json, IH.
Qed.

Lemma parse_stringify bills : BillJSON.parse (BillJSON.stringify bills) = Some bills.
Proof. apply all_of_json_to_json. Qed.

Lemma storedBillsOf_written bills w :
  localStorage w !! STORAGE_KEY = Some (BillJSON.stringify bills) ->
  storedBillsOf w = bills.
Proof.
  intros Hget.
  unfold storedBillsOf, getStoredBills, try_catch, bind, getItem, gets, JSON_parse.
  rewrite Hget. simpl. by rewrite all_of_json_to_json.
Qed.

(* ===================================================================== *)
(** * Properties of the synchronisation engine *)
(* ===================================================================== *)

Lemma filter_singleton_hasId i (bills : list BillData) b :
  List.filter (hasId i) bills = [b] -> id b = i.
Proof.
  intros Hf. assert (Hin : In b (List.filter (hasId i) bills)) by (rewrite Hf; by left).
  apply filter_In in Hin as [_ Hid]. by apply String.eqb_eq in Hid.
Qed.

(** One local copy and one remote copy of an id: the merge holds one
    bill of that id, the remote copy if it is strictly newer, the local
    copy otherwise. *)
Lemma mergeBills_winner i localBills remoteBills l r :
  List.filter (hasId i) localBills = [l] ->
  List.filter (hasId i) remoteBills = [r] ->
  List.filter (hasId i) (mergeBills localBills remoteBills)
  = [if updatedAt r >? updatedAt l then r else l].
Proof.
  intros Hl Hr.
  pose proof (filter_singleton_hasId _ _ _ Hl) as Hidl.
  pose proof (filter_singleton_hasId _ _ _ Hr) as Hidr.
  set (x := if updatedAt r >? updatedAt l then r else l).
  assert (Hidx : id x = i) by (subst x; by destruct (updatedAt r >? updatedAt l)).
  rewrite <- Hidx. apply filter_hasId_NoDup; [apply mergeBills_NoDup|].
  apply elem_of_mergeBills. rewrite Hidx, Hl, Hr. simpl. subst x.
  by destruct (updatedAt r >? updatedAt l).
Qed.

Lemma find_filter {A : Type} (p : A -> bool) (l : list A) :
  List.find p l = head (List.filter p l).
Proof.
  induction l as [|x xs IH]; simpl; [done|]. by destruct (p x).
Qed.

(** C1. Merge determinism of [fullSync]: when an id has one local copy
    [l] and one remote copy [r], the merged set returned by a delivered
    [fullSync] holds exactly one bill of that id; it is the remote copy
    when [r.updatedAt > l.updatedAt], and the local copy otherwise, in
    particular when the two [updatedAt] are equal. *)
Theorem fullSync_last_writer_wins (w : World) (c : SupabaseClient)
        (i : string) (l r : BillData) :
  supabase w = Some c ->
  nextDelivered w ->
  List.filter (hasId i) (storedBillsOf w) = [l] ->
  List.filter (hasId i) (remoteBillsOf w) = [r] ->
  exists merged w',
    fullSync w = (Ok merged, w') /\
    (updatedAt l < updatedAt r -> List.filter (hasId i) merged = [r]) /\
    (updatedAt r = updatedAt l -> List.filter (hasId i) merged = [l]) /\
    (updatedAt r < updatedAt l -> List.filter (hasId i) merged = [l]).
Proof.
  intros Hsup Hnet Hl Hr.
  destruct (fullSync_delivered c w Hsup Hnet) as (w' & Hrun & _).
  eexists _, w'. split; [exact Hrun|].
  rewrite (mergeBills_winner i _ _ l r Hl Hr).
  split_and!; intros Hcmp.
  - by replace (updatedAt r >? updatedAt l) with true by lia.
  - by replace (updatedAt r >? updatedAt l) with false by lia.
  - by replace (updatedAt r >? updatedAt l) with false by lia.
Qed.

(** C10. The merged set that a delivered [fullSync] returns, and writes
    back when the store takes it, holds at most one bill per id, and its
    ids are those of the local bills together with those of the remote
    bills. *)
Theorem fullSync_merged_ids (w : World) (c : SupabaseClient) :
  supabase w = Some c ->
  nextDelivered w ->
  exists merged w',
    fullSync w = (Ok merged, w') /\
    (writeTaken merged w -> storedBillsOf w' = merged) /\
    NoDup (ids merged) /\
    (forall i, i ∈ ids merged
               <-> i ∈ ids (storedBillsOf w) \/ i ∈ ids (remoteBillsOf w)).
Proof.
  intros Hsup Hnet.
  destruct (fullSync_delivered c w Hsup Hnet) as (w' & Hrun & _ & Hfit & _).
  eexists _, w'. split; [exact Hrun|]. split_and!.
  - intros Hf%writeTaken_fits. apply storedBillsOf_written. rewrite (Hfit Hf).
    apply lookup_insert_eq.
  - apply mergeBills_NoDup.
  - intros i. apply mergeBills_ids.
Qed.

(** The merged set that a delivered [fullSync] returns is sorted by
    [createdAt], newest first. *)
Theorem fullSync_newest_first (w : World) (c : SupabaseClient) :
  supabase w = Some c ->
  nextDelivered w ->
  exists merged w',
    fullSync w = (Ok merged, w') /\
    StronglySorted (fun a b => createdAt b <= createdAt a) merged.
Proof.
  intros Hsup Hnet.
  destruct (fullSync_delivered c w Hsup Hnet) as (w' & Hrun & _).
  eexists _, w'. split; [exact Hrun|apply mergeBills_sorted].
Qed.

Lemma find_hasId_None (remoteBills : list BillData) b :
  List.find (fun r => String.eqb (id r) (id b)) remoteBills = None
  <-> forall r, r ∈ remoteBills -> id r <> id b.
Proof.
  induction remoteBills as [|x xs IH]; simpl.
  - split; [by intros _ r ?%elem_of_nil|done].
  - destruct (String.eqb_spec (id x) (id b)) as [Heq|Hne].
    + split; [done|]. intros H. exfalso. apply (H x); [by left|done].
    + rewrite IH. split.
      * intros H r [->|Hin]%elem_of_cons; auto.
      * intros H r Hin. apply H. by right.
Qed.

Lemma find_hasId_Some (remoteBills : list BillData) b r :
  List.find (fun r => String.eqb (id r) (id b)) remoteBills = Some r
  <-> remoteCounterpart remoteBills b r.
Proof.
  unfold remoteCounterpart. induction remoteBills as [|x xs IH]; simpl.
  - split; [done|]. intros (before & after & Heq & _). by destruct before.
  - destruct (String.eqb_spec (id x) (id b)) as [Heq|Hne].
    + split.
      * intros [= ->]. exists [], xs. by repeat split.
      * intros ([|y before] & after & Hl & Hid & Hall).
        -- by injection Hl as -> _.
        -- injection Hl as -> _. by apply Forall_cons_1 in Hall as [? _].
    + rewrite IH. split.
      * intros (before & after & -> & Hid & Hall).
        exists (x :: before), after. split_and!; [done|done|by constructor].
      * intros ([|y before] & after & Hl & Hid & Hall).
        -- injection Hl as -> _. done.
        -- injection Hl as -> ->. apply Forall_cons_1 in Hall as [_ Hall].
           by exists before, after.
Qed.

Lemma needsPush_spec (remoteBills : list BillData) b :
  needsPush remoteBills b = true
  <-> (forall r, r ∈ remoteBills -> id r <> id b) \/
      (exists r, remoteCounterpart remoteBills b r /\ updatedAt r < updatedAt b).
Proof.
  unfold needsPush.
  destruct (List.find _ remoteBills) as [r|] eqn:Hfind.
  - apply find_hasId_Some in Hfind as Hcp. split.
    + intros Hgt. right. exists r. split; [done|lia].
    + intros [Hnone|(r' & Hcp' & Hlt)].
      * destruct Hcp as (before & after & -> & Hid & _).
        exfalso. apply (Hnone r); [|done]. apply elem_of_app. right. by left.
      * apply find_hasId_Some in Hcp'. rewrite Hfind in Hcp'.
        injection Hcp' as ->. lia.
  - pose proof (proj1 (find_hasId_None _ _) Hfind) as Hnone.
    split; [by left|done].
Qed.

(** C2. During a delivered [fullSync] a bill of the merged set is pushed
    (sent by [upsert]) if and only if no remote bill has its id, or its
    [updatedAt] is strictly greater than that of its remote counterpart;
    nothing else is pushed.  When the store holds a bill with
    [updatedAt = 100] and the remote holds the bill of the same id with
    [updatedAt = 200], the merge holds the remote copy under that id, it
    is installed in the store when the store takes the write, and no
    bill of that id is pushed. *)
Theorem fullSync_push_rule (w : World) (c : SupabaseClient) :
  supabase w = Some c ->
  nextDelivered w ->
  exists merged w',
    fullSync w = (Ok merged, w') /\
    (forall b, b ∈ pushedBetween w w' -> b ∈ merged) /\
    (forall b, b ∈ merged ->
       (b ∈ pushedBetween w w'
        <-> (forall r, r ∈ remoteBillsOf w -> id r <> id b) \/
            (exists r, remoteCounterpart (remoteBillsOf w) b r /\
                       updatedAt r < updatedAt b))) /\
    (forall a a',
       List.filter (hasId (id a)) (storedBillsOf w) = [a] ->
       List.filter (hasId (id a)) (remoteBillsOf w) = [a'] ->
       updatedAt a = 100 -> updatedAt a' = 200 ->
       List.filter (hasId (id a)) merged = [a'] /\
       (forall b, b ∈ pushedBetween w w' -> id b <> id a) /\
       (writeTaken merged w ->
        List.filter (hasId (id a)) (storedBillsOf w') = [a'])).
Proof.
  intros Hsup Hnet.
  destruct (fullSync_delivered c w Hsup Hnet) as (w' & Hrun & Hstep & Hfit & _).
  apply Step_pushedBetween in Hstep.
  eexists _, w'. split; [exact Hrun|]. rewrite Hstep. split_and!.
  - intros b Hin. apply list_elem_of_In, filter_In in Hin as [Hin _].
    by apply list_elem_of_In.
  - intros b Hin. rewrite <- needsPush_spec.
    rewrite list_elem_of_In, filter_In, <- list_elem_of_In. tauto.
  - intros a a' Hl Hr Hu Hu'.
    pose proof (mergeBills_winner _ _ _ _ _ Hl Hr) as Hm.
    replace (updatedAt a' >? updatedAt a) with true in Hm by lia.
    pose proof (filter_singleton_hasId _ _ _ Hr) as Hid'.
    split_and!; [done| |].
    + intros b Hin Hidb.
      apply list_elem_of_In, filter_In in Hin as [Hin Hpush].
      assert (b = a') as ->.
      { assert (Hb : In b [a']).
        { rewrite <- Hm. apply filter_In. split; [done|].
          by apply String.eqb_eq. }
        by destruct Hb as [<-|[]]. }
      unfold needsPush in Hpush. rewrite find_filter in Hpush.
      fold (hasId (id a')) in Hpush. rewrite Hid', Hr in Hpush. simpl in Hpush.
      lia.
    + intros Hf%writeTaken_fits.
      rewrite (storedBillsOf_written
                 (mergeBills (storedBillsOf w) (remoteBillsOf w)) w'); [done|].
      rewrite (Hfit Hf). apply lookup_insert_eq.
Qed.

(** C3. When the remote is not connected, or the fetch is not delivered,
    [fullSync] returns the current content of the Local Store and leaves
    the Local Store as it was: nothing is written and nothing is pushed. *)
Theorem fullSync_offline (w : World) :
  supabase w = None \/ ~ nextDelivered w ->
  exists w',
    fullSync w = (Ok (storedBillsOf w), w') /\
    localStorage w' = localStorage w /\
    storedBillsOf w' = storedBillsOf w /\
    pushedBetween w w' = [].
Proof.
  intros Hoff.
  assert (exists w', fullSync w = (Ok (storedBillsOf w), w') /\
            localStorage w' = localStorage w /\ Step w w' [])
    as (w' & Hrun & Hls & Hstep).
  { destruct (supabase w) as [c|] eqn:Hsup.
    - destruct Hoff as [?|Hnet]; [done|]. by apply (fullSync_fetch_failed c).
    - rewrite fullSync_disconnected by done.
      destruct (getStoredBills_run w) as (w' & ? & ? & _ & _ & ?). by exists w'. }
  exists w'. split_and!; [done|done| |].
  - by apply storedBillsOf_ext.
  - by apply Step_pushedBetween.
Qed.

(** C4. When the write of [saveBillsToStorage] fails, the Local Store
    holds after the attempt what it held before, and the user is told
    within the call: the handler shows the storage alert. *)
Theorem saveBillsToStorage_write_failure (bills : list BillData) (w : World)
        (e : Error) :
  fst (setItem STORAGE_KEY (BillJSON.stringify bills) w) = Throw e ->
  exists w',
    saveBillsToStorage bills w = (Ok tt, w') /\
    localStorage w' = localStorage w /\
    storedBillsOf w' = storedBillsOf w /\
    storageAlert ∈ eventsSince w w'.
Proof.
  intros Hfail.
  assert (Hfull : ~ writeFits bills w).
  { intros Hfit%writeTaken_fits. unfold writeTaken in Hfit. congruence. }
  destruct (saveBillsToStorage_run bills w) as (w' & Hrun & _ & _ & _ & _ & Hkeep).
  destruct (Hkeep Hfull) as [Hls Halert].
  exists w'. split_and!; [done|done| |done]. by apply storedBillsOf_ext.
Qed.

(** C9. Round trip: a list written by [saveBillsToStorage], the write
    being taken by the store, is the list that [getStoredBills] reads
    next. *)
Theorem saveBillsToStorage_getStoredBills (bills : list BillData) (w : World) :
  writeTaken bills w ->
  exists w1 w2,
    saveBillsToStorage bills w = (Ok tt, w1) /\
    getStoredBills w1 = (Ok bills, w2).
Proof.
  intros Hfit%writeTaken_fits.
  destruct (saveBillsToStorage_run bills w) as (w1 & Hsave & _ & _ & _ & Hls & _).
  destruct (getStoredBills_run w1) as (w2 & Hget & _).
  exists w1, w2. split; [done|].
  rewrite Hget. do 2 f_equal. apply storedBillsOf_written.
  rewrite (Hls Hfit). apply lookup_insert_eq.
Qed.

(* ===================================================================== *)
(** * Properties of the handlers *)
(* ===================================================================== *)

Lemma find_first {A : Type} (p : A -> bool) (l : list A) (d : A) :
  List.find p l = Some d
  <-> exists before after,
        l = before ++ d :: after /\ p d = true /\
        Forall (fun x => p x = false) before.
Proof.
  induction l as [|x xs IH]; simpl.
  - split; [done|]. intros (before & after & Heq & _). by destruct before.
  - destruct (p x) eqn:Hpx.
    + split.
      * intros [= ->]. exists [], xs. by repeat split.
      * intros ([|y before] & after & Hl & Hd & Hall).
        -- by injection Hl as -> _.
        -- injection Hl as -> _. apply Forall_cons_1 in Hall as [Hy _]. congruence.
    + rewrite IH. split.
      * intros (before & after & -> & Hd & Hall).
        exists (x :: before), after. split_and!; [done|done|by constructor].
      * intros ([|y before] & after & Hl & Hd & Hall).
        -- injection Hl as -> _. congruence.
        -- injection Hl as -> ->. apply Forall_cons_1 in Hall as [_ Hall].
           by exists before, after.
Qed.

Lemma truthy_false s : JSString.truthy s = false <-> s = "".
Proof. by destruct s. Qed.


Section DuplicateDetection.

(** [String.prototype.trim] and [String.prototype.toLowerCase] of the
    host, of which only this is used: the empty string stays empty. *)
Variable trim : string -> string.
Variable toLowerCase : string -> string.
Hypothesis normal_empty : toLowerCase (trim "") = "".



End DuplicateDetection.

(** ** The clock *)

Lemma Date_now_run w :
  exists now w1,
    Date_now w = (Ok now, w1) /\
    localStorage w1 = localStorage w /\ quota w1 = quota w /\
    supabase w1 = supabase w /\ events w1 = events w.
Proof.
  unfold Date_now. destruct (ticks w); eexists _, _; split_and!; eauto.
Qed.

Lemma writeFits_ext bills w1 w2 :
  localStorage w1 = localStorage w2 -> quota w1 = quota w2 ->
  writeFits bills w1 <-> writeFits bills w2.
Proof. unfold writeFits. by intros -> ->. Qed.

(** ** Batch edits *)

Lemma handlePackSelected_run st w :
  selectedIds st <> ∅ ->
  exists now w1 w',
    Date_now w = (Ok now, w1) /\
    saveBillsToStorage
      (map (fun b => if bool_decide (id b ∈ selectedIds st)
                     then packStamp now b else b) (allBills st)) w1 = (Ok tt, w') /\
    handlePackSelected true st w
    = (Ok (setSelectedIds ∅
             (setIsSelectionMode false
                (setAllBills
                   (map (fun b => if bool_decide (id b ∈ selectedIds st)
                                  then packStamp now b else b) (allBills st)) st)),
           triggerSync st), w').
Proof.
  intros Hsel. unfold handlePackSelected.
  assert ((size (selectedIds st) =? 0)%nat = false) as ->.
  { apply Nat.eqb_neq. rewrite size_empty_iff. by intros ?%leibniz_equiv. }
  destruct (Date_now_run w) as (now & w1 & Hnow & _).
  destruct (saveBillsToStorage_run
              (map (fun b => if bool_decide (id b ∈ selectedIds st)
                             then packStamp now b else b) (allBills st)) w1)
    as (w' & Hsave & _).
  exists now, w1, w'. split_and!; [done|done|].
  rewrite (bind_ok _ _ _ _ _ Hnow). by rewrite (bind_ok _ _ _ _ _ Hsave).
Qed.

(** C6. After a confirmed bulk pack of a non-empty selection, the list of
    bills has the same bills at the same places; each selected bill has
    [status = PACKED] and [packedAt] and [updatedAt] equal to the one
    clock reading of the batch, its other fields kept; each bill outside
    the selection is unchanged; and this list is what the Local Store
    holds when the store takes the write. *)
Theorem handlePackSelected_packs (st : AppState) (w : World) :
  selectedIds st <> ∅ ->
  exists now st' tasks w',
    fst (Date_now w) = Ok now /\
    handlePackSelected true st w = (Ok (st', tasks), w') /\
    List.length (allBills st') = List.length (allBills st) /\
    (forall n b, allBills st !! n = Some b ->
       exists b', allBills st' !! n = Some b' /\
         (id b ∈ selectedIds st ->
          status b' = PACKED /\ packedAt b' = Some now /\ updatedAt b' = now /\
          sameDetails b b') /\
         (id b ∉ selectedIds st -> b' = b)) /\
    (writeTaken (allBills st') w -> storedBillsOf w' = allBills st').
Proof.
  intros Hsel.
  destruct (handlePackSelected_run st w Hsel) as (now & w1 & w' & Hnow & Hsave & Hrun).
  eexists now, _, _, w'. split_and!.
  - by rewrite Hnow.
  - exact Hrun.
  - simpl. apply length_map.
  - intros n b Hb. simpl. rewrite list_lookup_fmap, Hb. simpl.
    eexists. split; [reflexivity|]. split.
    + intros Hin. rewrite bool_decide_eq_true_2 by done.
      unfold sameDetails. simpl. by split_and!.
    + intros Hout. by rewrite bool_decide_eq_false_2.
  - simpl. intros Hfit%writeTaken_fits.
    destruct (Date_now_run w) as (now' & w1' & Hnow' & Hls & Hq & _).
    rewrite Hnow in Hnow'. injection Hnow' as <- <-.
    apply (writeFits_ext _ w w1) in Hfit; [|done..].
    rewrite saveBillsToStorage_fits in Hsave by done. injection Hsave as <-.
    apply storedBillsOf_written. simpl. apply lookup_insert_eq.
Qed.

Lemma applyGroupSettings_run st w :
  exists now w1 w',
    Date_now w = (Ok now, w1) /\
    applyGroupSettings st w
    = (Ok (setSelectedIds ∅
             (setIsSelectionMode false
                (setAllBills
                   (map (fun b => if bool_decide (id b ∈ selectedIds st)
                                  then groupStamp (groupNameInput st)
                                                  (groupColorInput st) now b
                                  else b) (allBills st))
                   (setShowGroupModal false st))),
           triggerSync st), w').
Proof.
  unfold applyGroupSettings.
  destruct (Date_now_run w) as (now & w1 & Hnow & _).
  destruct (saveBillsToStorage_run
              (map (fun b => if bool_decide (id b ∈ selectedIds st)
                             then groupStamp (groupNameInput st)
                                             (groupColorInput st) now b
                             else b) (allBills st)) w1)
    as (w' & Hsave & _).
  exists now, w1, w'. split; [done|].
  rewrite (bind_ok _ _ _ _ _ Hnow). by rewrite (bind_ok _ _ _ _ _ Hsave).
Qed.

Lemma saveBillToStorage_run bill w :
  exists w', saveBillToStorage bill w = (Ok tt, w').
Proof.
  unfold saveBillToStorage.
  destruct (getStoredBills_run w) as (w1 & Hget & _).
  rewrite (bind_ok _ _ _ _ _ Hget).
  match goal with
  | |- context [saveBillsToStorage ?l] =>
      destruct (saveBillsToStorage_run l w1) as (w2 & Hsave & _)
  end.
  rewrite (bind_ok _ _ _ _ _ Hsave).
  rewrite (bind_ok _ _ _ _ _ (eq_refl : gets supabase w2 = _)).
  destruct (supabase w2) as [c|] eqn:Hsup.
  - destruct (syncUpItem_run bill w2 c Hsup) as (w3 & Hup & _). by exists w3.
  - by exists w2.
Qed.

(** C8, amended. A field edit and a status change of a card, a group
    edit and a bulk pack stamp the bill with a clock reading of the
    edit, the first one it takes: its [updatedAt] after the edit is that
    reading, hence strictly greater than before whenever the reading is
    later than the bill's previous [updatedAt]. *)
Theorem edit_stamps_clock (st : AppState) (w : World) (n : nat)
        (b : BillData) (now : Z) :
  fst (Date_now w) = Ok now ->
  allBills st !! n = Some b ->
  (forall fv, id (BillCard.setField fv b) = id b ->
     exists st' w' b',
       BillCard.handleChange b (fun u => handleUpdateBill u st) fv w
       = (Ok st', w') /\
       allBills st' !! n = Some b' /\ id b' = id b /\
       updatedAt b' = now /\
       (updatedAt b < now -> updatedAt b < updatedAt b')) /\
  (forall newStatus,
     exists st' w' b',
       BillCard.handleStatusChange b (fun u => handleUpdateBill u st) newStatus w
       = (Ok st', w') /\
       allBills st' !! n = Some b' /\ id b' = id b /\
       status b' = newStatus /\
       updatedAt b' = now /\
       (updatedAt b < now -> updatedAt b < updatedAt b')) /\
  (id b ∈ selectedIds st ->
   exists st' tasks w' b',
     applyGroupSettings st w = (Ok (st', tasks), w') /\
     allBills st' !! n = Some b' /\ id b' = id b /\
     updatedAt b' = now /\
     (updatedAt b < now -> updatedAt b < updatedAt b')) /\
  (id b ∈ selectedIds st ->
   exists st' tasks w' b',
     handlePackSelected true st w = (Ok (st', tasks), w') /\
     allBills st' !! n = Some b' /\ id b' = id b /\
     updatedAt b' = now /\
     (updatedAt b < now -> updatedAt b < updatedAt b')).
Proof.
  intros Hnow Hb.
  assert (Hstore : forall updated w1, id updated = id b ->
            exists st' w',
              handleUpdateBill updated st w1 = (Ok st', w') /\
              allBills st' !! n = Some updated).
  { intros updated w1 Hid. unfold handleUpdateBill.
    destruct (saveBillToStorage_run updated w1) as (w' & Hsave).
    eexists _, w'. rewrite (bind_ok _ _ _ _ _ Hsave). split; [reflexivity|].
    simpl. rewrite list_lookup_fmap, Hb. simpl.
    by rewrite Hid, String.eqb_refl. }
  destruct (Date_now_run w) as (now' & w1 & Hnow' & _).
  rewrite Hnow' in Hnow. injection Hnow as ->.
  split_and!.
  - intros fv Hid.
    destruct (Hstore (BillCard.stampUpdatedAt now (BillCard.setField fv b)) w1 Hid)
      as (st' & w' & Hrun & Hat).
    exists st', w', (BillCard.stampUpdatedAt now (BillCard.setField fv b)).
    split_and!; [|exact Hat|exact Hid|done|done].
    unfold BillCard.handleChange. by rewrite (bind_ok _ _ _ _ _ Hnow').
  - intros newStatus.
    assert (exists packed w2,
              (match newStatus with
               | PACKED => let* t := Date_now in ret (Some t)
               | PENDING => ret None
               end) w1 = (Ok packed, w2)) as (packed & w2 & Hpacked).
    { destruct newStatus; [by eexists _, _|].
      destruct (Date_now_run w1) as (t & w2 & Ht & _).
      exists (Some t), w2. by rewrite (bind_ok _ _ _ _ _ Ht). }
    match goal with
    | |- context [BillCard.handleStatusChange ?bb ?k ?ns] =>
        set (updated :=
               mkBill (id b) (imageUrl b) (customerName b) (address b)
                      (invoiceNo b) (billDate b) newStatus (isDelivery b)
                      (hasCRN b) (isEditedBill b) (isAdditionalBill b)
                      (boxCount b) (description b) (colorTheme b)
                      (entryDate b) (createdAt b) now packed)
    end.
    destruct (Hstore updated w2 eq_refl) as (st' & w' & Hrun & Hat).
    exists st', w', updated. split_and!; [|exact Hat|done|done|done|done].
    unfold BillCard.handleStatusChange.
    rewrite (bind_ok _ _ _ _ _ Hnow'). by rewrite (bind_ok _ _ _ _ _ Hpacked).
  - intros Hsel.
    destruct (applyGroupSettings_run st w) as (now'' & w1' & w' & Hnow'' & Hrun).
    rewrite Hnow' in Hnow''. injection Hnow'' as <- <-.
    eexists _, _, w', _. split; [exact Hrun|]. simpl.
    rewrite list_lookup_fmap, Hb. simpl.
    rewrite bool_decide_eq_true_2 by done. by split_and!.
  - intros Hsel.
    assert (Hne : selectedIds st <> ∅) by set_solver.
    destruct (handlePackSelected_run st w Hne) as (now'' & w1' & w' & Hnow'' & _ & Hrun).
    rewrite Hnow' in Hnow''. injection Hnow'' as <- <-.
    eexists _, _, w', _. split; [exact Hrun|]. simpl.
    rewrite list_lookup_fmap, Hb. simpl.
    rewrite bool_decide_eq_true_2 by done. by split_and!.
Qed.

Lemma appSelecting_selected bills : "1" ∈ selectedIds (appSelecting bills).
Proof. unfold appSelecting. cbn [selectedIds]. by apply elem_of_singleton. Qed.

Lemma appSelecting_nonempty bills : selectedIds (appSelecting bills) <> ∅.
Proof.
  intros Hempty. pose proof (appSelecting_selected bills) as Hin.
  rewrite Hempty in Hin. by apply not_elem_of_empty in Hin.
Qed.

(** In the scenario the remote copy A' is the newer one and wins. *)
Lemma fullSync_last_writer_wins_witness :
  exists merged w',
    fullSync world0 = (Ok merged, w') /\
    List.filter (hasId "1") merged = [billA'].
Proof.
  destruct (fullSync_last_writer_wins world0 client0 "1" billA billA'
              eq_refl eq_refl ltac:(vm_compute; reflexivity)
              ltac:(vm_compute; reflexivity))
    as (merged & w' & Hrun & Hnewer & _).
  exists merged, w'. split; [exact Hrun|]. apply Hnewer. reflexivity.
Defined.

(** In the scenario the merge comes out sorted. *)
Lemma fullSync_newest_first_witness :
  exists merged w',
    fullSync world0 = (Ok merged, w') /\
    StronglySorted (fun a b => createdAt b <= createdAt a) merged.
Proof. exact (fullSync_newest_first world0 client0 eq_refl eq_refl). Defined.

(** In the scenario both sides hold id 1, and the merge holds it once. *)
Lemma fullSync_merged_ids_witness :
  exists merged w',
    fullSync world0 = (Ok merged, w') /\ NoDup (ids merged) /\
    (forall i, i ∈ ids merged <-> i ∈ ["1"] \/ i ∈ ["1"]).
Proof.
  destruct (fullSync_merged_ids world0 client0 eq_refl eq_refl)
    as (merged & w' & Hrun & _ & Hnd & Hids).
  exists merged, w'. split_and!; [exact Hrun|exact Hnd|exact Hids].
Defined.

(** In the scenario A' is installed and nothing is pushed. *)
Lemma fullSync_push_rule_witness :
  exists merged w',
    fullSync world0 = (Ok merged, w') /\
    List.filter (hasId "1") merged = [billA'] /\
    (forall b, b ∈ pushedBetween world0 w' -> id b <> "1") /\
    List.filter (hasId "1") (storedBillsOf w') = [billA'].
Proof.
  destruct (fullSync_push_rule world0 client0 eq_refl eq_refl)
    as (merged & w' & Hrun & _ & _ & Hscenario).
  assert (Hcomputed : fullSync world0 = (Ok [billA'], snd (fullSync world0)))
    by (vm_compute; reflexivity).
  destruct (Hscenario billA billA' ltac:(vm_compute; reflexivity)
              ltac:(vm_compute; reflexivity) eq_refl eq_refl) as (Hm & Hp & Hs).
  exists merged, w'. split_and!; [exact Hrun|exact Hm|exact Hp|].
  apply Hs. rewrite Hrun in Hcomputed. injection Hcomputed as ->.
  vm_compute. reflexivity.
Defined.

(** With the fetch lost, the store is returned and kept. *)
Lemma fullSync_offline_witness :
  exists w',
    fullSync worldDropped = (Ok [billA], w') /\
    localStorage w' = localStorage worldDropped.
Proof.
  destruct (fullSync_offline worldDropped) as (w' & Hrun & Hls & _).
  - right. vm_compute. intros [=].
  - exists w'. split; [exact Hrun|exact Hls].
Defined.

(** Two bills do not fit a store with room for one. *)
Lemma saveBillsToStorage_write_failure_witness :
  exists w',
    saveBillsToStorage [billA; billA'] worldFull = (Ok tt, w') /\
    localStorage w' = localStorage worldFull /\
    storageAlert ∈ eventsSince worldFull w'.
Proof.
  destruct (saveBillsToStorage_write_failure [billA; billA'] worldFull
              QuotaExceededError ltac:(vm_compute; reflexivity))
    as (w' & Hrun & Hls & _ & Halert).
  exists w'. split_and!; [exact Hrun|exact Hls|exact Halert].
Defined.

(** Two bills written, the same two read. *)
Lemma saveBillsToStorage_getStoredBills_witness :
  exists w1 w2,
    saveBillsToStorage [billA'; billA] world0 = (Ok tt, w1) /\
    getStoredBills w1 = (Ok [billA'; billA], w2).
Proof.
  apply (saveBillsToStorage_getStoredBills [billA'; billA] world0).
  vm_compute. reflexivity.
Defined.

(** Packing A when the clock reads 150. *)
Lemma handlePackSelected_packs_witness :
  exists st' tasks w',
    handlePackSelected true (appSelecting [billA]) world0 = (Ok (st', tasks), w') /\
    exists b', allBills st' !! O = Some b' /\
               status b' = PACKED /\ packedAt b' = Some 150 /\ updatedAt b' = 150.
Proof.
  destruct (handlePackSelected_packs (appSelecting [billA]) world0)
    as (now & st' & tasks & w' & Hnow & Hrun & _ & Hbills & _).
  - apply appSelecting_nonempty.
  - injection Hnow as <-.
    destruct (Hbills O billA eq_refl) as (b' & Hb' & Hin & _).
    destruct Hin as (Hst & Hpk & Hup & _); [apply appSelecting_selected|].
    exists st', tasks, w'. split; [exact Hrun|].
    exists b'. split_and!; [exact Hb'|exact Hst|exact Hpk|exact Hup].
Defined.

(** A was last updated at 100; its box count is edited on the card
    when the clock reads 150. *)
Lemma edit_stamps_clock_witness :
  exists st' w' b',
    BillCard.handleChange billA
      (fun u => handleUpdateBill u (appSelecting [billA]))
      (BillCard.SetBoxCount 3) world0
    = (Ok st', w') /\
    allBills st' !! O = Some b' /\ updatedAt billA < updatedAt b'.
Proof.
  destruct (edit_stamps_clock (appSelecting [billA]) world0 O billA 150
              eq_refl eq_refl) as (Hfield & _).
  destruct (Hfield (BillCard.SetBoxCount 3) eq_refl)
    as (st' & w' & b' & Hrun & Hb' & _ & _ & Hlt).
  exists st', w', b'. split_and!; [exact Hrun|exact Hb'|].
  apply Hlt. reflexivity.
Defined.

(** C8 as stated fails: a bill whose [updatedAt] is ahead of the clock
    of this device (200, as on the copy merged from a device whose clock
    is ahead, or after the clock was set back) and that is edited here
    when the clock reads 150 ends with a smaller [updatedAt]. *)
Lemma updatedAt_not_strictly_increasing :
  ~ (forall (st st' : AppState) (tasks : list Task) (w w' : World) (n : nat)
            (b b' : BillData),
       applyGroupSettings st w = (Ok (st', tasks), w') ->
       allBills st !! n = Some b ->
       id b ∈ selectedIds st ->
       allBills st' !! n = Some b' ->
       updatedAt b < updatedAt b').
Proof.
  intros Hclaim.
  destruct (applyGroupSettings (appSelecting [billA']) world0)
    as [[[st' tasks]|e] w'] eqn:Hrun; [|by vm_compute in Hrun].
  assert (Hst : allBills st' = [groupStamp "Shelf B" "blue" 150 billA']).
  { vm_compute in Hrun. by injection Hrun as <- _ _. }
  specialize (Hclaim (appSelecting [billA']) st' tasks world0 w' O billA'
                (groupStamp "Shelf B" "blue" 150 billA') Hrun eq_refl).
  rewrite Hst in Hclaim.
  specialize (Hclaim (appSelecting_selected _) eq_refl).
  vm_compute in Hclaim. discriminate Hclaim.
Qed.

Lemma generateId_run w :
  exists newId w', generateId w = (Ok newId, w').
Proof.
  unfold generateId.
  destruct (Date_now_run w) as (t & w1 & Hnow & _).
  rewrite (bind_ok _ _ _ _ _ Hnow).
  unfold bind, Math_random_suffix, ret. destruct (random w1); by eexists _, _.
Qed.

(** What [createBill] makes: a [PENDING] bill without [packedAt], in
    front of the list, whose [createdAt] and [updatedAt] are the two
    clock readings taken after the one of [generateId]. *)
Lemma createBill_new_bill extracted img manual st w :
  exists newId w0 created w1 updated w2 st' w' b,
    generateId w = (Ok newId, w0) /\
    Date_now w0 = (Ok created, w1) /\
    Date_now w1 = (Ok updated, w2) /\
    createBill extracted img manual st w = (Ok st', w') /\
    allBills st' = b :: allBills st /\
    id b = newId /\ status b = PENDING /\ packedAt b = None /\
    createdAt b = created /\ updatedAt b = updated.
Proof.
  destruct (generateId_run w) as (newId & w0 & Hid).
  destruct (Date_now_run w0) as (created & w1 & Hc & _).
  destruct (Date_now_run w1) as (updated & w2 & Hu & _).
  unfold createBill.
  rewrite (bind_ok _ _ _ _ _ Hid), (bind_ok _ _ _ _ _ Hc), (bind_ok _ _ _ _ _ Hu).
  match goal with
  | |- context [saveBillToStorage ?nb] =>
      destruct (saveBillToStorage_run nb w2) as (w' & Hsave)
  end.
  rewrite (bind_ok _ _ _ _ _ Hsave).
  eexists newId, w0, created, w1, updated, w2, _, w', _.
  by split_and!.
Qed.

(** C7 at a failing input: the clock advances by one millisecond between
    the two readings of the object literal of [createBill]; the new bill
    is [PENDING] with no [packedAt], and its [createdAt] and [updatedAt]
    differ. *)
Theorem createBill_timestamps_differ :
  exists st' w' b,
    createBill (Extracted.mk "Grace Stores" "Kochi" "INV-002" "2024-03-02")
               None None (appSelecting []) worldTicking = (Ok st', w') /\
    allBills st' = [b] /\
    status b = PENDING /\ packedAt b = None /\
    createdAt b = 1000 /\ updatedAt b = 1001.
Proof.
  eexists _, _, _. split; [vm_compute; reflexivity|].
  by split_and!.
Qed.

(* ===================================================================== *)
(** * Further properties: running with requests and alerts in view *)
(* ===================================================================== *)

Lemma requestsOf_app evs1 evs2 :
  requestsOf (evs1 ++ evs2) = requestsOf evs1 ++ requestsOf evs2.
Proof. apply omap_app. Qed.

Lemma alertsOf_app evs1 evs2 :
  alertsOf (evs1 ++ evs2) = alertsOf evs1 ++ alertsOf evs2.
Proof. apply omap_app. Qed.

Lemma Run_refl w : Run w w [] [].
Proof. repeat split. exists []. by rewrite app_nil_r. Qed.

Lemma Run_trans w w1 w2 r1 r2 a1 a2 :
  Run w w1 r1 a1 -> Run w1 w2 r2 a2 -> Run w w2 (r1 ++ r2) (a1 ++ a2).
Proof.
  intros (Hs1 & Hq1 & e1 & He1 & Hr1 & Ha1) (Hs2 & Hq2 & e2 & He2 & Hr2 & Ha2).
  split; [congruence|]. split; [congruence|].
  exists (e1 ++ e2). split_and!.
  - by rewrite He2, He1, app_assoc.
  - by rewrite requestsOf_app, Hr1, Hr2.
  - by rewrite alertsOf_app, Ha1, Ha2.
Qed.

Lemma Run_emit w ev :
  Run w (set_events (events w ++ [ev]) w) (requestsOf [ev]) (alertsOf [ev]).
Proof. repeat split. by exists [ev]. Qed.

Lemma Run_requestsBetween w w' reqs alerts :
  Run w w' reqs alerts -> requestsBetween w w' = reqs.
Proof.
  intros (_ & _ & evs & Hev & Hr & _).
  unfold requestsBetween, eventsSince. by rewrite Hev, drop_app_length.
Qed.

Lemma Run_alertsBetween w w' reqs alerts :
  Run w w' reqs alerts -> alertsBetween w w' = alerts.
Proof.
  intros (_ & _ & evs & Hev & _ & Ha).
  unfold alertsBetween, eventsSince. by rewrite Hev, drop_app_length.
Qed.

Lemma getStoredBills_quiet w :
  exists w', getStoredBills w = (Ok (storedBillsOf w), w') /\
             localStorage w' = localStorage w /\
             bills_table w' = bills_table w /\
             network w' = network w /\
             Run w w' [] [].
Proof.
  unfold storedBillsOf, getStoredBills, try_catch, bind, getItem, gets, JSON_parse.
  destruct (localStorage w !! STORAGE_KEY) as [t|]; simpl.
  - destruct (text_truthy t); simpl.
    + destruct (BillJSON.parse t); simpl.
      * eexists; split_and!; eauto using Run_refl.
      * eexists; split_and!; eauto. eapply Run_emit.
    + eexists; split_and!; eauto using Run_refl.
  - eexists; split_and!; eauto using Run_refl.
Qed.

Lemma saveBillsToStorage_outcome bills w :
  exists w', saveBillsToStorage bills w = (Ok tt, w') /\
             bills_table w' = bills_table w /\
             network w' = network w /\
             ((writeFits bills w /\
               localStorage w'
               = <[STORAGE_KEY := BillJSON.stringify bills]> (localStorage w) /\
               Run w w' [] []) \/
              (~ writeFits bills w /\
               localStorage w' = localStorage w /\
               Run w w' [] [storageAlertText])).
Proof.
  destruct (decide (writeFits bills w)) as [Hfit|Hfull].
  - rewrite saveBillsToStorage_fits by done.
    eexists. split; [reflexivity|]. split_and!; try done.
    left. split_and!; try done. repeat split. exists []. by rewrite app_nil_r.
  - rewrite saveBillsToStorage_full by done.
    eexists. split; [reflexivity|]. split_and!; try done.
    right. split_and!; try done. repeat split. eexists. split; [reflexivity|done].
Qed.

Lemma syncUpItem_offline b w :
  supabase w = None -> syncUpItem b w = (Ok tt, w).
Proof.
  intros Hsup. unfold syncUpItem.
  rewrite (bind_ok _ _ _ _ _ (eq_refl : gets supabase w = _)). by rewrite Hsup.
Qed.

Lemma syncUpItem_sends b w c :
  supabase w = Some c ->
  exists w', syncUpItem b w = (Ok tt, w') /\
             localStorage w' = localStorage w /\
             Run w w' [Upsert (payloadOf b)] [].
Proof.
  intros Hsup.
  unfold syncUpItem, bind, gets, try_catch, Supabase.upsert, Supabase.respond,
    bind, emit, modify, Supabase.next_outcome, console_error, emit, modify.
  rewrite Hsup. simpl.
  destruct (network w) as [|[| |] rest]; simpl;
    (eexists; split; [reflexivity|]; split; [done|]; repeat split; simpl;
     eexists; split; [try reflexivity; by rewrite <- app_assoc|done]).
Qed.

Lemma deleteRemoteItem_offline i w :
  supabase w = None -> deleteRemoteItem i w = (Ok tt, w).
Proof.
  intros Hsup. unfold deleteRemoteItem.
  rewrite (bind_ok _ _ _ _ _ (eq_refl : gets supabase w = _)). by rewrite Hsup.
Qed.

Lemma deleteRemoteItem_sends i w c :
  supabase w = Some c ->
  exists w', deleteRemoteItem i w = (Ok tt, w') /\
             localStorage w' = localStorage w /\
             Run w w' [Delete i] [].
Proof.
  intros Hsup.
  unfold deleteRemoteItem, bind, gets, try_catch, Supabase.delete_eq_id,
    Supabase.respond, bind, emit, modify, Supabase.next_outcome, console_error,
    emit, modify.
  rewrite Hsup. simpl.
  destruct (network w) as [|[| |] rest]; simpl;
    (eexists; split; [reflexivity|]; split; [done|]; repeat split; simpl;
     eexists; split; [try reflexivity; by rewrite <- app_assoc|done]).
Qed.

(* ===================================================================== *)
(** * Further properties: the single-bill operations of the store *)
(* ===================================================================== *)

Lemma findIndex_Some {A : Type} (p : A -> bool) (l : list A) (n : nat) :
  JSArray.findIndex p l = Some n ->
  exists before x after,
    l = before ++ x :: after /\ List.length before = n /\ p x = true /\
    Forall (fun y => p y = false) before.
Proof.
  revert n. induction l as [|y ys IH]; intros n; simpl; [done|].
  destruct (p y) eqn:Hy.
  - intros [= <-]. exists [], y, ys. by split_and!.
  - destruct (JSArray.findIndex p ys) as [m|] eqn:Hm; simpl; [|done].
    intros [= <-]. destruct (IH m eq_refl) as (before & x & after & -> & Hlen & Hx & Hall).
    exists (y :: before), x, after. split_and!; [done|by simpl; rewrite Hlen|done|].
    by constructor.
Qed.

Lemma findIndex_None {A : Type} (p : A -> bool) (l : list A) :
  JSArray.findIndex p l = None -> Forall (fun y => p y = false) l.
Proof.
  induction l as [|y ys IH]; simpl; [by constructor|].
  destruct (p y) eqn:Hy; [done|].
  destruct (JSArray.findIndex p ys); simpl; [done|].
  intros _. constructor; auto.
Qed.

Lemma Forall_not_hasId (i : string) (bills : list BillData) :
  Forall (fun y => String.eqb (id y) i = false) bills <-> i ∉ ids bills.
Proof.
  unfold ids. rewrite Forall_forall. split.
  - intros Hall (b & -> & Hin)%list_elem_of_fmap.
    specialize (Hall b Hin). by rewrite String.eqb_refl in Hall.
  - intros Hnot b Hin. apply String.eqb_neq. intros <-.
    apply Hnot. by apply list_elem_of_fmap_2.
Qed.

(** The list that [saveBillToStorage] writes, read off the stored list:
    the bill in front when its id is new, the bill in the place of the
    first stored bill of its id otherwise. *)
Lemma upsert_shape (bill : BillData) (stored : list BillData) :
  let written :=
    match JSArray.findIndex (fun b => String.eqb (id b) (id bill)) stored with
    | Some n => <[n := bill]> stored
    | None => bill :: stored
    end in
  ((id bill ∉ ids stored) /\ written = bill :: stored) \/
  (exists before old after,
     stored = before ++ old :: after /\ id old = id bill /\
     (id bill ∉ ids before) /\ written = before ++ bill :: after).
Proof.
  simpl. destruct (JSArray.findIndex _ stored) as [n|] eqn:Hfind.
  - right. apply findIndex_Some in Hfind
      as (before & old & after & -> & Hlen & Hold & Hall).
    exists before, old, after. split_and!; [done|by apply String.eqb_eq| |].
    + by apply Forall_not_hasId.
    + rewrite insert_app_r_alt by lia. by rewrite Hlen, Nat.sub_diag.
  - left. split; [|done]. by apply Forall_not_hasId, findIndex_None.
Qed.

Lemma storedBillsOf_after_write bills w w' :
  localStorage w' = <[STORAGE_KEY := BillJSON.stringify bills]> (localStorage w) ->
  storedBillsOf w' = bills.
Proof.
  intros Hls. apply storedBillsOf_written. rewrite Hls. apply lookup_insert_eq.
Qed.

Lemma saveBillToStorage_effect bill w :
  let written :=
    match JSArray.findIndex (fun b => String.eqb (id b) (id bill))
                            (storedBillsOf w) with
    | Some n => <[n := bill]> (storedBillsOf w)
    | None => bill :: storedBillsOf w
    end in
  exists w',
    saveBillToStorage bill w = (Ok tt, w') /\
    ((writeFits written w /\
      storedBillsOf w' = written /\
      Run w w' (match supabase w with
                | Some _ => [Upsert (payloadOf bill)] | None => [] end) []) \/
     (~ writeFits written w /\
      storedBillsOf w' = storedBillsOf w /\
      Run w w' (match supabase w with
                | Some _ => [Upsert (payloadOf bill)] | None => [] end)
          [storageAlertText])).
Proof.
  intros written.
  destruct (getStoredBills_quiet w) as (w1 & Hget & Hls1 & _ & _ & Hrun1).
  assert (Hfits : writeFits written w1 <-> writeFits written w).
  { apply writeFits_ext; [done|]. by destruct Hrun1 as (_ & ? & _). }
  destruct (saveBillsToStorage_outcome written w1) as (w2 & Hsave & _ & _ & Hout).
  assert (Hsup2 : supabase w2 = supabase w).
  { destruct Hrun1 as [E1 _].
    destruct Hout as [(_ & _ & [E2 _])|(_ & _ & [E2 _])]; congruence. }
  assert (exists w3, (match supabase w2 with
                       | Some _ => syncUpItem bill
                       | None => ret tt
                       end) w2 = (Ok tt, w3) /\
                     localStorage w3 = localStorage w2 /\
                     Run w2 w3 (match supabase w with
                                | Some _ => [Upsert (payloadOf bill)]
                                | None => [] end) [])
    as (w3 & Hpush & Hls3 & Hrun3).
  { rewrite <- Hsup2. destruct (supabase w2) as [c|] eqn:Hsup.
    - by apply (syncUpItem_sends bill w2 c).
    - exists w2. split_and!; [done|done|apply Run_refl]. }
  exists w3. split.
  - unfold saveBillToStorage. rewrite (bind_ok _ _ _ _ _ Hget).
    fold written. rewrite (bind_ok _ _ _ _ _ Hsave).
    by rewrite (bind_ok _ _ _ _ _ (eq_refl : gets supabase w2 = _)).
  - destruct Hout as [(Hf & Hls2 & Hrun2)|(Hf & Hls2 & Hrun2)];
      [left|right]; split_and!.
    + by apply Hfits.
    + apply (storedBillsOf_after_write written w1). congruence.
    + apply (Run_trans _ _ _ [] _ [] [] (Run_trans _ _ _ [] [] [] [] Hrun1 Hrun2) Hrun3).
    + by rewrite <- Hfits.
    + apply storedBillsOf_ext. congruence.
    + apply (Run_trans _ _ _ [] _ [storageAlertText] []
               (Run_trans _ _ _ [] [] [] [storageAlertText] Hrun1 Hrun2) Hrun3).
Qed.

Lemma find_hasId_app_cons (i : string) (before after : list BillData) b :
  i ∉ ids before -> id b = i ->
  List.find (hasId i) (before ++ b :: after) = Some b.
Proof.
  intros Hnot Hid. apply find_first. exists before, after. split_and!; [done| |].
  - by apply String.eqb_eq.
  - by apply Forall_not_hasId.
Qed.

(** A store that holds a list of bills still does after a write of
    the bills, taken or not. *)
Lemma storeTyped_after (w w' : World) :
  storeTyped w ->
  (localStorage w' = localStorage w \/
   exists bills,
     localStorage w'
     = <[STORAGE_KEY := BillJSON.stringify bills]> (localStorage w)) ->
  storeTyped w'.
Proof.
  unfold storeTyped. intros Hw [->|[bills ->]]; [done|].
  rewrite lookup_insert_eq. by exists bills.
Qed.

Lemma saveBillToStorage_key (bill : BillData) (w : World) :
  exists w',
    saveBillToStorage bill w = (Ok tt, w') /\
    (localStorage w' = localStorage w \/
     exists bills,
       localStorage w'
       = <[STORAGE_KEY := BillJSON.stringify bills]> (localStorage w)).
Proof.
  destruct (getStoredBills_quiet w) as (w1 & Hget & Hls1 & _ & _ & Hrun1).
  unfold saveBillToStorage. rewrite (bind_ok _ _ _ _ _ Hget).
  match goal with
  | |- context [saveBillsToStorage ?l] =>
      destruct (saveBillsToStorage_outcome l w1) as (w2 & Hsave & _ & _ & Hout);
      set (written := l) in *
  end.
  rewrite (bind_ok _ _ _ _ _ Hsave).
  rewrite (bind_ok _ _ _ _ _ (eq_refl : gets supabase w2 = _)).
  assert (Hls2 : localStorage w2 = localStorage w \/
                 localStorage w2
                 = <[STORAGE_KEY := BillJSON.stringify written]> (localStorage w)).
  { destruct Hout as [(_ & -> & _)|(_ & -> & _)]; [right|left]; congruence. }
  destruct (supabase w2) as [c|] eqn:Hsup.
  - destruct (syncUpItem_sends bill w2 c Hsup) as (w3 & Hpush & Hls3 & _).
    exists w3. split; [done|]. rewrite Hls3.
    destruct Hls2 as [-> | ->]; [by left|right; by exists written].
  - exists w2. split; [done|].
    destruct Hls2 as [-> | ->]; [by left|right; by exists written].
Qed.

(** Saving one bill to a store that holds a list of bills: the call
    returns and the store still holds a list of bills; either the
    storage alert is shown and the store keeps what it held, or the
    store now holds the bill, in front when its id is new and in the
    place of the first bill of its id otherwise, so that looking its id
    up gives the saved bill. *)
Theorem saveBillToStorage_upserts (bill : BillData) (w : World) :
  storeTyped w ->
  exists w',
    saveBillToStorage bill w = (Ok tt, w') /\
    storeTyped w' /\
    ((alertsBetween w w' = [storageAlertText] /\
      storedBillsOf w' = storedBillsOf w) \/
     (alertsBetween w w' = [] /\
      List.find (hasId (id bill)) (storedBillsOf w') = Some bill /\
      (((id bill ∉ ids (storedBillsOf w)) /\
        storedBillsOf w' = bill :: storedBillsOf w) \/
       (exists before old after,
          storedBillsOf w = before ++ old :: after /\
          id old = id bill /\ (id bill ∉ ids before) /\
          storedBillsOf w' = before ++ bill :: after)))).
Proof.
  intros Htyped.
  destruct (saveBillToStorage_effect bill w) as (w' & Hrun & Heff).
  exists w'. split; [exact Hrun|]. split.
  { destruct (saveBillToStorage_key bill w) as (w'' & Hrun' & Hkey).
    rewrite Hrun in Hrun'. injection Hrun' as <-.
    by apply (storeTyped_after w). }
  destruct Heff as [(_ & Hst & Hr)|(_ & Hst & Hr)].
  - right. split; [by apply Run_alertsBetween in Hr|].
    rewrite Hst.
    destruct (upsert_shape bill (storedBillsOf w))
      as [[Hnew ->]|(before & old & after & Hs & Hid & Hnot & ->)].
    + split; [|by left]. apply (find_hasId_app_cons _ []); [|done].
      apply not_elem_of_nil.
    + split; [by apply find_hasId_app_cons|].
      right. by exists before, old, after.
  - left. split; [by apply Run_alertsBetween in Hr|done].
Qed.

(** Saving one bill keeps the ids of the store in their order: the list
    of ids is unchanged, or the id of the bill is added in front when it
    was not there; ids that were distinct stay distinct. *)
Theorem saveBillToStorage_ids (bill : BillData) (w : World) :
  exists w',
    saveBillToStorage bill w = (Ok tt, w') /\
    (ids (storedBillsOf w') = ids (storedBillsOf w) \/
     ((id bill ∉ ids (storedBillsOf w)) /\
      ids (storedBillsOf w') = id bill :: ids (storedBillsOf w))) /\
    (NoDup (ids (storedBillsOf w)) -> NoDup (ids (storedBillsOf w'))).
Proof.
  destruct (saveBillToStorage_effect bill w) as (w' & Hrun & Heff).
  exists w'. split; [exact Hrun|].
  assert (Hids : ids (storedBillsOf w') = ids (storedBillsOf w) \/
           ((id bill ∉ ids (storedBillsOf w)) /\
            ids (storedBillsOf w') = id bill :: ids (storedBillsOf w))).
  { destruct Heff as [(_ & Hst & _)|(_ & Hst & _)]; [|left; by rewrite Hst].
    rewrite Hst.
    destruct (upsert_shape bill (storedBillsOf w))
      as [[Hnew ->]|(before & old & after & Hs & Hid & Hnot & ->)].
    - right. by split.
    - left. rewrite Hs. unfold ids. rewrite !map_app. simpl. by rewrite Hid. }
  split; [exact Hids|].
  intros Hnd. destruct Hids as [->|[Hnew ->]]; [done|]. by constructor.
Qed.

(** Saving one bill sends it to the remote exactly when a client is
    set, as one upsert of the row [{id, data, updated_at}] of the bill,
    whether or not the local write was taken. *)
Theorem saveBillToStorage_pushes (bill : BillData) (w : World) :
  exists w',
    saveBillToStorage bill w = (Ok tt, w') /\
    (supabase w = None -> requestsBetween w w' = []) /\
    (forall c, supabase w = Some c ->
       requestsBetween w w'
       = [Upsert (Payload.mk (id bill) bill (updatedAt bill))]).
Proof.
  destruct (saveBillToStorage_effect bill w) as (w' & Hrun & Heff).
  exists w'. split; [exact Hrun|].
  assert (Hreq : requestsBetween w w'
                 = match supabase w with
                   | Some _ => [Upsert (payloadOf bill)] | None => [] end).
  { destruct Heff as [(_ & _ & Hr)|(_ & _ & Hr)]; by apply Run_requestsBetween in Hr. }
  rewrite Hreq. split; [by intros ->|by intros c ->].
Qed.

(** Saving the same bill again changes nothing in the store. *)
Theorem saveBillToStorage_twice (bill : BillData) (w : World) :
  exists w1 w2,
    saveBillToStorage bill w = (Ok tt, w1) /\
    saveBillToStorage bill w1 = (Ok tt, w2) /\
    (alertsBetween w w1 = [] -> storedBillsOf w2 = storedBillsOf w1).
Proof.
  destruct (saveBillToStorage_effect bill w) as (w1 & Hrun1 & Heff1).
  destruct (saveBillToStorage_effect bill w1) as (w2 & Hrun2 & Heff2).
  exists w1, w2. split_and!; [done|done|].
  intros Hquiet. destruct Heff1 as [(_ & Hst1 & _)|(_ & _ & Hr)];
    [|apply Run_alertsBetween in Hr; by rewrite Hr in Hquiet].
  destruct Heff2 as [(_ & -> & _)|(_ & -> & _)]; [|done].
  assert (Hfind : List.find (hasId (id bill)) (storedBillsOf w1) = Some bill).
  { rewrite Hst1.
    destruct (upsert_shape bill (storedBillsOf w))
      as [[Hnew ->]|(before & old & after & Hs & Hid & Hnot & ->)].
    - apply (find_hasId_app_cons _ []); [apply not_elem_of_nil|done].
    - by apply find_hasId_app_cons. }
  destruct (upsert_shape bill (storedBillsOf w1))
    as [[Hnew _]|(before' & old & after' & Hs' & Hid' & Hnot' & ->)].
  - exfalso. apply find_first in Hfind as (before & after & Hs & _).
    apply Hnew. rewrite Hs. unfold ids. rewrite map_app. simpl.
    apply elem_of_app. right. by left.
  - assert (Hfirst : List.find (hasId (id bill)) (storedBillsOf w1) = Some old).
    { rewrite Hs'. by apply find_hasId_app_cons. }
    rewrite Hfirst in Hfind. injection Hfind as ->. by rewrite Hs'.
Qed.

Lemma filter_other_ids (i : string) (bills : list BillData) :
  i ∉ ids bills -> List.filter (fun b => negb (String.eqb (id b) i)) bills = bills.
Proof.
  unfold ids. induction bills as [|b bs IH]; simpl; [done|].
  intros [Hb Hbs]%not_elem_of_cons.
  destruct (String.eqb_spec (id b) i) as [Heq|_]; [congruence|].
  simpl. f_equal. by apply IH.
Qed.

Lemma filter_other_ids_absent (i : string) (bills : list BillData) :
  i ∉ ids (List.filter (fun b => negb (String.eqb (id b) i)) bills).
Proof.
  intros (b & -> & Hin)%list_elem_of_fmap.
  apply list_elem_of_In, filter_In in Hin as [_ Hne].
  by rewrite String.eqb_refl in Hne.
Qed.

Lemma deleteBillFromStorage_effect (i : string) (w : World) :
  let reqs := match supabase w with Some _ => [Delete i] | None => [] end in
  exists w',
    deleteBillFromStorage i w = (Ok tt, w') /\
    ((storedBillsOf w'
      = List.filter (fun b => negb (String.eqb (id b) i)) (storedBillsOf w) /\
      Run w w' reqs []) \/
     (storedBillsOf w' = storedBillsOf w /\ Run w w' reqs [storageAlertText])).
Proof.
  intros reqs.
  destruct (getStoredBills_quiet w) as (w1 & Hget & Hls1 & _ & _ & Hrun1).
  destruct (saveBillsToStorage_outcome
              (List.filter (fun b => negb (String.eqb (id b) i)) (storedBillsOf w)) w1)
    as (w2 & Hsave & _ & _ & Hout).
  assert (Hsup2 : supabase w2 = supabase w).
  { destruct Hrun1 as [E1 _].
    destruct Hout as [(_ & _ & [E2 _])|(_ & _ & [E2 _])]; congruence. }
  assert (exists w3, (match supabase w2 with
                       | Some _ => deleteRemoteItem i
                       | None => ret tt
                       end) w2 = (Ok tt, w3) /\
                     localStorage w3 = localStorage w2 /\
                     Run w2 w3 reqs [])
    as (w3 & Hdel & Hls3 & Hrun3).
  { subst reqs. rewrite <- Hsup2. destruct (supabase w2) as [c|] eqn:Hsup.
    - by apply (deleteRemoteItem_sends i w2 c).
    - exists w2. split_and!; [done|done|apply Run_refl]. }
  exists w3. split.
  - unfold deleteBillFromStorage. rewrite (bind_ok _ _ _ _ _ Hget).
    rewrite (bind_ok _ _ _ _ _ Hsave).
    by rewrite (bind_ok _ _ _ _ _ (eq_refl : gets supabase w2 = _)).
  - destruct Hout as [(_ & Hls2 & Hrun2)|(_ & Hls2 & Hrun2)]; [left|right]; split.
    + apply (storedBillsOf_after_write _ w1). congruence.
    + apply (Run_trans _ _ _ [] _ [] [] (Run_trans _ _ _ [] [] [] [] Hrun1 Hrun2) Hrun3).
    + apply storedBillsOf_ext. congruence.
    + apply (Run_trans _ _ _ [] _ [storageAlertText] []
               (Run_trans _ _ _ [] [] [] [storageAlertText] Hrun1 Hrun2) Hrun3).
Qed.

Lemma deleteBillFromStorage_key (i : string) (w : World) :
  exists w',
    deleteBillFromStorage i w = (Ok tt, w') /\
    (localStorage w' = localStorage w \/
     exists bills,
       localStorage w'
       = <[STORAGE_KEY := BillJSON.stringify bills]> (localStorage w)).
Proof.
  destruct (getStoredBills_quiet w) as (w1 & Hget & Hls1 & _ & _ & Hrun1).
  unfold deleteBillFromStorage. rewrite (bind_ok _ _ _ _ _ Hget).
  match goal with
  | |- context [saveBillsToStorage ?l] =>
      destruct (saveBillsToStorage_outcome l w1) as (w2 & Hsave & _ & _ & Hout);
      set (kept := l) in *
  end.
  rewrite (bind_ok _ _ _ _ _ Hsave).
  rewrite (bind_ok _ _ _ _ _ (eq_refl : gets supabase w2 = _)).
  assert (Hls2 : localStorage w2 = localStorage w \/
                 localStorage w2
                 = <[STORAGE_KEY := BillJSON.stringify kept]> (localStorage w)).
  { destruct Hout as [(_ & -> & _)|(_ & -> & _)]; [right|left]; congruence. }
  destruct (supabase w2) as [c|] eqn:Hsup.
  - destruct (deleteRemoteItem_sends i w2 c Hsup) as (w3 & Hdel & Hls3 & _).
    exists w3. split; [done|]. rewrite Hls3.
    destruct Hls2 as [-> | ->]; [by left|right; by exists kept].
  - exists w2. split; [done|].
    destruct Hls2 as [-> | ->]; [by left|right; by exists kept].
Qed.

(** Deleting by id from a store that holds a list of bills: the call
    returns and the store still holds a list of bills; unless the
    storage alert is shown, the store holds afterwards the bills of the
    other ids, in their order, and none of that id; an id that is not
    stored leaves the list as it is; and one delete request goes out
    exactly when a client is set, also for an id that the store does
    not hold. *)
Theorem deleteBillFromStorage_removes (i : string) (w : World) :
  storeTyped w ->
  exists w',
    deleteBillFromStorage i w = (Ok tt, w') /\
    storeTyped w' /\
    ((alertsBetween w w' = [storageAlertText] /\
      storedBillsOf w' = storedBillsOf w) \/
     (alertsBetween w w' = [] /\
      storedBillsOf w'
      = List.filter (fun b => negb (hasId i b)) (storedBillsOf w) /\
      (i ∉ ids (storedBillsOf w')))) /\
    ((i ∉ ids (storedBillsOf w)) -> storedBillsOf w' = storedBillsOf w) /\
    (supabase w = None -> requestsBetween w w' = []) /\
    (forall c, supabase w = Some c -> requestsBetween w w' = [Delete i]).
Proof.
  intros Htyped.
  destruct (deleteBillFromStorage_effect i w) as (w' & Hrun & Heff).
  exists w'. split; [exact Hrun|]. split.
  { destruct (deleteBillFromStorage_key i w) as (w'' & Hrun' & Hkey).
    rewrite Hrun in Hrun'. injection Hrun' as <-.
    by apply (storeTyped_after w). }
  assert (Hreq : requestsBetween w w'
                 = match supabase w with Some _ => [Delete i] | None => [] end).
  { destruct Heff as [[_ Hr]|[_ Hr]]; by apply Run_requestsBetween in Hr. }
  rewrite Hreq. split_and!.
  - destruct Heff as [[Hst Hr]|[Hst Hr]]; [right|left].
    + split_and!; [by apply Run_alertsBetween in Hr|exact Hst|].
      rewrite Hst. apply filter_other_ids_absent.
    + split; [by apply Run_alertsBetween in Hr|done].
  - intros Hnot. destruct Heff as [[-> _]|[-> _]]; [|done].
    by apply filter_other_ids.
  - by intros ->.
  - by intros c ->.
Qed.


(* ===================================================================== *)
(** * Further properties: clearing the store *)
(* ===================================================================== *)

Lemma clearAllBills_effect w :
  clearAllBills w
  = (Ok tt, set_localStorage (delete STORAGE_KEY (localStorage w)) w).
Proof. reflexivity. Qed.

Lemma storedBillsOf_absent w :
  localStorage w !! STORAGE_KEY = None -> storedBillsOf w = [].
Proof.
  intros Hnone.
  unfold storedBillsOf, getStoredBills, try_catch, bind, getItem, gets.
  by rewrite Hnone.
Qed.

(** Clearing all bills removes the bills of this device only: the store
    then reads as empty, every other key of [localStorage] (the
    connection configuration among them) is as before, the client stays
    set, and neither the remote table nor the log is touched. *)
Theorem clearAllBills_local_only (w : World) :
  exists w',
    clearAllBills w = (Ok tt, w') /\
    storedBillsOf w' = [] /\
    (forall k, k <> STORAGE_KEY -> localStorage w' !! k = localStorage w !! k) /\
    fst (getSupabaseConfig w') = fst (getSupabaseConfig w) /\
    supabase w' = supabase w /\
    bills_table w' = bills_table w /\
    events w' = events w.
Proof.
  eexists. split; [apply clearAllBills_effect|]. split_and!; try done.
  - apply storedBillsOf_absent. simpl. apply lookup_delete_eq.
  - intros k Hk. simpl. by apply lookup_delete_ne.
  - unfold getSupabaseConfig, bind, getItem, gets. simpl.
    rewrite lookup_delete_ne by discriminate.
    destruct (localStorage w !! SUPABASE_CONFIG_KEY) as [t|]; [|done].
    destruct (text_truthy t); [|done]. by destruct (config_parse t).
Qed.

Lemma lww_fold_elem (bills : list BillData) (o : option BillData) (b : BillData) :
  fold_left lww bills o = Some b -> b ∈ bills \/ o = Some b.
Proof.
  revert o. induction bills as [|r rs IH]; intros o; simpl; [by right|].
  intros [Hin|Ho]%IH; [left; by right|].
  destruct o as [l|]; simpl in Ho.
  - destruct (updatedAt r >? updatedAt l); injection Ho as <-; [left; by left|by right].
  - injection Ho as <-. left. by left.
Qed.

Lemma elem_of_filter_hasId (i : string) (bills : list BillData) (b : BillData) :
  b ∈ List.filter (hasId i) bills <-> b ∈ bills /\ id b = i.
Proof.
  rewrite list_elem_of_In, filter_In, <- list_elem_of_In.
  unfold hasId. by rewrite String.eqb_eq.
Qed.

(** With nothing stored, the merge is made of remote bills. *)
Lemma mergeBills_remote_only (remoteBills : list BillData) (b : BillData) :
  b ∈ mergeBills [] remoteBills -> b ∈ remoteBills.
Proof.
  intros Hin%elem_of_mergeBills. simpl in Hin.
  apply lww_fold_elem in Hin as [Hin|?]; [|done].
  by apply elem_of_filter_hasId in Hin as [? _].
Qed.

Lemma NoDup_ids_NoDup (bills : list BillData) : NoDup (ids bills) -> NoDup bills.
Proof. apply NoDup_fmap_1. Qed.

Lemma mergeBills_remote_all (remoteBills : list BillData) :
  NoDup (ids remoteBills) -> Permutation (mergeBills [] remoteBills) remoteBills.
Proof.
  intros Hnd. apply NoDup_Permutation.
  - apply NoDup_ids_NoDup, mergeBills_NoDup.
  - by apply NoDup_ids_NoDup.
  - intros b. split; [apply mergeBills_remote_only|].
    intros Hin. apply elem_of_mergeBills.
    by rewrite (filter_hasId_NoDup _ _ Hnd Hin).
Qed.

Lemma needsPush_own_copy (remoteBills : list BillData) (b : BillData) :
  NoDup (ids remoteBills) -> b ∈ remoteBills -> needsPush remoteBills b = false.
Proof.
  intros Hnd Hin. unfold needsPush. rewrite find_filter.
  fold (hasId (id b)). rewrite (filter_hasId_NoDup _ _ Hnd Hin). simpl. lia.
Qed.

Lemma filter_none {A : Type} (p : A -> bool) (l : list A) :
  (forall x, x ∈ l -> p x = false) -> List.filter p l = [].
Proof.
  induction l as [|x xs IH]; simpl; [done|]. intros Hall.
  rewrite (Hall x) by (by left). apply IH. intros y Hy. apply Hall. by right.
Qed.

Lemma handleSync_connected st w c :
  supabase w = Some c ->
  handleSync st w
  = match fullSync w with
    | (Ok synced, w') => (Ok (setIsSyncing false (setAllBills synced st)), w')
    | (Throw e, w') => (Throw e, w')
    end.
Proof.
  intros Hsup. unfold handleSync, isSupabaseConnected.
  rewrite (bind_ok _ _ _ _ _ (eq_refl : gets _ w = _)). rewrite Hsup. simpl.
  unfold bind. by destruct (fullSync w) as [[synced|e] w'].
Qed.

(** Clearing all data and then synchronising with the remote brings the
    remote bills back: after both confirmations the list and the store
    are empty, and a delivered sync then shows bills of the remote only,
    one for every remote id; when the remote ids are distinct these are
    all the remote bills, and none of them is pushed. *)
Theorem handleClearAllData_then_sync (st : AppState) (w : World)
        (c : SupabaseClient) :
  supabase w = Some c ->
  nextDelivered w ->
  exists st1 w1 st2 w2,
    handleClearAllData true true st w = (Ok st1, w1) /\
    allBills st1 = [] /\ storedBillsOf w1 = [] /\
    handleSync st1 w1 = (Ok st2, w2) /\
    (forall b, b ∈ allBills st2 -> b ∈ remoteBillsOf w) /\
    (forall i, i ∈ ids (allBills st2) <-> i ∈ ids (remoteBillsOf w)) /\
    (NoDup (ids (remoteBillsOf w)) ->
     Permutation (allBills st2) (remoteBillsOf w) /\
     pushedBetween w1 w2 = []).
Proof.
  intros Hsup Hnet.
  set (w1 := set_localStorage (delete STORAGE_KEY (localStorage w)) w).
  assert (Hst1 : storedBillsOf w1 = []).
  { apply storedBillsOf_absent. simpl. apply lookup_delete_eq. }
  destruct (fullSync_delivered c w1 Hsup Hnet) as (w2 & Hrun & Hstep & _).
  rewrite Hst1 in Hrun, Hstep.
  change (remoteBillsOf w1) with (remoteBillsOf w) in Hrun, Hstep.
  eexists _, w1, _, w2. split_and!.
  - unfold handleClearAllData. by rewrite (bind_ok _ _ _ _ _ (clearAllBills_effect w)).
  - done.
  - done.
  - rewrite (handleSync_connected _ w1 c Hsup). by rewrite Hrun.
  - simpl. apply mergeBills_remote_only.
  - simpl. intros i. rewrite mergeBills_ids. unfold ids at 2. simpl.
    split; [intros [[]%elem_of_nil|?]; done|by right].
  - simpl. intros Hnd. split; [by apply mergeBills_remote_all|].
    rewrite (Step_pushedBetween _ _ _ Hstep). apply filter_none.
    intros b Hb. apply needsPush_own_copy; [done|].
    by apply mergeBills_remote_only.
Qed.

(* ===================================================================== *)
(** * Further properties: unreadable storage *)
(* ===================================================================== *)

(** A stored text that [JSON.parse] refuses: [getStoredBills] logs the
    error and answers with the empty list, leaving the text in place;
    the next [saveBillToStorage] then writes the saved bill alone over
    it, when the write is taken. *)
Theorem getStoredBills_unreadable (chars : string) (bill : BillData) (w : World) :
  localStorage w !! STORAGE_KEY = Some (PlainText chars) ->
  chars <> "" ->
  getStoredBills w
  = (Ok [], set_events (events w ++ [ConsoleError "Failed to load bills:" SyntaxError]) w)
  /\
  exists w',
    saveBillToStorage bill w = (Ok tt, w') /\
    (writeTaken [bill] w -> storedBillsOf w' = [bill]).
Proof.
  intros Hget Hne.
  assert (Hread : getStoredBills w
                  = (Ok [], set_events
                              (events w ++ [ConsoleError "Failed to load bills:" SyntaxError]) w)).
  { unfold getStoredBills, try_catch, bind, getItem, gets, JSON_parse.
    rewrite Hget. simpl. by destruct chars. }
  split; [exact Hread|].
  assert (Hst : storedBillsOf w = []) by (unfold storedBillsOf; by rewrite Hread).
  destruct (saveBillToStorage_effect bill w) as (w' & Hrun & Heff).
  rewrite Hst in Heff. simpl in Heff.
  exists w'. split; [exact Hrun|].
  intros Htaken%writeTaken_fits.
  by destruct Heff as [(_ & -> & _)|(Hfull & _)].
Qed.

(* ===================================================================== *)
(** * Further properties: the connection to the remote *)
(* ===================================================================== *)

Lemma config_parse_stringify (u k : string) :
  config_parse (config_stringify u k) = Some (Some (SupabaseConfig.mk u k)).
Proof. reflexivity. Qed.

Lemma getSupabaseConfig_after_write (u k : string) (w : World) :
  localStorage w !! SUPABASE_CONFIG_KEY = Some (config_stringify u k) ->
  getSupabaseConfig w = (Ok (Some (SupabaseConfig.mk u k)), w).
Proof.
  intros Hget. unfold getSupabaseConfig, bind, getItem, gets. by rewrite Hget.
Qed.

Lemma storedBillsOf_other_key (k : string) (v : StoredText) (w w' : World) :
  k <> STORAGE_KEY ->
  localStorage w' = <[k := v]> (localStorage w) ->
  storedBillsOf w' = storedBillsOf w.
Proof.
  intros Hk Hls.
  unfold storedBillsOf, getStoredBills, try_catch, bind, getItem, gets, JSON_parse.
  rewrite Hls, lookup_insert_ne by done.
  destruct (localStorage w !! STORAGE_KEY) as [t|]; simpl; [|done].
  destruct (text_truthy t); simpl; [|done]. by destruct (BillJSON.parse t).
Qed.

Section Connection.

Variable createClient : string -> string -> Result SupabaseClient.

(** A client that the library accepts and a configuration that the
    store takes: [initSupabase] answers [true], the client is set, the
    configuration read back is the pair given, and the stored bills are
    as before. *)
Theorem initSupabase_connects (u k : string) (client : SupabaseClient) (w : World) :
  createClient u k = Ok client ->
  fst (setItem SUPABASE_CONFIG_KEY (config_stringify u k) w) = Ok tt ->
  exists w',
    initSupabase createClient u k w = (Ok true, w') /\
    supabase w' = Some client /\
    getSupabaseConfig w' = (Ok (Some (SupabaseConfig.mk u k)), w') /\
    storedBillsOf w' = storedBillsOf w /\
    events w' = events w.
Proof.
  intros Hclient Hset.
  unfold initSupabase, try_catch, bind, modify, ret. rewrite Hclient.
  unfold setItem in *. simpl in *.
  destruct (storage_used _ <=? quota w)%nat; [|done].
  eexists. split; [reflexivity|]. split_and!; try done.
  - apply getSupabaseConfig_after_write. simpl. apply lookup_insert_eq.
  - by apply (storedBillsOf_other_key SUPABASE_CONFIG_KEY (config_stringify u k)).
Qed.

(** A client that the library refuses: [initSupabase] answers [false]
    and logs the error; the client that was set before, if any, stays
    set, and the stored configuration is not touched. *)
Theorem initSupabase_refused (u k : string) (e : Error) (w : World) :
  createClient u k = Throw e ->
  initSupabase createClient u k w
  = (Ok false, set_events (events w ++ [ConsoleError "Supabase Init Error" e]) w).
Proof.
  intros Hclient. unfold initSupabase, try_catch, bind. by rewrite Hclient.
Qed.

(** A configuration that the store does not take: [initSupabase] answers
    [false] although the new client is set, so the service counts as
    connected; the configuration in the store is the one from before. *)
Theorem initSupabase_storage_full (u k : string) (client : SupabaseClient)
        (e : Error) (w : World) :
  createClient u k = Ok client ->
  fst (setItem SUPABASE_CONFIG_KEY (config_stringify u k) w) = Throw e ->
  exists w',
    initSupabase createClient u k w = (Ok false, w') /\
    supabase w' = Some client /\
    isSupabaseConnected w' = (Ok true, w') /\
    localStorage w' = localStorage w /\
    eventsSince w w' = [ConsoleError "Supabase Init Error" QuotaExceededError].
Proof.
  intros Hclient Hset.
  unfold initSupabase, try_catch, bind, modify, ret. rewrite Hclient.
  unfold setItem in *. simpl in *.
  destruct (storage_used _ <=? quota w)%nat; [done|].
  eexists. split; [reflexivity|]. split_and!; try done.
  unfold eventsSince. simpl. by rewrite drop_app_length.
Qed.

End Connection.

(** Disconnecting drops the client and the stored configuration and
    nothing else: the stored bills and the remote table are as before;
    from then on [fullSync] answers with the stored bills and sends no
    request. *)
Theorem disconnectSupabase_forgets (w : World) :
  exists w' w'',
    disconnectSupabase w = (Ok tt, w') /\
    supabase w' = None /\
    getSupabaseConfig w' = (Ok None, w') /\
    storedBillsOf w' = storedBillsOf w /\
    bills_table w' = bills_table w /\
    fullSync w' = (Ok (storedBillsOf w), w'') /\
    requestsBetween w' w'' = [].
Proof.
  set (w' := set_localStorage (delete SUPABASE_CONFIG_KEY (localStorage w))
               (set_supabase None w)).
  assert (Hst : storedBillsOf w' = storedBillsOf w).
  { unfold storedBillsOf, getStoredBills, try_catch, bind, getItem, gets, JSON_parse.
    simpl. rewrite lookup_delete_ne by discriminate.
    destruct (localStorage w !! STORAGE_KEY) as [t|]; simpl; [|done].
    destruct (text_truthy t); simpl; [|done]. by destruct (BillJSON.parse t). }
  destruct (getStoredBills_quiet w') as (w'' & Hget & _ & _ & _ & Hrun).
  exists w', w''. split_and!; try done.
  - unfold getSupabaseConfig, bind, getItem, gets. simpl.
    by rewrite lookup_delete_eq.
  - rewrite (fullSync_disconnected w') by done. by rewrite Hget, Hst.
  - by apply Run_requestsBetween in Hrun.
Qed.

(** A stored configuration that [JSON.parse] refuses makes
    [getSupabaseConfig] throw, where [getStoredBills] would catch; an
    absent or empty one reads as no configuration. *)
Theorem getSupabaseConfig_unreadable (w : World) :
  (forall chars, localStorage w !! SUPABASE_CONFIG_KEY = Some (PlainText chars) ->
     chars <> "" -> getSupabaseConfig w = (Throw SyntaxError, w)) /\
  (localStorage w !! SUPABASE_CONFIG_KEY = None ->
   getSupabaseConfig w = (Ok None, w)) /\
  (localStorage w !! SUPABASE_CONFIG_KEY = Some (PlainText "") ->
   getSupabaseConfig w = (Ok None, w)).
Proof.
  unfold getSupabaseConfig, bind, getItem, gets. split_and!.
  - intros chars -> Hne. simpl. by destruct chars.
  - by intros ->.
  - by intros ->.
Qed.

(* ===================================================================== *)
(** * Further properties: what a synchronisation sends and shows *)
(* ===================================================================== *)

Lemma pushLoop_requests remoteBills bills w c :
  supabase w = Some c ->
  exists w',
    forEach bills (fun bill => if needsPush remoteBills bill
                               then syncUpItem bill else ret tt) w
    = (Ok tt, w') /\
    localStorage w' = localStorage w /\
    Run w w' (map (fun b => Upsert (payloadOf b))
                  (List.filter (needsPush remoteBills) bills)) [].
Proof.
  revert w. induction bills as [|b bs IH]; intros w Hsup; simpl.
  - exists w. split_and!; eauto using Run_refl.
  - destruct (needsPush remoteBills b).
    + destruct (syncUpItem_sends b w c Hsup) as (w1 & Hrun & Hls & Hstep).
      destruct (IH w1) as (w2 & Hrun2 & Hls2 & Hstep2).
      { destruct Hstep as [-> _]. done. }
      exists w2. rewrite (bind_ok _ _ _ _ _ Hrun). split_and!; [done|congruence|].
      apply (Run_trans _ _ _ [_] _ [] [] Hstep Hstep2).
    + destruct (IH w Hsup) as (w2 & Hrun2 & Hls2 & Hstep2).
      exists w2. split_and!; done.
Qed.

Lemma select_all_request c w :
  nextDelivered w ->
  exists w', Supabase.select_all c w
             = (Ok (Response.mk (Some (bills_table w)) None), w') /\
             localStorage w' = localStorage w /\
             bills_table w' = bills_table w /\
             network w' = tail (network w) /\
             Run w w' [Select] [].
Proof.
  unfold nextDelivered, Supabase.select_all, Supabase.respond, bind, emit, modify,
    Supabase.next_outcome, gets. simpl.
  destruct (network w) as [|o rest] eqn:Hn; simpl.
  - intros _. eexists.
    do 3 (split; [reflexivity|]). split; [by simpl; rewrite Hn|].
    apply (Run_emit w (Sent Select)).
  - intros ->. simpl. eexists.
    do 4 (split; [reflexivity|]).
    repeat split. by exists [Sent Select].
Qed.

(** The whole trace of a [fullSync] whose fetch is delivered. *)
Lemma fullSync_trace c w :
  supabase w = Some c ->
  nextDelivered w ->
  let remoteBills := remoteBillsOf w in
  let merged := mergeBills (storedBillsOf w) remoteBills in
  exists w',
    fullSync w = (Ok merged, w') /\
    ((writeFits merged w /\
      localStorage w' = <[STORAGE_KEY := BillJSON.stringify merged]> (localStorage w) /\
      Run w w' (Select :: map (fun b => Upsert (payloadOf b))
                              (List.filter (needsPush remoteBills) merged)) []) \/
     (~ writeFits merged w /\
      localStorage w' = localStorage w /\
      Run w w' (Select :: map (fun b => Upsert (payloadOf b))
                              (List.filter (needsPush remoteBills) merged))
          [storageAlertText])).
Proof.
  intros Hsup Hnet remoteBills merged.
  destruct (select_all_request c w Hnet) as (w1 & Hsel & Hls1 & Htab1 & _ & Hst1).
  destruct (getStoredBills_quiet w1) as (w2 & Hget & Hls2 & Htab2 & Hnet2 & Hst2).
  rewrite (storedBillsOf_ext w1 w) in Hget by done.
  destruct (saveBillsToStorage_outcome merged w2) as (w3 & Hsave & _ & _ & Hout).
  assert (Hfits : writeFits merged w2 <-> writeFits merged w).
  { apply writeFits_ext; [congruence|].
    destruct Hst1 as (_ & Q1 & _), Hst2 as (_ & Q2 & _). congruence. }
  assert (Hsup3 : supabase w3 = Some c).
  { destruct Hst1 as [E1 _], Hst2 as [E2 _].
    destruct Hout as [(_ & _ & [E3 _])|(_ & _ & [E3 _])]; congruence. }
  destruct (pushLoop_requests remoteBills merged w3 c Hsup3) as (w4 & Hpush & Hls4 & Hst4).
  exists w4. split.
  - unfold fullSync. rewrite (bind_ok _ _ _ _ _ (eq_refl : gets supabase w = _)).
    rewrite Hsup. apply try_catch_ok.
    rewrite (bind_ok _ _ _ _ _ Hsel). simpl.
    unfold bind at 1, ret at 1. unfold bind at 1, ret at 1.
    rewrite (bind_ok _ _ _ _ _ Hget).
    fold remoteBills. fold merged.
    rewrite (bind_ok _ _ _ _ _ Hsave).
    by rewrite (bind_ok _ _ _ _ _ Hpush).
  - destruct Hout as [(Hf & Hls3 & Hst3)|(Hf & Hls3 & Hst3)]; [left|right]; split_and!.
    + by apply Hfits.
    + congruence.
    + apply (Run_trans _ _ _ [Select] _ [] []
               (Run_trans _ _ _ [Select] [] [] []
                  (Run_trans _ _ _ [Select] [] [] [] Hst1 Hst2) Hst3) Hst4).
    + by rewrite <- Hfits.
    + congruence.
    + apply (Run_trans _ _ _ [Select] _ [storageAlertText] []
               (Run_trans _ _ _ [Select] [] [] [storageAlertText]
                  (Run_trans _ _ _ [Select] [] [] [] Hst1 Hst2) Hst3) Hst4).
Qed.

(** A delivered [fullSync] sends one select and then one upsert per
    bill to push, in the order of the merged list, each with the row of
    its bill; and when the store does not take the merged list, the
    merged list is returned all the same, the storage alert is shown
    once, the store keeps its content, and the same requests go out. *)
Theorem fullSync_requests_and_full_store (w : World) (c : SupabaseClient) :
  supabase w = Some c ->
  nextDelivered w ->
  exists merged w',
    fullSync w = (Ok merged, w') /\
    requestsBetween w w'
    = Select :: map (fun b => Upsert (Payload.mk (id b) b (updatedAt b)))
                    (List.filter (needsPush (remoteBillsOf w)) merged) /\
    (writeTaken merged w -> alertsBetween w w' = []) /\
    (~ writeTaken merged w ->
     alertsBetween w w' = [storageAlertText] /\
     localStorage w' = localStorage w /\
     storedBillsOf w' = storedBillsOf w).
Proof.
  intros Hsup Hnet.
  destruct (fullSync_trace c w Hsup Hnet) as (w' & Hrun & Hout).
  eexists _, w'. split; [exact Hrun|].
  destruct Hout as [(Hf & Hls & Hr)|(Hf & Hls & Hr)]; split_and!.
  - by apply Run_requestsBetween in Hr.
  - intros _. by apply Run_alertsBetween in Hr.
  - intros Hnot. exfalso. apply Hnot. by apply writeTaken_fits.
  - by apply Run_requestsBetween in Hr.
  - intros Ht%writeTaken_fits. done.
  - intros _. split_and!; [by apply Run_alertsBetween in Hr|done|].
    by apply storedBillsOf_ext.
Qed.

(* ===================================================================== *)
(** * Further properties: the remote table after a synchronisation *)
(* ===================================================================== *)

Lemma upsert_row_elem (p x : Payload.t) (t : list Payload.t) :
  NoDup (map Payload.id t) ->
  x ∈ Supabase.upsert_row p t <-> x = p \/ (x ∈ t /\ Payload.id x <> Payload.id p).
Proof.
  induction t as [|r rest IH]; simpl.
  - intros _. rewrite list_elem_of_singleton. split; [by left|].
    intros [?|[[]%elem_of_nil _]]; done.
  - intros [Hr Hnd]%NoDup_cons.
    destruct (String.eqb_spec (Payload.id r) (Payload.id p)) as [Heq|Hne].
    + rewrite !elem_of_cons. split.
      * intros [->|Hin]; [by left|]. right. split; [by right|].
        intros Hx. apply Hr. rewrite Heq, <- Hx. by apply list_elem_of_fmap_2.
      * intros [->|[[->|Hin] Hx]]; [by left|congruence|by right].
    + rewrite !elem_of_cons, (IH Hnd). split.
      * intros [->|[->|[Hin Hx]]]; [right; split; [by left|done]|by left|].
        right. split; [by right|done].
      * intros [->|[[->|Hin] Hx]]; [right; by left|by left|].
        right. right. by split.
Qed.

Lemma upsert_row_ids (p : Payload.t) (t : list Payload.t) (i : string) :
  i ∈ map Payload.id (Supabase.upsert_row p t)
  <-> i = Payload.id p \/ i ∈ map Payload.id t.
Proof.
  induction t as [|r rest IH]; simpl.
  - rewrite list_elem_of_singleton. split; [by left|]. intros [?|[]%elem_of_nil]; done.
  - destruct (String.eqb_spec (Payload.id r) (Payload.id p)) as [Heq|Hne]; simpl.
    + rewrite !elem_of_cons, Heq. tauto.
    + rewrite !elem_of_cons, IH. tauto.
Qed.

Lemma upsert_row_NoDup (p : Payload.t) (t : list Payload.t) :
  NoDup (map Payload.id t) -> NoDup (map Payload.id (Supabase.upsert_row p t)).
Proof.
  induction t as [|r rest IH]; simpl.
  - intros _. apply NoDup_singleton.
  - intros [Hr Hnd]%NoDup_cons.
    destruct (String.eqb_spec (Payload.id r) (Payload.id p)) as [Heq|Hne]; simpl.
    + constructor; [by rewrite <- Heq|done].
    + constructor; [|by apply IH].
      rewrite upsert_row_ids. intros [?|?]; done.
Qed.

Lemma upsert_row_keyed (b : BillData) (t : list Payload.t) :
  tableKeyed t -> tableKeyed (Supabase.upsert_row (payloadOf b) t).
Proof.
  intros [Hnd Hall]. split; [by apply upsert_row_NoDup|].
  rewrite Forall_forall. intros x [->|[Hin _]]%upsert_row_elem; [done| |done].
  rewrite Forall_forall in Hall. by apply Hall.
Qed.

Lemma pushAll_keyed (bills : list BillData) (t : list Payload.t) :
  tableKeyed t -> tableKeyed (pushAll bills t).
Proof.
  revert t. induction bills as [|b bs IH]; intros t Ht; simpl; [done|].
  apply IH. by apply upsert_row_keyed.
Qed.

Lemma pushAll_elem (bills : list BillData) (t : list Payload.t) (x : Payload.t) :
  tableKeyed t -> NoDup (ids bills) ->
  x ∈ pushAll bills t
  <-> (exists b, b ∈ bills /\ x = payloadOf b) \/
      (x ∈ t /\ Payload.id x ∉ ids bills).
Proof.
  revert t. unfold ids. induction bills as [|b bs IH]; intros t Ht; simpl.
  - intros _. split.
    + intros Hin. right. split; [done|apply not_elem_of_nil].
    + intros [(b & []%elem_of_nil & _)|[? _]]; done.
  - intros [Hb Hnd]%NoDup_cons.
    rewrite (IH _ (upsert_row_keyed b t Ht) Hnd).
    rewrite upsert_row_elem by apply Ht. split.
    + intros [(b' & Hin & ->)|[[->|[Hin Hne]] Hnot]].
      * left. exists b'. split; [by right|done].
      * left. exists b. split; [by left|done].
      * right. split; [done|]. rewrite not_elem_of_cons. by split.
    + intros [(b' & [->|Hin]%elem_of_cons & ->)|[Hin [Hne Hnot]%not_elem_of_cons]].
      * right. split; [by left|done].
      * left. by exists b'.
      * right. split; [|done]. right. by split.
Qed.

Lemma syncUpItem_delivered b w c :
  supabase w = Some c ->
  allDelivered w ->
  exists w', syncUpItem b w = (Ok tt, w') /\
             bills_table w' = Supabase.upsert_row (payloadOf b) (bills_table w) /\
             localStorage w' = localStorage w /\
             quota w' = quota w /\
             supabase w' = Some c /\
             allDelivered w' /\
             requestsBetween w w' = [Upsert (payloadOf b)] /\
             alertsBetween w w' = [].
Proof.
  intros Hsup Hall.
  unfold syncUpItem, bind, gets, try_catch, Supabase.upsert, Supabase.respond,
    bind, emit, modify, Supabase.next_outcome, console_error, emit, modify.
  rewrite Hsup. simpl. unfold allDelivered in *.
  unfold requestsBetween, alertsBetween, eventsSince.
  destruct (network w) as [|o rest] eqn:Hn; simpl.
  - eexists. split; [reflexivity|]. simpl. rewrite Hn.
    split_and!; try done; by rewrite drop_app_length.
  - apply Forall_cons_1 in Hall as [-> Hrest]. simpl.
    eexists. split; [reflexivity|]. simpl.
    split_and!; try done; by rewrite drop_app_length.
Qed.

Lemma pushLoop_delivered remoteBills bills w c :
  supabase w = Some c ->
  allDelivered w ->
  exists w',
    forEach bills (fun bill => if needsPush remoteBills bill
                               then syncUpItem bill else ret tt) w
    = (Ok tt, w') /\
    bills_table w' = pushAll (List.filter (needsPush remoteBills) bills) (bills_table w) /\
    localStorage w' = localStorage w /\
    quota w' = quota w /\
    supabase w' = Some c /\
    allDelivered w' /\
    requestsBetween w w'
    = map (fun b => Upsert (payloadOf b)) (List.filter (needsPush remoteBills) bills).
Proof.
  revert w. induction bills as [|b bs IH]; intros w Hsup Hall; simpl.
  - exists w. split_and!; try done.
    unfold requestsBetween, eventsSince. by rewrite drop_all.
  - destruct (needsPush remoteBills b).
    + destruct (syncUpItem_delivered b w c Hsup Hall)
        as (w1 & Hrun & Htab & Hls & Hq & Hsup1 & Hall1 & Hreq & _).
      destruct (IH w1 Hsup1 Hall1) as (w2 & Hrun2 & Htab2 & Hls2 & Hq2 & Hsup2 & Hall2 & Hreq2).
      exists w2. rewrite (bind_ok _ _ _ _ _ Hrun).
      split_and!; try done; try congruence.
      * simpl. by rewrite Htab2, Htab.
      * simpl. rewrite <- Hreq2.
        pose proof (syncUpItem_sends b w c Hsup) as (w1' & Hrun' & _ & Hst1).
        rewrite Hrun in Hrun'. injection Hrun' as <-.
        pose proof (pushLoop_requests remoteBills bs w1 c Hsup1) as (w2' & Hrun2' & _ & Hst2).
        rewrite Hrun2 in Hrun2'. injection Hrun2' as <-.
        rewrite (Run_requestsBetween _ _ _ _ (Run_trans _ _ _ _ _ _ _ Hst1 Hst2)).
        by rewrite (Run_requestsBetween _ _ _ _ Hst2).
    + apply (IH w Hsup Hall).
Qed.

Lemma allDelivered_nextDelivered w : allDelivered w -> nextDelivered w.
Proof.
  unfold allDelivered, nextDelivered. destruct (network w); [done|].
  by intros [-> _]%Forall_cons_1.
Qed.

(** A [fullSync] over a network that delivers: the returned list, the
    table and the store afterwards. *)
Lemma fullSync_all_delivered c w :
  supabase w = Some c ->
  allDelivered w ->
  let remoteBills := remoteBillsOf w in
  let merged := mergeBills (storedBillsOf w) remoteBills in
  exists w',
    fullSync w = (Ok merged, w') /\
    bills_table w'
    = pushAll (List.filter (needsPush remoteBills) merged) (bills_table w) /\
    supabase w' = Some c /\
    quota w' = quota w /\
    allDelivered w' /\
    ((writeFits merged w /\
      localStorage w' = <[STORAGE_KEY := BillJSON.stringify merged]> (localStorage w)) \/
     (~ writeFits merged w /\ localStorage w' = localStorage w)).
Proof.
  intros Hsup Hall remoteBills merged.
  destruct (select_all_request c w (allDelivered_nextDelivered w Hall))
    as (w1 & Hsel & Hls1 & Htab1 & Hnet1 & Hst1).
  destruct (getStoredBills_quiet w1) as (w2 & Hget & Hls2 & Htab2 & Hnet2 & Hst2).
  rewrite (storedBillsOf_ext w1 w) in Hget by done.
  destruct (saveBillsToStorage_outcome merged w2) as (w3 & Hsave & Htab3 & Hnet3 & Hout).
  assert (Hq2 : quota w2 = quota w).
  { destruct Hst1 as (_ & Q1 & _), Hst2 as (_ & Q2 & _). congruence. }
  assert (Hfits : writeFits merged w2 <-> writeFits merged w).
  { apply writeFits_ext; congruence. }
  assert (Hsup3 : supabase w3 = Some c).
  { destruct Hst1 as [E1 _], Hst2 as [E2 _].
    destruct Hout as [(_ & _ & [E3 _])|(_ & _ & [E3 _])]; congruence. }
  assert (Hq3 : quota w3 = quota w).
  { destruct Hout as [(_ & _ & (_ & Q3 & _))|(_ & _ & (_ & Q3 & _))]; congruence. }
  assert (Hall3 : allDelivered w3).
  { unfold allDelivered in *. rewrite Hnet3, Hnet2, Hnet1.
    destruct (network w); [done|]. simpl. by apply Forall_cons_1 in Hall as [_ ?]. }
  destruct (pushLoop_delivered remoteBills merged w3 c Hsup3 Hall3)
    as (w4 & Hpush & Htab4 & Hls4 & Hq4 & Hsup4 & Hall4 & _).
  exists w4. split_and!; try done.
  - unfold fullSync. rewrite (bind_ok _ _ _ _ _ (eq_refl : gets supabase w = _)).
    rewrite Hsup. apply try_catch_ok.
    rewrite (bind_ok _ _ _ _ _ Hsel). simpl.
    unfold bind at 1, ret at 1. unfold bind at 1, ret at 1.
    rewrite (bind_ok _ _ _ _ _ Hget).
    fold remoteBills. fold merged.
    rewrite (bind_ok _ _ _ _ _ Hsave).
    by rewrite (bind_ok _ _ _ _ _ Hpush).
  - rewrite Htab4. f_equal. congruence.
  - congruence.
  - destruct Hout as [(Hf & Hls3 & _)|(Hf & Hls3 & _)]; [left|right]; split.
    + by apply Hfits.
    + congruence.
    + by rewrite <- Hfits.
    + congruence.
Qed.

(** ** The merged list against the remote *)

Lemma lww_fold_max (bills : list BillData) (o : option BillData) (m : BillData) :
  fold_left lww bills o = Some m ->
  Forall (fun r => updatedAt r <= updatedAt m) bills /\
  (forall l, o = Some l -> updatedAt l <= updatedAt m).
Proof.
  revert o. induction bills as [|r rs IH]; intros o; simpl.
  - intros ->. split; [done|]. intros l [= ->]. lia.
  - intros Hfold. destruct (IH _ Hfold) as [Hrs Ho]. split.
    + constructor; [|done]. destruct o as [l|]; simpl in Ho.
      * destruct (Z.gtb_spec (updatedAt r) (updatedAt l)).
        -- by apply Ho.
        -- specialize (Ho l eq_refl). lia.
      * by apply Ho.
    + intros l ->. simpl in Ho.
      destruct (Z.gtb_spec (updatedAt r) (updatedAt l)).
      * specialize (Ho r eq_refl). lia.
      * by apply Ho.
Qed.

(** A merged bill is at least as new as every remote bill of its id. *)
Lemma mergeBills_newest (l rs : list BillData) (m r : BillData) :
  m ∈ mergeBills l rs -> r ∈ rs -> id r = id m -> updatedAt r <= updatedAt m.
Proof.
  intros Hm%elem_of_mergeBills Hr Hid.
  apply lww_fold_max in Hm as [Hall _].
  rewrite Forall_forall in Hall. apply Hall.
  apply list_elem_of_In, filter_In. split; [by apply list_elem_of_In|].
  unfold hasId. by apply String.eqb_eq.
Qed.

Lemma needsPush_false (remoteBills : list BillData) (b : BillData) :
  needsPush remoteBills b = false
  <-> exists r, List.find (fun r => String.eqb (id r) (id b)) remoteBills = Some r /\
                updatedAt b <= updatedAt r.
Proof.
  unfold needsPush. destruct (List.find _ remoteBills) as [r|].
  - split.
    + intros H. exists r. split; [done|]. lia.
    + intros (r' & [= <-] & H). lia.
  - split; [done|]. by intros (r & ? & _).
Qed.

Lemma NoDup_ids_filter (p : BillData -> bool) (bills : list BillData) :
  NoDup (ids bills) -> NoDup (ids (List.filter p bills)).
Proof.
  unfold ids. induction bills as [|b bs IH]; simpl; [done|].
  intros [Hb Hnd]%NoDup_cons. destruct (p b); simpl; [|by apply IH].
  constructor; [|by apply IH].
  intros (x & Hid & Hin)%list_elem_of_fmap. apply Hb. rewrite Hid.
  apply list_elem_of_fmap_2.
  apply list_elem_of_In, filter_In in Hin as [Hin _]. by apply list_elem_of_In.
Qed.

Lemma NoDup_ids_eq (bills : list BillData) (a b : BillData) :
  NoDup (ids bills) -> a ∈ bills -> b ∈ bills -> id a = id b -> a = b.
Proof.
  intros Hnd Ha Hb Hid.
  pose proof (filter_hasId_NoDup bills a Hnd Ha) as Fa.
  pose proof (filter_hasId_NoDup bills b Hnd Hb) as Fb.
  rewrite Hid, Fb in Fa. by injection Fa as ->.
Qed.

Lemma tableKeyed_row_eq (t : list Payload.t) (x y : Payload.t) :
  tableKeyed t -> x ∈ t -> y ∈ t -> Payload.id x = Payload.id y -> x = y.
Proof.
  intros [Hnd _]. induction t as [|r rest IH]; simpl in *.
  - by intros ?%elem_of_nil.
  - apply NoDup_cons in Hnd as [Hr Hnd].
    intros [->|Hx]%elem_of_cons [->|Hy]%elem_of_cons Hid; [done| | |by apply IH].
    + exfalso. apply Hr. rewrite Hid. by apply list_elem_of_fmap_2.
    + exfalso. apply Hr. rewrite <- Hid. by apply list_elem_of_fmap_2.
Qed.

(** The rows of the table after the push loop of a synchronisation,
    against the merged list. *)
Lemma synced_table (localBills : list BillData) (t : list Payload.t) :
  tableKeyed t ->
  let remoteBills := map Payload.data t in
  let merged := mergeBills localBills remoteBills in
  let t' := pushAll (List.filter (needsPush remoteBills) merged) t in
  (forall m, m ∈ merged ->
     exists x, x ∈ t' /\ Payload.id x = id m /\
               updatedAt (Payload.data x) = updatedAt m /\
               (Payload.data x = m \/ x ∈ t)) /\
  (forall x, x ∈ t' -> exists m, m ∈ merged /\ id m = Payload.id x).
Proof.
  intros Ht remoteBills merged t'.
  pose proof (mergeBills_NoDup localBills remoteBills) as Hnd. fold merged in Hnd.
  pose proof (NoDup_ids_filter (needsPush remoteBills) merged Hnd) as Hndp.
  pose proof (pushAll_elem (List.filter (needsPush remoteBills) merged) t) as Helem.
  assert (Hpushed : forall b, b ∈ List.filter (needsPush remoteBills) merged
                              <-> b ∈ merged /\ needsPush remoteBills b = true).
  { intros b. rewrite !list_elem_of_In, filter_In. by rewrite <- !list_elem_of_In. }
  split.
  - intros m Hm. destruct (needsPush remoteBills m) eqn:Hpush.
    + exists (payloadOf m). split_and!; try done; [|by left].
      apply Helem; try done. left. exists m. split; [|done]. by apply Hpushed.
    + pose proof Hpush as Hnp.
      apply needsPush_false in Hpush as (r & Hfind & Hle).
      apply find_some in Hfind as [Hin Hid]. apply String.eqb_eq in Hid.
      apply list_elem_of_In, list_elem_of_fmap in Hin as (x & -> & Hx).
      pose proof Ht as [Hkeys Hall]. rewrite Forall_forall in Hall.
      pose proof (Hall x Hx) as Hkey.
      exists x. split_and!.
      * apply Helem; [done|done|]. right. split; [done|].
        intros (b & Hidb & [Hb Hpb]%Hpushed)%list_elem_of_fmap.
        assert (b = m) as ->; [|congruence].
        apply (NoDup_ids_eq merged); try done. congruence.
      * congruence.
      * pose proof (mergeBills_newest localBills remoteBills m (Payload.data x) Hm) as Hge.
        assert (updatedAt (Payload.data x) <= updatedAt m); [|lia].
        apply Hge; [by apply list_elem_of_fmap_2|done].
      * by right.
  - intros x [(b & [Hb _]%Hpushed & ->)|[Hx _]]%Helem; try done.
    + by exists b.
    + destruct Ht as [_ Hall]. rewrite Forall_forall in Hall.
      assert (Hid : Payload.id x ∈ ids merged).
      { apply mergeBills_ids. right. rewrite (Hall x Hx).
        apply list_elem_of_fmap_2. by apply list_elem_of_fmap_2. }
      apply list_elem_of_fmap in Hid as (m & Hid & Hm). by exists m.
Qed.

(** ** Merging a merged list again *)

Lemma sort_sorted (bills : list BillData) :
  StronglySorted (fun a b => createdAt b <= createdAt a) bills ->
  JSArray.sort byCreatedAtDesc bills = bills.
Proof.
  induction 1 as [|x xs Hs IH Hall]; simpl; [done|].
  rewrite IH. destruct xs as [|y ys]; simpl; [done|].
  apply Forall_cons_1 in Hall as [Hy _]. unfold byCreatedAtDesc.
  destruct (Z.leb_spec (createdAt y - createdAt x) 0); [done|lia].
Qed.

Lemma set_absent (k : string) (v : BillData) (m : JSMap.t BillData) :
  k ∉ JSMap.keys m -> JSMap.set k v m = m ++ [(k, v)].
Proof.
  unfold JSMap.keys. induction m as [|[k' v'] rest IH]; simpl; [done|].
  intros [Hne Hrest]%not_elem_of_cons.
  destruct (String.eqb_spec k' k) as [Heq|_]; [congruence|]. by rewrite IH.
Qed.

Lemma fold_addLocal_distinct (bills : list BillData) (m : JSMap.t BillData) :
  NoDup (JSMap.keys m ++ ids bills) ->
  fold_left addLocal bills m = m ++ map (fun b => (id b, b)) bills.
Proof.
  revert m. unfold ids. induction bills as [|b bs IH]; intros m; simpl.
  - intros _. by rewrite app_nil_r.
  - intros Hnd. unfold addLocal at 2.
    assert (Hb : id b ∉ JSMap.keys m).
    { apply NoDup_app in Hnd as (_ & Hdisj & _). intros Hin.
      apply (Hdisj _ Hin). by left. }
    rewrite set_absent by done. rewrite IH.
    + by rewrite <- app_assoc.
    + unfold JSMap.keys in *. rewrite map_app. simpl.
      rewrite <- app_assoc. done.
Qed.

Lemma mergeRemote_older (m : JSMap.t BillData) (r l : BillData) :
  JSMap.get (id r) m = Some l -> updatedAt r <= updatedAt l -> mergeRemote m r = m.
Proof.
  intros Hget Hle. unfold mergeRemote. rewrite Hget.
  destruct (Z.gtb_spec (updatedAt r) (updatedAt l)); [lia|done].
Qed.

Lemma fold_mergeRemote_older (rs : list BillData) (m : JSMap.t BillData) :
  (forall r, r ∈ rs -> exists l, JSMap.get (id r) m = Some l /\
                                 updatedAt r <= updatedAt l) ->
  fold_left mergeRemote rs m = m.
Proof.
  induction rs as [|r rest IH]; simpl; [done|]. intros H.
  destruct (H r) as (l & Hget & Hle); [by left|].
  rewrite (mergeRemote_older m r l Hget Hle). apply IH.
  intros r' Hr'. apply H. by right.
Qed.

(** A list with distinct ids that comes newest created first is left
    as it is by a merge with remote bills none of which is newer than
    the bill of its id in the list. *)
Lemma mergeBills_fixed (bills rs : list BillData) :
  NoDup (ids bills) ->
  StronglySorted (fun a b => createdAt b <= createdAt a) bills ->
  (forall r, r ∈ rs -> exists m, m ∈ bills /\ id m = id r /\
                                 updatedAt r <= updatedAt m) ->
  mergeBills bills rs = bills.
Proof.
  intros Hnd Hsorted Hrs. unfold mergeBills.
  rewrite (fold_addLocal_distinct bills JSMap.empty) by done.
  unfold JSMap.empty. simpl.
  rewrite fold_mergeRemote_older.
  - unfold JSMap.values. rewrite map_map. simpl. rewrite map_id.
    by apply sort_sorted.
  - intros r Hr. destruct (Hrs r Hr) as (m & Hm & Hid & Hle).
    exists m. split; [|done]. apply elem_of_get.
    + unfold JSMap.keys. rewrite map_map. simpl. done.
    + rewrite <- Hid. by apply (list_elem_of_fmap_2 (fun b => (id b, b))).
Qed.

(** After a synchronisation over a network that delivers, with the
    table keyed by id: the table holds exactly the ids of the returned
    list, one row each; the row of a returned bill carries its
    [updatedAt]; and it carries the bill itself unless the remote held
    a bill of that id with the same [updatedAt] before, in which case
    that remote bill stays. *)
Theorem fullSync_converges (w : World) (c : SupabaseClient) :
  supabase w = Some c ->
  allDelivered w ->
  tableKeyed (bills_table w) ->
  exists merged w',
    fullSync w = (Ok merged, w') /\
    tableKeyed (bills_table w') /\
    (forall i, i ∈ ids (remoteBillsOf w') <-> i ∈ ids merged) /\
    (forall m r, m ∈ merged -> r ∈ remoteBillsOf w' -> id r = id m ->
       updatedAt r = updatedAt m /\
       (r = m \/ (r ∈ remoteBillsOf w /\ needsPush (remoteBillsOf w) m = false))).
Proof.
  intros Hsup Hall Ht.
  destruct (fullSync_all_delivered c w Hsup Hall) as (w' & Hrun & Htab & _).
  destruct (synced_table (storedBillsOf w) (bills_table w) Ht) as [Hrows Hback].
  fold (remoteBillsOf w) in Hrows, Hback.
  set (merged := mergeBills (storedBillsOf w) (remoteBillsOf w)) in *.
  assert (Ht' : tableKeyed (bills_table w')).
  { rewrite Htab. by apply pushAll_keyed. }
  exists merged, w'. split_and!; try done.
  - intros i. unfold ids, remoteBillsOf. rewrite Htab. split.
    + intros (r & -> & (x & -> & Hx)%list_elem_of_fmap)%list_elem_of_fmap.
      destruct (Hback x Hx) as (m & Hm & Hid).
      destruct Ht' as [_ Hkey]. rewrite Forall_forall, Htab in Hkey.
      rewrite <- (Hkey x Hx), <- Hid. by apply list_elem_of_fmap_2.
    + intros (m & -> & Hm)%list_elem_of_fmap.
      destruct (Hrows m Hm) as (x & Hx & Hid & _).
      destruct Ht' as [_ Hkey]. rewrite Forall_forall, Htab in Hkey.
      rewrite <- Hid, (Hkey x Hx). apply list_elem_of_fmap_2.
      by apply list_elem_of_fmap_2.
  - intros m r Hm (y & -> & Hy)%list_elem_of_fmap Hid.
    destruct (Hrows m Hm) as (x & Hx & Hidx & Hup & Hor).
    assert (y = x) as ->.
    { apply (tableKeyed_row_eq (bills_table w')); try done; [by rewrite Htab|].
      destruct Ht' as [_ Hkey]. rewrite Forall_forall in Hkey.
      rewrite (Hkey y Hy). congruence. }
    split; [done|].
    destruct (needsPush (remoteBillsOf w) m) eqn:Hpush.
    + left.
      assert (Hp : payloadOf m ∈ bills_table w').
      { rewrite Htab. apply pushAll_elem; [done| |].
        - apply NoDup_ids_filter, mergeBills_NoDup.
        - left. exists m. split; [|done].
          apply list_elem_of_In, filter_In. split; [by apply list_elem_of_In|done]. }
      assert (x = payloadOf m) as ->; [|done].
      by apply (tableKeyed_row_eq (bills_table w')).
    + destruct Hor as [Hdata|Hold]; [by left|].
      right. split; [|done]. by apply list_elem_of_fmap_2.
Qed.

(** A second synchronisation right after one that was delivered and
    taken by the store changes nothing: it returns the same list, sends
    the fetch alone, and leaves the store and the table as they are. *)
Theorem fullSync_idempotent (w : World) (c : SupabaseClient) :
  supabase w = Some c ->
  allDelivered w ->
  tableKeyed (bills_table w) ->
  writeTaken (mergeBills (storedBillsOf w) (remoteBillsOf w)) w ->
  exists merged w1 w2,
    fullSync w = (Ok merged, w1) /\
    fullSync w1 = (Ok merged, w2) /\
    requestsBetween w1 w2 = [Select] /\
    alertsBetween w1 w2 = [] /\
    bills_table w2 = bills_table w1 /\
    localStorage w2 = localStorage w1.
Proof.
  intros Hsup Hall Ht Htaken%writeTaken_fits.
  destruct (fullSync_all_delivered c w Hsup Hall)
    as (w1 & Hrun1 & Htab1 & Hsup1 & Hq1 & Hall1 & Hstore1).
  destruct Hstore1 as [[_ Hls1]|[Hno _]]; [|done].
  destruct (synced_table (storedBillsOf w) (bills_table w) Ht) as [Hrows Hback].
  fold (remoteBillsOf w) in Hrows, Hback.
  set (merged := mergeBills (storedBillsOf w) (remoteBillsOf w)) in *.
  rewrite <- Htab1 in Hrows, Hback.
  assert (Ht1 : tableKeyed (bills_table w1)).
  { rewrite Htab1. by apply pushAll_keyed. }
  assert (Hstored1 : storedBillsOf w1 = merged).
  { by apply (storedBillsOf_after_write merged w w1). }
  assert (Hremote1 : forall r, r ∈ remoteBillsOf w1 ->
            exists m, m ∈ merged /\ id m = id r /\ updatedAt r = updatedAt m).
  { intros r (y & -> & Hy)%list_elem_of_fmap.
    destruct (Hback y Hy) as (m & Hm & Hid).
    destruct (Hrows m Hm) as (x & Hx & Hidx & Hup & _).
    assert (y = x) as -> by (apply (tableKeyed_row_eq (bills_table w1)); congruence).
    destruct Ht1 as [_ Hkey]. rewrite Forall_forall in Hkey.
    exists m. split_and!; [done| |done]. rewrite <- (Hkey x Hx). congruence. }
  assert (Hmerge : mergeBills (storedBillsOf w1) (remoteBillsOf w1) = merged).
  { rewrite Hstored1. apply mergeBills_fixed.
    - apply mergeBills_NoDup.
    - apply mergeBills_sorted.
    - intros r Hr. destruct (Hremote1 r Hr) as (m & Hm & Hid & Hup).
      exists m. split_and!; [done|done|lia]. }
  assert (Hnone : List.filter (needsPush (remoteBillsOf w1)) merged = []).
  { apply filter_none. intros m Hm. apply needsPush_false.
    destruct (List.find (fun r => String.eqb (id r) (id m)) (remoteBillsOf w1))
      as [r|] eqn:Hfind.
    - exists r. split; [done|].
      apply find_some in Hfind as [Hin Hid]. apply String.eqb_eq in Hid.
      apply list_elem_of_In in Hin.
      destruct (Hremote1 r Hin) as (m' & Hm' & Hid' & Hup).
      assert (m' = m) as ->; [|lia].
      apply (NoDup_ids_eq merged); try done; [apply mergeBills_NoDup|congruence].
    - exfalso. destruct (Hrows m Hm) as (x & Hx & Hidx & _).
      destruct Ht1 as [_ Hkey]. rewrite Forall_forall in Hkey.
      assert (Hin : In (Payload.data x) (remoteBillsOf w1)).
      { apply list_elem_of_In. by apply list_elem_of_fmap_2. }
      pose proof (find_none _ _ Hfind _ Hin) as Hne. simpl in Hne.
      apply String.eqb_neq in Hne. apply Hne. rewrite <- (Hkey x Hx). done. }
  destruct (fullSync_trace c w1 Hsup1 (allDelivered_nextDelivered w1 Hall1))
    as (w2 & Hrun2 & Hout2).
  destruct (fullSync_all_delivered c w1 Hsup1 Hall1)
    as (w2' & Hrun2' & Htab2 & _).
  rewrite Hrun2 in Hrun2'. injection Hrun2' as <-.
  rewrite Hmerge in Hrun2, Hout2. rewrite Hmerge, Hnone in Htab2.
  rewrite Hnone in Hout2. simpl in Hout2, Htab2.
  assert (Hfits1 : writeFits merged w1).
  { unfold writeFits in *. rewrite Hls1, insert_insert_eq, Hq1. done. }
  destruct Hout2 as [(_ & Hls2 & Hst2)|(Hno & _)]; [|done].
  exists merged, w1, w2. split_and!; try done.
  - apply (Run_requestsBetween _ _ _ _ Hst2).
  - apply (Run_alertsBetween _ _ _ _ Hst2).
  - rewrite Hls2, Hls1. apply insert_insert_eq.
Qed.

(* ===================================================================== *)
(** * Further properties: the handlers of the main component *)
(* ===================================================================== *)

Lemma sameButClock_refl w : sameButClock w w.
Proof. by repeat split. Qed.

Lemma sameButClock_trans w w1 w2 :
  sameButClock w w1 -> sameButClock w1 w2 -> sameButClock w w2.
Proof.
  intros (A1 & A2 & A3 & A4 & A5 & A6) (B1 & B2 & B3 & B4 & B5 & B6).
  repeat split; congruence.
Qed.

Lemma sameButClock_Run w w' : sameButClock w w' -> Run w w' [] [].
Proof.
  intros (_ & Hq & Hsup & _ & _ & Hev). repeat split; try done.
  exists []. by rewrite app_nil_r.
Qed.

Lemma sameButClock_stored w w' :
  sameButClock w w' -> storedBillsOf w' = storedBillsOf w.
Proof. intros (Hls & _). by apply storedBillsOf_ext. Qed.

Lemma sameButClock_fits bills w w' :
  sameButClock w w' -> writeFits bills w' <-> writeFits bills w.
Proof. intros (Hls & Hq & _). by apply writeFits_ext. Qed.

Lemma Date_now_frame w :
  exists now w1, Date_now w = (Ok now, w1) /\ sameButClock w w1.
Proof.
  unfold Date_now. destruct (ticks w); eexists _, _; (split; [reflexivity|]);
    by repeat split.
Qed.

Lemma generateId_frame w :
  exists newId w0, generateId w = (Ok newId, w0) /\ sameButClock w w0.
Proof.
  unfold generateId.
  destruct (Date_now_frame w) as (t & w1 & Hnow & Hsame).
  rewrite (bind_ok _ _ _ _ _ Hnow).
  unfold bind, Math_random_suffix, ret.
  destruct (random w1); eexists _, _; (split; [reflexivity|]); [done|].
  apply (sameButClock_trans _ _ _ Hsame). by repeat split.
Qed.

(** What [createBill] does, step by step. *)
Lemma createBill_effect extracted img manual st w :
  exists newId created updated w2 w',
    sameButClock w w2 /\
    let newBill :=
      mkBill newId (Some (default "" img))
             (Extracted.customerName extracted) (Extracted.address extracted)
             (Extracted.invoiceNo extracted) (Extracted.billDate extracted)
             PENDING false false false false
             (default 0 (ManualData.boxCount <$> manual))
             (default "" (ManualData.description <$> manual))
             None (currentDate st) created updated None in
    saveBillToStorage newBill w2 = (Ok tt, w') /\
    createBill extracted img manual st w
    = (Ok (setExpandedId (Some newId) (setAllBills (newBill :: allBills st) st)), w').
Proof.
  destruct (generateId_frame w) as (newId & w0 & Hid & S0).
  destruct (Date_now_frame w0) as (created & w1 & Hc & S1).
  destruct (Date_now_frame w1) as (updated & w2 & Hu & S2).
  unfold createBill.
  rewrite (bind_ok _ _ _ _ _ Hid), (bind_ok _ _ _ _ _ Hc), (bind_ok _ _ _ _ _ Hu).
  match goal with
  | |- context [saveBillToStorage ?nb] =>
      destruct (saveBillToStorage_run nb w2) as (w' & Hsave)
  end.
  rewrite (bind_ok _ _ _ _ _ Hsave).
  exists newId, created, updated, w2, w'. split_and!; [|done|done].
  eauto using sameButClock_trans.
Qed.

(** ** The group edit *)

(** A group edit gives each selected bill the name and the colour of
    the dialog (no colour when the field is empty) and the one clock
    reading of the edit as [updatedAt], and keeps its id, its status,
    its [packedAt] and its other fields; the other bills are unchanged.
    It leaves selection mode with an empty selection and the dialog
    closed, starts a synchronisation exactly when the cloud flag is
    set, and writes the list to the store also when nothing is
    selected. *)
Theorem applyGroupSettings_effect (st : AppState) (w : World) :
  exists now st' tasks w',
    fst (Date_now w) = Ok now /\
    applyGroupSettings st w = (Ok (st', tasks), w') /\
    List.length (allBills st') = List.length (allBills st) /\
    (forall n b, allBills st !! n = Some b ->
       exists b', allBills st' !! n = Some b' /\
         (id b ∈ selectedIds st ->
          description b' = groupNameInput st /\
          colorTheme b' = (if decide (groupColorInput st = "") then None
                           else Some (groupColorInput st)) /\
          updatedAt b' = now /\
          id b' = id b /\ status b' = status b /\ packedAt b' = packedAt b /\
          createdAt b' = createdAt b /\ entryDate b' = entryDate b /\
          invoiceNo b' = invoiceNo b /\ customerName b' = customerName b /\
          boxCount b' = boxCount b /\ imageUrl b' = imageUrl b) /\
         (id b ∉ selectedIds st -> b' = b)) /\
    selectedIds st' = ∅ /\ isSelectionMode st' = false /\
    showGroupModal st' = false /\
    tasks = (if isCloudConnectedState st then [SyncTask] else []) /\
    (alertsBetween w w' = [] -> storedBillsOf w' = allBills st') /\
    (alertsBetween w w' <> [] -> storedBillsOf w' = storedBillsOf w) /\
    requestsBetween w w' = [].
Proof.
  destruct (Date_now_frame w) as (now & w1 & Hnow & Hsame).
  set (updates := map (fun b => if bool_decide (id b ∈ selectedIds st)
                                then groupStamp (groupNameInput st)
                                                (groupColorInput st) now b
                                else b) (allBills st)).
  destruct (saveBillsToStorage_outcome updates w1) as (w' & Hsave & _ & _ & Hout).
  eexists now, _, _, w'. split_and!.
  - by rewrite Hnow.
  - unfold applyGroupSettings. rewrite (bind_ok _ _ _ _ _ Hnow).
    fold updates. by rewrite (bind_ok _ _ _ _ _ Hsave).
  - simpl. apply length_map.
  - intros n b Hb. simpl. unfold updates. rewrite list_lookup_fmap, Hb. simpl.
    eexists. split; [reflexivity|]. split.
    + intros Hin. rewrite bool_decide_eq_true_2 by done. simpl.
      split_and!; try done.
      destruct (decide (groupColorInput st = "")) as [->|Hne]; [done|].
      destruct (JSString.truthy (groupColorInput st)) eqn:Ht; [done|].
      by apply truthy_false in Ht.
    + intros Hout'. by rewrite bool_decide_eq_false_2.
  - done.
  - done.
  - done.
  - done.
  - simpl. intros Hquiet.
    destruct Hout as [(_ & Hls & _)|(_ & _ & Hr)].
    + by apply (storedBillsOf_after_write updates w1 w').
    + pose proof (Run_trans _ _ _ _ _ _ _ (sameButClock_Run _ _ Hsame) Hr) as Hr'.
      apply Run_alertsBetween in Hr'. by rewrite Hr' in Hquiet.
  - intros Hloud.
    destruct Hout as [(_ & _ & Hr)|(_ & Hls & _)].
    + pose proof (Run_trans _ _ _ _ _ _ _ (sameButClock_Run _ _ Hsame) Hr) as Hr'.
      apply Run_alertsBetween in Hr'. by rewrite Hr' in Hloud.
    + rewrite (storedBillsOf_ext w' w1) by done. by apply sameButClock_stored.
  - destruct Hout as [(_ & _ & Hr)|(_ & _ & Hr)];
      pose proof (Run_trans _ _ _ _ _ _ _ (sameButClock_Run _ _ Hsame) Hr) as Hr';
      by apply Run_requestsBetween in Hr'.
Qed.

(** ** Deleting from the list *)

Lemma deleteBillFromStorage_trace (i : string) (w : World) :
  let reqs := match supabase w with Some _ => [Delete i] | None => [] end in
  let kept := List.filter (fun b => negb (String.eqb (id b) i)) (storedBillsOf w) in
  exists w',
    deleteBillFromStorage i w = (Ok tt, w') /\
    ((writeFits kept w /\
      localStorage w' = <[STORAGE_KEY := BillJSON.stringify kept]> (localStorage w) /\
      Run w w' reqs []) \/
     (~ writeFits kept w /\
      localStorage w' = localStorage w /\
      Run w w' reqs [storageAlertText])).
Proof.
  intros reqs kept.
  destruct (getStoredBills_quiet w) as (w1 & Hget & Hls1 & _ & _ & Hrun1).
  destruct (saveBillsToStorage_outcome kept w1) as (w2 & Hsave & _ & _ & Hout).
  assert (Hfits : writeFits kept w1 <-> writeFits kept w).
  { apply writeFits_ext; [done|]. by destruct Hrun1 as (_ & ? & _). }
  assert (Hsup2 : supabase w2 = supabase w).
  { destruct Hrun1 as [E1 _].
    destruct Hout as [(_ & _ & [E2 _])|(_ & _ & [E2 _])]; congruence. }
  assert (exists w3, (match supabase w2 with
                       | Some _ => deleteRemoteItem i
                       | None => ret tt
                       end) w2 = (Ok tt, w3) /\
                     localStorage w3 = localStorage w2 /\
                     Run w2 w3 reqs [])
    as (w3 & Hdel & Hls3 & Hrun3).
  { subst reqs. rewrite <- Hsup2. destruct (supabase w2) as [c|] eqn:Hsup.
    - by apply (deleteRemoteItem_sends i w2 c).
    - exists w2. split_and!; [done|done|apply Run_refl]. }
  exists w3. split.
  - unfold deleteBillFromStorage. rewrite (bind_ok _ _ _ _ _ Hget).
    fold kept. rewrite (bind_ok _ _ _ _ _ Hsave).
    by rewrite (bind_ok _ _ _ _ _ (eq_refl : gets supabase w2 = _)).
  - destruct Hout as [(Hf & Hls2 & Hrun2)|(Hf & Hls2 & Hrun2)]; [left|right];
      split_and!.
    + by apply Hfits.
    + congruence.
    + apply (Run_trans _ _ _ [] _ [] [] (Run_trans _ _ _ [] [] [] [] Hrun1 Hrun2) Hrun3).
    + by rewrite <- Hfits.
    + congruence.
    + apply (Run_trans _ _ _ [] _ [storageAlertText] []
               (Run_trans _ _ _ [] [] [] [storageAlertText] Hrun1 Hrun2) Hrun3).
Qed.

(** The loop of [handleDeleteSelected]: one delete request per id when a
    client is set. *)
Lemma deleteLoop_run (l : list string) (w : World) :
  exists w' alerts,
    forEach l deleteBillFromStorage w = (Ok tt, w') /\
    Run w w' (match supabase w with Some _ => map Delete l | None => [] end) alerts.
Proof.
  revert w. induction l as [|i rest IH]; intros w; simpl.
  - exists w, []. split; [done|]. destruct (supabase w); apply Run_refl.
  - destruct (deleteBillFromStorage_trace i w) as (w1 & Hrun1 & Hout).
    destruct (IH w1) as (w2 & alerts & Hrun2 & Hr2).
    rewrite (bind_ok _ _ _ _ _ Hrun1).
    assert (exists a1, Run w w1 (match supabase w with
                                 | Some _ => [Delete i] | None => [] end) a1)
      as (a1 & Hr1).
    { destruct Hout as [(_ & _ & Hr)|(_ & _ & Hr)]; eauto. }
    assert (Hsup : supabase w1 = supabase w) by (by destruct Hr1 as [? _]).
    rewrite Hsup in Hr2.
    exists w2, (a1 ++ alerts). split; [done|].
    pose proof (Run_trans _ _ _ _ _ _ _ Hr1 Hr2) as Hr.
    by destruct (supabase w).
Qed.

(** The same loop over a store that holds none of the ids and whose
    content fits: the store is left as it is, without an alert. *)
Lemma deleteLoop_absent (l : list string) (bills : list BillData) (w : World) :
  localStorage w !! STORAGE_KEY = Some (BillJSON.stringify bills) ->
  (storage_used (localStorage w) <= quota w)%nat ->
  (forall i, i ∈ l -> i ∉ ids bills) ->
  exists w',
    forEach l deleteBillFromStorage w = (Ok tt, w') /\
    localStorage w' = localStorage w /\
    Run w w' (match supabase w with Some _ => map Delete l | None => [] end) [].
Proof.
  revert w. induction l as [|i rest IH]; intros w Hget Hused Habs; simpl.
  - exists w. split_and!; try done. destruct (supabase w); apply Run_refl.
  - destruct (deleteBillFromStorage_trace i w) as (w1 & Hrun1 & Hout).
    rewrite (storedBillsOf_written bills w Hget) in Hout.
    rewrite filter_other_ids in Hout by (apply Habs; by left).
    assert (Hsame : <[STORAGE_KEY := BillJSON.stringify bills]> (localStorage w)
                    = localStorage w) by (by apply insert_id).
    rewrite Hsame in Hout.
    destruct Hout as [(_ & Hls1 & Hr1)|(Hno & _)].
    + destruct (IH w1) as (w2 & Hrun2 & Hls2 & Hr2).
      * by rewrite Hls1.
      * rewrite Hls1. destruct Hr1 as (_ & -> & _). done.
      * intros j Hj. apply Habs. by right.
      * rewrite (bind_ok _ _ _ _ _ Hrun1).
        assert (Hsup : supabase w1 = supabase w) by (by destruct Hr1 as [? _]).
        rewrite Hsup in Hr2.
        exists w2. split_and!; [done|congruence|].
        pose proof (Run_trans _ _ _ _ _ _ _ Hr1 Hr2) as Hr.
        by destruct (supabase w).
    + exfalso. apply Hno. unfold writeFits. by rewrite Hsame.
Qed.

Lemma not_selected_ids (sel : gset string) (bills : list BillData) (i : string) :
  i ∈ sel ->
  i ∉ ids (List.filter (fun b => negb (bool_decide (id b ∈ sel))) bills).
Proof.
  intros Hsel (b & -> & Hb)%list_elem_of_fmap.
  apply list_elem_of_In, filter_In in Hb as [_ Hb].
  by rewrite bool_decide_eq_true_2 in Hb.
Qed.

(** A confirmed deletion of a non-empty selection keeps in the list the
    bills outside the selection, in their order, and leaves selection
    mode; the requests sent are one delete per selected id, also for a
    selected id that no bill of the list has, when the cloud flag and
    the client are set, and none otherwise; and unless the storage
    alert is shown the store holds the new list afterwards. *)
Theorem handleDeleteSelected_effect (st : AppState) (w : World) :
  selectedIds st <> ∅ ->
  exists st' w',
    handleDeleteSelected true st w = (Ok st', w') /\
    allBills st'
    = List.filter (fun b => negb (bool_decide (id b ∈ selectedIds st))) (allBills st) /\
    (forall b, b ∈ allBills st' <-> b ∈ allBills st /\ id b ∉ selectedIds st) /\
    selectedIds st' = ∅ /\ isSelectionMode st' = false /\
    requestsBetween w w'
    ≡ₚ (if isCloudConnectedState st
        then match supabase w with
             | Some _ => map Delete (elements (selectedIds st))
             | None => []
             end
        else []) /\
    (alertsBetween w w' = [] -> storedBillsOf w' = allBills st').
Proof.
  intros Hsel.
  set (updates := List.filter (fun b => negb (bool_decide (id b ∈ selectedIds st)))
                              (allBills st)).
  destruct (saveBillsToStorage_outcome updates w) as (w1 & Hsave & _ & _ & Hout).
  assert (Hsup1 : supabase w1 = supabase w).
  { destruct Hout as [(_ & _ & [E _])|(_ & _ & [E _])]; done. }
  assert (exists w' alerts,
            (if isCloudConnectedState st
             then forEach (elements (selectedIds st)) deleteBillFromStorage
             else ret tt) w1 = (Ok tt, w') /\
            Run w1 w' (if isCloudConnectedState st
                       then match supabase w with
                            | Some _ => map Delete (elements (selectedIds st))
                            | None => []
                            end
                       else []) alerts /\
            (writeFits updates w -> alerts = [] /\ localStorage w' = localStorage w1))
    as (w' & alerts & Hloop & Hr2 & Hquiet).
  { destruct (isCloudConnectedState st).
    - destruct Hout as [(Hf & Hls1 & Hr1)|(Hf & Hls1 & Hr1)].
      + destruct (deleteLoop_absent (elements (selectedIds st)) updates w1)
          as (w' & Hloop & Hls' & Hr2).
        * rewrite Hls1. apply lookup_insert_eq.
        * rewrite Hls1. destruct Hr1 as (_ & -> & _). exact Hf.
        * intros i Hi%elem_of_elements. by apply not_selected_ids.
        * rewrite Hsup1 in Hr2. by exists w', [].
      + destruct (deleteLoop_run (elements (selectedIds st)) w1)
          as (w' & alerts & Hloop & Hr2).
        rewrite Hsup1 in Hr2. exists w', alerts. split_and!; done.
    - exists w1, []. split_and!; [done|apply Run_refl|done]. }
  eexists _, w'. split_and!.
  - unfold handleDeleteSelected.
    assert ((size (selectedIds st) =? 0)%nat = false) as ->.
    { apply Nat.eqb_neq. rewrite size_empty_iff. by intros ?%leibniz_equiv. }
    fold updates. rewrite (bind_ok _ _ _ _ _ Hsave).
    by rewrite (bind_ok _ _ _ _ _ Hloop).
  - done.
  - intros b. simpl. fold updates. unfold updates.
    rewrite !list_elem_of_In, filter_In, negb_true_iff, bool_decide_eq_false.
    by rewrite <- !list_elem_of_In.
  - done.
  - done.
  - destruct Hout as [(_ & _ & Hr1)|(_ & _ & Hr1)];
      pose proof (Run_trans _ _ _ _ _ _ _ Hr1 Hr2) as Hr;
      apply Run_requestsBetween in Hr; by rewrite Hr.
  - simpl. fold updates. intros Hnoalert.
    destruct Hout as [(Hf & Hls1 & Hr1)|(Hf & Hls1 & Hr1)].
    + destruct (Hquiet Hf) as [_ Hls'].
      apply storedBillsOf_written. rewrite Hls', Hls1. apply lookup_insert_eq.
    + pose proof (Run_trans _ _ _ _ _ _ _ Hr1 Hr2) as Hr.
      apply Run_alertsBetween in Hr. by rewrite Hr in Hnoalert.
Qed.

(** Deleting one bill: declined, nothing happens at all; confirmed, the
    list keeps the bills of the other ids, the card of the deleted bill
    is no longer the expanded one, one delete request goes out exactly
    when a client is set, and unless the storage alert is shown the
    store keeps its bills of the other ids, so that a list that
    mirrored the store still does. *)
Theorem handleDeleteBill_effect (i : string) (st : AppState) (w : World) :
  handleDeleteBill false i st w = (Ok st, w) /\
  exists st' w',
    handleDeleteBill true i st w = (Ok st', w') /\
    allBills st'
    = List.filter (fun b => negb (String.eqb (id b) i)) (allBills st) /\
    (i ∉ ids (allBills st')) /\
    expandedId st' <> Some i /\
    (expandedId st <> Some i -> expandedId st' = expandedId st) /\
    requestsBetween w w'
    = match supabase w with Some _ => [Delete i] | None => [] end /\
    (alertsBetween w w' = [] ->
     storedBillsOf w'
     = List.filter (fun b => negb (String.eqb (id b) i)) (storedBillsOf w)) /\
    (alertsBetween w w' = [] -> allBills st = storedBillsOf w ->
     allBills st' = storedBillsOf w').
Proof.
  split; [done|].
  destruct (deleteBillFromStorage_effect i w) as (w' & Hrun & Heff).
  assert (Hstore : alertsBetween w w' = [] ->
            storedBillsOf w'
            = List.filter (fun b => negb (String.eqb (id b) i)) (storedBillsOf w)).
  { intros Hquiet. destruct Heff as [[Hst _]|[_ Hr]]; [done|].
    apply Run_alertsBetween in Hr. by rewrite Hr in Hquiet. }
  eexists _, w'. split_and!.
  - unfold handleDeleteBill. by rewrite (bind_ok _ _ _ _ _ Hrun).
  - by destruct (bool_decide (expandedId st = Some i)).
  - destruct (bool_decide (expandedId st = Some i)); simpl;
      apply filter_other_ids_absent.
  - destruct (bool_decide (expandedId st = Some i)) eqn:Hexp; simpl; [done|].
    by apply bool_decide_eq_false in Hexp.
  - intros Hne. by rewrite bool_decide_eq_false_2.
  - destruct Heff as [[_ Hr]|[_ Hr]]; by apply Run_requestsBetween in Hr.
  - exact Hstore.
  - intros Hquiet Hmirror. rewrite (Hstore Hquiet), <- Hmirror.
    by destruct (bool_decide (expandedId st = Some i)).
Qed.

(** ** Editing one bill *)

Lemma replace_by_id_ids (updated : BillData) (bills : list BillData) :
  ids (map (fun b => if String.eqb (id b) (id updated) then updated else b) bills)
  = ids bills.
Proof.
  unfold ids. rewrite map_map. apply map_ext. intros b.
  by destruct (String.eqb_spec (id b) (id updated)).
Qed.

Lemma replace_by_id_absent (updated : BillData) (bills : list BillData) :
  id updated ∉ ids bills ->
  map (fun b => if String.eqb (id b) (id updated) then updated else b) bills = bills.
Proof.
  unfold ids. induction bills as [|b bs IH]; simpl; [done|].
  intros [Hb Hbs]%not_elem_of_cons.
  destruct (String.eqb_spec (id b) (id updated)) as [Heq|_]; [congruence|].
  f_equal. by apply IH.
Qed.

Lemma replace_by_id_unique (updated : BillData) (before after : list BillData)
      (old : BillData) :
  id old = id updated ->
  id updated ∉ ids before -> id updated ∉ ids after ->
  map (fun b => if String.eqb (id b) (id updated) then updated else b)
      (before ++ old :: after)
  = before ++ updated :: after.
Proof.
  intros Hid Hb Ha. rewrite map_app. simpl.
  rewrite (replace_by_id_absent updated before Hb).
  rewrite (replace_by_id_absent updated after Ha).
  by rewrite (proj2 (String.eqb_eq _ _) Hid).
Qed.

(** An edit puts the bill handed over in the place of every bill of
    its id in the list, and leaves the others and the order of the ids
    as they are; it never adds to the list.  The store, unless the
    storage alert is shown, takes the bill in all cases: for an id that
    the list and the store did not hold, the list stays as it was while
    the store gains the bill in front; and with distinct ids, a list
    that mirrored the store still does when it held the id. *)
Theorem handleUpdateBill_effect (updated : BillData) (st : AppState) (w : World) :
  exists st' w',
    handleUpdateBill updated st w = (Ok st', w') /\
    ids (allBills st') = ids (allBills st) /\
    (forall n b, allBills st !! n = Some b ->
       allBills st' !! n = Some (if String.eqb (id b) (id updated)
                                 then updated else b)) /\
    (alertsBetween w w' = [] -> allBills st = storedBillsOf w ->
     (id updated ∉ ids (allBills st) ->
      allBills st' = allBills st /\
      storedBillsOf w' = updated :: allBills st) /\
     (id updated ∈ ids (allBills st) -> NoDup (ids (allBills st)) ->
      allBills st' = storedBillsOf w')).
Proof.
  destruct (saveBillToStorage_effect updated w) as (w' & Hrun & Heff).
  eexists _, w'. split_and!.
  - unfold handleUpdateBill. by rewrite (bind_ok _ _ _ _ _ Hrun).
  - apply replace_by_id_ids.
  - intros n b Hb. simpl. by rewrite list_lookup_fmap, Hb.
  - intros Hquiet Hmirror. simpl.
    destruct Heff as [(_ & Hst & _)|(_ & _ & Hr)];
      [|apply Run_alertsBetween in Hr; by rewrite Hr in Hquiet].
    rewrite Hst, <- Hmirror.
    destruct (upsert_shape updated (allBills st))
      as [[Hnew ->]|(before & old & after & Hs & Hid & Hnot & ->)].
    + split; [|done]. intros _. split; [|done]. by apply replace_by_id_absent.
    + split.
      * intros Habs. exfalso. apply Habs. rewrite Hs, <- Hid. unfold ids.
        rewrite map_app. simpl. apply elem_of_app. right. by left.
      * intros _ Hnd. rewrite Hs. apply replace_by_id_unique; [done|done|].
        rewrite Hs in Hnd. unfold ids in Hnd. rewrite map_app in Hnd. simpl in Hnd.
        apply NoDup_app in Hnd as (_ & _ & Hnd).
        apply NoDup_cons in Hnd as [Hnd _]. by rewrite Hid in Hnd.
Qed.

(** ** Adding bills *)

(** A quick add creates its bill without looking for a duplicate:
    whatever the list holds, also a bill of the same invoice number, the
    new bill comes in front of the list, pending and not packed, with
    the customer, the invoice number, the box count and the description
    of the form, today as bill date and entry date, no address and an
    empty image; no duplicate alert is raised. *)
Theorem handleManualQuickAdd_no_duplicate_check (data : QuickAdd.t)
        (st : AppState) (w : World) :
  exists st' w' b,
    handleManualQuickAdd data st w = (Ok st', w') /\
    allBills st' = b :: allBills st /\
    customerName b = QuickAdd.customerName data /\
    invoiceNo b = QuickAdd.invoiceNo data /\
    boxCount b = QuickAdd.boxCount data /\
    description b = QuickAdd.description data /\
    billDate b = currentDate st /\ entryDate b = currentDate st /\
    address b = "" /\ imageUrl b = Some "" /\
    status b = PENDING /\ packedAt b = None /\
    duplicateAlert st' = duplicateAlert st /\
    expandedId st' = Some (id b) /\
    loadingId st' = None /\ processStatus st' = "".
Proof.
  destruct (createBill_effect
              (Extracted.mk (QuickAdd.customerName data) "" (QuickAdd.invoiceNo data)
                            (currentDate st))
              None
              (Some (ManualData.mk (QuickAdd.boxCount data) (QuickAdd.description data)))
              (setProcessStatus "Quick add..." (setLoadingId (Some "new") st)) w)
    as (newId & created & updated & w2 & w' & _ & _ & Hrun).
  eexists _, w', _. split.
  - unfold handleManualQuickAdd. rewrite (bind_ok _ _ _ _ _ Hrun). reflexivity.
  - by split_and!.
Qed.

(** A scanned bill whose invoice number is already in the list is not
    created: nothing is stored, sent or shown, the list is unchanged,
    and the duplicate alert holds the bill found, the extracted fields
    and the image.  Confirming the alert then creates the bill from
    these fields and this image, in front of the list, and closes the
    alert. *)
Theorem handleAddBill_duplicate_then_confirm (img : string) (ex : Extracted.t)
        (d : BillData) (st : AppState) (w : World) :
  findDuplicate (Extracted.invoiceNo ex) (allBills st) = Some d ->
  exists st',
    handleAddBill (Some (img, ex)) st w = (Ok st', w) /\
    allBills st' = allBills st /\
    duplicateAlert st' = Some (DuplicateAlert.mk d ex (Some img)) /\
    exists st'' w'' b,
      handleConfirmDuplicate st' w = (Ok st'', w'') /\
      allBills st'' = b :: allBills st /\
      invoiceNo b = Extracted.invoiceNo ex /\
      customerName b = Extracted.customerName ex /\
      address b = Extracted.address ex /\
      billDate b = Extracted.billDate ex /\
      imageUrl b = Some img /\
      status b = PENDING /\
      duplicateAlert st'' = None.
Proof.
  intros Hdup. eexists. split_and!.
  - unfold handleAddBill. rewrite Hdup. reflexivity.
  - by destruct (duplicateAlert st).
  - by destruct (duplicateAlert st).
  - match goal with
    | |- context [handleConfirmDuplicate ?s] => set (st1 := s)
    end.
    assert (Halert : duplicateAlert st1 = Some (DuplicateAlert.mk d ex (Some img))).
    { subst st1. by destruct (duplicateAlert st). }
    assert (Hbills : allBills st1 = allBills st).
    { subst st1. by destruct (duplicateAlert st). }
    destruct (createBill_effect ex (Some img) None
                (setProcessStatus "Creating duplicate entry..."
                   (setLoadingId (Some "new_dup") (setDuplicateAlert None st1))) w)
      as (newId & created & updated & w2 & w'' & _ & _ & Hrun).
    eexists _, w'', _. split.
    + unfold handleConfirmDuplicate. rewrite Halert. simpl.
      rewrite (bind_ok _ _ _ _ _ Hrun). reflexivity.
    + simpl. rewrite Hbills. by split_and!.
Qed.

(** A scanned bill whose invoice number is not in the list, and a call
    without a file, create a bill in front of the list: from the
    extracted fields and the image in the first case, with empty fields
    and an empty image in the second; the duplicate alert is left as it
    is. *)
Theorem handleAddBill_creates (st : AppState) (w : World) :
  (forall img ex,
     findDuplicate (Extracted.invoiceNo ex) (allBills st) = None ->
     exists st' w' b,
       handleAddBill (Some (img, ex)) st w = (Ok st', w') /\
       allBills st' = b :: allBills st /\
       invoiceNo b = Extracted.invoiceNo ex /\
       customerName b = Extracted.customerName ex /\
       address b = Extracted.address ex /\
       billDate b = Extracted.billDate ex /\
       imageUrl b = Some img /\
       entryDate b = currentDate st /\
       boxCount b = 0 /\ description b = "" /\
       duplicateAlert st' = duplicateAlert st) /\
  exists st' w' b,
    handleAddBill None st w = (Ok st', w') /\
    allBills st' = b :: allBills st /\
    invoiceNo b = "" /\ customerName b = "" /\ address b = "" /\
    billDate b = "" /\ imageUrl b = Some "" /\
    entryDate b = currentDate st /\
    duplicateAlert st' = duplicateAlert st.
Proof.
  split.
  - intros img ex Hnone.
    destruct (createBill_effect ex (Some img) None
                (setProcessStatus "Saving bill..."
                   (setProcessStatus "Compressing image..."
                      (setLoadingId (Some "new") st))) w)
      as (newId & created & updated & w2 & w' & _ & _ & Hrun).
    eexists _, w', _. split.
    + unfold handleAddBill. rewrite Hnone.
      rewrite (bind_ok _ _ _ _ _ Hrun). reflexivity.
    + destruct (duplicateAlert st) eqn:Hd; simpl; rewrite ?Hd; by split_and!.
  - destruct (createBill_effect Extracted.empty None None
                (setProcessStatus "Saving bill..."
                   (setProcessStatus "Compressing image..."
                      (setLoadingId (Some "new") st))) w)
      as (newId & created & updated & w2 & w' & _ & _ & Hrun).
    eexists _, w', _. split.
    + unfold handleAddBill. rewrite (bind_ok _ _ _ _ _ Hrun). reflexivity.
    + destruct (duplicateAlert st) eqn:Hd; simpl; rewrite ?Hd; by split_and!.
Qed.

(** Creating a bill puts it in front of the list and saves it with
    [saveBillToStorage]: one upsert of its row goes out exactly when a
    client is set, and unless the storage alert is shown the store
    gains the bill in front when its id is new, so that a list that
    mirrored the store still does; when the store already holds the
    generated id, the store replaces that bill and keeps its length
    while the list grows by one. *)
Theorem createBill_stores_and_pushes (extracted : Extracted.t)
        (img : option string) (manual : option ManualData.t)
        (st : AppState) (w : World) :
  exists st' w' b,
    createBill extracted img manual st w = (Ok st', w') /\
    allBills st' = b :: allBills st /\
    expandedId st' = Some (id b) /\
    requestsBetween w w'
    = match supabase w with
      | Some _ => [Upsert (Payload.mk (id b) b (updatedAt b))]
      | None => []
      end /\
    (alertsBetween w w' = [] ->
     ((id b ∉ ids (storedBillsOf w)) ->
      storedBillsOf w' = b :: storedBillsOf w /\
      (allBills st = storedBillsOf w -> allBills st' = storedBillsOf w')) /\
     (id b ∈ ids (storedBillsOf w) ->
      List.length (storedBillsOf w') = List.length (storedBillsOf w) /\
      List.find (hasId (id b)) (storedBillsOf w') = Some b)).
Proof.
  destruct (createBill_effect extracted img manual st w)
    as (newId & created & updated & w2 & w' & Hsame & Hsave & Hrun).
  simpl in Hsave.
  match type of Hsave with
  | saveBillToStorage ?nb _ = _ => set (b := nb) in *
  end.
  destruct (saveBillToStorage_effect b w2) as (w'' & Hsave' & Heff).
  rewrite Hsave in Hsave'. injection Hsave' as <-.
  rewrite (sameButClock_stored w w2 Hsame) in Heff.
  assert (Hsup : supabase w2 = supabase w) by (by destruct Hsame as (_ & _ & ? & _)).
  rewrite Hsup in Heff.
  exists (setExpandedId (Some newId) (setAllBills (b :: allBills st) st)), w', b.
  split_and!; try done.
  - destruct Heff as [(_ & _ & Hr)|(_ & _ & Hr)];
      pose proof (Run_trans _ _ _ _ _ _ _ (sameButClock_Run _ _ Hsame) Hr) as Hr';
      by apply Run_requestsBetween in Hr'.
  - intros Hquiet.
    destruct Heff as [(_ & Hst & _)|(_ & _ & Hr)].
    + rewrite Hst.
      destruct (upsert_shape b (storedBillsOf w))
        as [[Hnew ->]|(before & old & after & Hs & Hid & Hnot & ->)].
      * split; [|done]. intros _. split; [done|]. simpl. by intros ->.
      * split.
        -- intros Habs. exfalso. apply Habs. rewrite Hs, <- Hid. unfold ids.
           rewrite map_app. simpl. apply elem_of_app. right. by left.
        -- intros _. split; [by rewrite Hs, !length_app|].
           by apply find_hasId_app_cons.
    + pose proof (Run_trans _ _ _ _ _ _ _ (sameButClock_Run _ _ Hsame) Hr) as Hr'.
      apply Run_alertsBetween in Hr'. by rewrite Hr' in Hquiet.
Qed.

(** ** [packedAt] and [status] *)



(** ** The two lists of the day *)

Lemma ltb_irrefl (s : string) : String.ltb s s = false.
Proof.
  unfold String.ltb. pose proof (String.compare_antisym s s) as H.
  by destruct (String.compare s s).
Qed.

Lemma filter_disjoint_length {A : Type} (p q : A -> bool) (l : list A) :
  (forall x, p x = true -> q x = false) ->
  (List.length (List.filter p l) + List.length (List.filter q l)
   <= List.length l)%nat.
Proof.
  intros Hpq. induction l as [|x xs IH]; simpl; [done|].
  destruct (p x) eqn:Hp.
  - rewrite (Hpq x Hp). simpl. lia.
  - destruct (q x); simpl; lia.
Qed.

Section DayLists.
Variable localeCompare : string -> string -> Z.

(** The list of today holds the bills entered today, newest created
    first; the backlog holds the pending bills entered on an earlier
    day, whatever order the host's [localeCompare] gives them.  No bill
    is in both; a packed bill of another day and a bill entered under a
    later day are in neither; and the two lists together are never
    longer than the list of all bills. *)
Theorem day_lists_partition (st : AppState) :
  (forall b, b ∈ todayNewBills st
             <-> b ∈ allBills st /\ entryDate b = currentDate st) /\
  (forall b, b ∈ backlogBills localeCompare st
             <-> b ∈ allBills st /\ status b = PENDING /\
                 String.ltb (entryDate b) (currentDate st) = true) /\
  StronglySorted (fun a b => createdAt b <= createdAt a) (todayNewBills st) /\
  (forall b, b ∈ todayNewBills st -> b ∉ backlogBills localeCompare st) /\
  (forall b, String.ltb (currentDate st) (entryDate b) = true \/
             (status b = PACKED /\ entryDate b <> currentDate st) ->
             (b ∉ todayNewBills st) /\ (b ∉ backlogBills localeCompare st)) /\
  (List.length (todayNewBills st) + List.length (backlogBills localeCompare st)
   <= List.length (allBills st))%nat.
Proof.
  assert (Htoday : forall b, b ∈ todayNewBills st
             <-> b ∈ allBills st /\ entryDate b = currentDate st).
  { intros b. unfold todayNewBills.
    rewrite elem_of_sort, !list_elem_of_In, filter_In, String.eqb_eq. done. }
  assert (Hback : forall b, b ∈ backlogBills localeCompare st
             <-> b ∈ allBills st /\ status b = PENDING /\
                 String.ltb (entryDate b) (currentDate st) = true).
  { intros b. unfold backlogBills.
    rewrite elem_of_sort, !list_elem_of_In, filter_In, andb_true_iff.
    destruct (status b); split; try tauto; try done.
    - intros (_ & H & _). discriminate H.
    - intros (_ & H & _). discriminate H. }
  split_and!; try done.
  - apply sort_StronglySorted; unfold byCreatedAtDesc; intros; lia.
  - intros b [_ Heq]%Htoday (_ & _ & Hlt)%Hback.
    rewrite Heq, ltb_irrefl in Hlt. discriminate Hlt.
  - intros b Hb. split.
    + intros [_ Heq]%Htoday. destruct Hb as [Hlt|[_ Hne]]; [|done].
      rewrite Heq, ltb_irrefl in Hlt. discriminate Hlt.
    + intros (_ & Hst & Hlt)%Hback. destruct Hb as [Hgt|[Hp _]]; [|congruence].
      unfold String.ltb in Hlt, Hgt.
      rewrite String.compare_antisym in Hgt.
      destruct (String.compare (entryDate b) (currentDate st)); done.
  - unfold todayNewBills, backlogBills.
    rewrite !(Permutation_length (sort_Permutation _ _)).
    apply filter_disjoint_length. intros b Heq%String.eqb_eq.
    rewrite Heq, ltb_irrefl. apply andb_false_r.
Qed.

End DayLists.

(** ** Selecting *)

Lemma toggle_own (i : string) (X : gset string) :
  i ∈ (if bool_decide (i ∈ X) then X ∖ {[ i ]} else {[ i ]} ∪ X) <-> i ∉ X.
Proof.
  case_bool_decide as Hin.
  - rewrite elem_of_difference, elem_of_singleton. tauto.
  - rewrite elem_of_union, elem_of_singleton. tauto.
Qed.

Lemma toggle_other (i j : string) (X : gset string) :
  j <> i ->
  j ∈ (if bool_decide (i ∈ X) then X ∖ {[ i ]} else {[ i ]} ∪ X) <-> j ∈ X.
Proof.
  intros Hne. case_bool_decide as Hin.
  - rewrite elem_of_difference, elem_of_singleton. tauto.
  - rewrite elem_of_union, elem_of_singleton. tauto.
Qed.

(** Toggling a bill changes the membership of its id in the selection
    and of no other id, so toggling it twice gives the selection back;
    leaving selection mode empties the selection, entering it keeps the
    selection, and either way no card stays expanded. *)
Theorem selection_toggles (i : string) (st : AppState) :
  (i ∈ selectedIds (handleToggleSelect i st) <-> i ∉ selectedIds st) /\
  (forall j, j <> i ->
     (j ∈ selectedIds (handleToggleSelect i st) <-> j ∈ selectedIds st)) /\
  selectedIds (handleToggleSelect i (handleToggleSelect i st)) = selectedIds st /\
  allBills (handleToggleSelect i st) = allBills st /\
  isSelectionMode (toggleSelectionMode st) = negb (isSelectionMode st) /\
  expandedId (toggleSelectionMode st) = None /\
  (isSelectionMode st = true -> selectedIds (toggleSelectionMode st) = ∅) /\
  (isSelectionMode st = false ->
   selectedIds (toggleSelectionMode st) = selectedIds st).
Proof.
  split_and!.
  - apply toggle_own.
  - intros j Hne. by apply toggle_other.
  - apply set_eq. intros j. unfold handleToggleSelect. simpl.
    destruct (decide (j = i)) as [->|Hne].
    + rewrite !toggle_own. split; [apply dec_stable|tauto].
    + by rewrite !toggle_other.
  - done.
  - unfold toggleSelectionMode. by destruct (isSelectionMode st).
  - unfold toggleSelectionMode. by destruct (isSelectionMode st).
  - unfold toggleSelectionMode. by intros ->.
  - unfold toggleSelectionMode. by intros ->.
Qed.

(* ===================================================================== *)
(** * Further properties: the colour of a card *)
(* ===================================================================== *)

Lemma palette_by_description (description : option string) :
  exists t,
    match description with
    | Some d =>
        if (0 <? String.length (JSString.trim d))%nat then
          COLOR_PALETTE !! Z.to_nat (Z.abs (themeHash d 0)
                                     mod Z.of_nat (List.length COLOR_PALETTE))
        else COLOR_PALETTE !! O
    | None => COLOR_PALETTE !! O
    end = Some t /\ t ∈ COLOR_PALETTE.
Proof.
  assert (Hat : forall n, (n < 10)%nat ->
            exists t, COLOR_PALETTE !! n = Some t /\ t ∈ COLOR_PALETTE).
  { intros n Hn. destruct (lookup_lt_is_Some_2 COLOR_PALETTE n) as [t Ht]; [done|].
    exists t. split; [done|]. by apply list_elem_of_lookup_2 in Ht. }
  destruct description as [d|]; [|apply Hat; lia].
  destruct (0 <? String.length (JSString.trim d))%nat; [|apply Hat; lia].
  apply Hat. change (Z.of_nat (List.length COLOR_PALETTE)) with 10.
  pose proof (Z.mod_pos_bound (Z.abs (themeHash d 0)) 10). lia.
Qed.

(** [getThemeStyles] always gives an entry of the palette; the name of
    a palette entry gives that entry whatever the description is; and
    without a colour name, or with one that the palette does not have,
    the entry is chosen by the description alone, [slate] when the
    description is missing or blank. *)
Theorem getThemeStyles_palette (colorName description : option string) :
  (exists t, getThemeStyles colorName description = Some t /\ t ∈ COLOR_PALETTE) /\
  (forall t, t ∈ COLOR_PALETTE ->
     getThemeStyles (Some (ThemeStyle.name t)) description = Some t) /\
  (forall c, (forall t, t ∈ COLOR_PALETTE -> ThemeStyle.name t <> c) ->
     getThemeStyles (Some c) description = getThemeStyles None description) /\
  (forall d, JSString.trim d = "" ->
     getThemeStyles None (Some d) = COLOR_PALETTE !! O /\
     getThemeStyles None None = COLOR_PALETTE !! O).
Proof.
  split_and!.
  - destruct (palette_by_description description) as (t & Ht & Hin).
    unfold getThemeStyles. destruct colorName as [c|]; [|by exists t].
    destruct (JSString.truthy c); [|by exists t].
    destruct (List.find _ COLOR_PALETTE) as [found|] eqn:Hfind; [|by exists t].
    exists found. split; [done|].
    apply find_some in Hfind as [Hfound _]. by apply list_elem_of_In.
  - intros t Hin. unfold COLOR_PALETTE in Hin.
    repeat (apply elem_of_cons in Hin as [->|Hin]); try reflexivity.
    by apply elem_of_nil in Hin.
  - intros c Hnone. unfold getThemeStyles.
    destruct (JSString.truthy c); [|done].
    destruct (List.find _ COLOR_PALETTE) as [found|] eqn:Hfind; [|done].
    apply find_some in Hfind as [Hfound Hname].
    apply String.eqb_eq in Hname. exfalso.
    apply (Hnone found); [by apply list_elem_of_In|done].
  - intros d Hblank. unfold getThemeStyles. by rewrite Hblank.
Qed.

(* ===================================================================== *)
(** * Further properties: deleting and synchronising *)
(* ===================================================================== *)

Lemma deleteRemoteItem_outcome i w c :
  supabase w = Some c ->
  exists w', deleteRemoteItem i w = (Ok tt, w') /\
             localStorage w' = localStorage w /\
             supabase w' = Some c /\
             network w' = tail (network w) /\
             bills_table w'
             = match hd Delivered (network w) with
               | Delivered =>
                   List.filter (fun r => negb (String.eqb (Payload.id r) i))
                               (bills_table w)
               | _ => bills_table w
               end.
Proof.
  intros Hsup.
  unfold deleteRemoteItem, bind, gets, try_catch, Supabase.delete_eq_id,
    Supabase.respond, bind, emit, modify, Supabase.next_outcome, console_error,
    emit, modify.
  rewrite Hsup. simpl.
  destruct (network w) as [|[| |] rest] eqn:Hn; simpl;
    (eexists; split; [reflexivity|]; simpl; rewrite ?Hn; by split_and!).
Qed.

Lemma deleteBillFromStorage_remote i w c :
  supabase w = Some c ->
  exists w', deleteBillFromStorage i w = (Ok tt, w') /\
             supabase w' = Some c /\
             network w' = tail (network w) /\
             bills_table w'
             = match hd Delivered (network w) with
               | Delivered =>
                   List.filter (fun r => negb (String.eqb (Payload.id r) i))
                               (bills_table w)
               | _ => bills_table w
               end /\
             (alertsBetween w w' = [] ->
              storedBillsOf w'
              = List.filter (fun b => negb (String.eqb (id b) i)) (storedBillsOf w)).
Proof.
  intros Hsup.
  destruct (getStoredBills_quiet w) as (w1 & Hget & Hls1 & Htab1 & Hnet1 & Hrun1).
  destruct (saveBillsToStorage_outcome
              (List.filter (fun b => negb (String.eqb (id b) i)) (storedBillsOf w)) w1)
    as (w2 & Hsave & Htab2 & Hnet2 & Hout).
  assert (Hsup2 : supabase w2 = Some c).
  { destruct Hrun1 as [E1 _].
    destruct Hout as [(_ & _ & [E2 _])|(_ & _ & [E2 _])]; congruence. }
  destruct (deleteRemoteItem_outcome i w2 c Hsup2)
    as (w3 & Hdel & Hls3 & Hsup3 & Hnet3 & Htab3).
  exists w3.
  assert (Hrun : deleteBillFromStorage i w = (Ok tt, w3)).
  { unfold deleteBillFromStorage. rewrite (bind_ok _ _ _ _ _ Hget).
    rewrite (bind_ok _ _ _ _ _ Hsave).
    rewrite (bind_ok _ _ _ _ _ (eq_refl : gets supabase w2 = _)).
    by rewrite Hsup2. }
  split_and!; [done|done|congruence| |].
  - by rewrite Htab3, Hnet2, Hnet1, Htab2, Htab1.
  - intros Hquiet.
    destruct (deleteBillFromStorage_effect i w) as (w3' & Hrun' & Heff).
    rewrite Hrun in Hrun'. injection Hrun' as <-.
    destruct Heff as [[Hst _]|[_ Hr]]; [done|].
    apply Run_alertsBetween in Hr. by rewrite Hr in Hquiet.
Qed.


(** A deletion that is delivered lasts: with the table keyed by id the
    row is gone, and unless the storage alert was shown the next
    synchronisation returns no bill of the deleted id. *)
Theorem deleteBillFromStorage_delivered (i : string) (w : World)
        (c : SupabaseClient) :
  supabase w = Some c ->
  allDelivered w ->
  tableKeyed (bills_table w) ->
  exists w1 merged w2,
    deleteBillFromStorage i w = (Ok tt, w1) /\
    (i ∉ ids (remoteBillsOf w1)) /\
    fullSync w1 = (Ok merged, w2) /\
    (alertsBetween w w1 = [] -> i ∉ ids merged).
Proof.
  intros Hsup Hall [_ Hkey].
  destruct (deleteBillFromStorage_remote i w c Hsup)
    as (w1 & Hrun & Hsup1 & Hnet1 & Htab1 & Hstore).
  pose proof (allDelivered_nextDelivered w Hall) as Hfirst.
  unfold nextDelivered in Hfirst. rewrite Hfirst in Htab1.
  assert (Hnext : nextDelivered w1).
  { unfold nextDelivered. rewrite Hnet1. unfold allDelivered in Hall.
    destruct (network w) as [|o1 [|o2 rest]]; try done. simpl.
    apply Forall_cons_1 in Hall as [_ Hall]. by apply Forall_cons_1 in Hall as [-> _]. }
  assert (Hgone : i ∉ ids (remoteBillsOf w1)).
  { unfold ids, remoteBillsOf. rewrite Htab1.
    intros (b & -> & (r & -> & Hr)%list_elem_of_fmap)%list_elem_of_fmap.
    apply list_elem_of_In, filter_In in Hr as [Hr Hne].
    rewrite Forall_forall in Hkey.
    rewrite (Hkey r) in Hne by (by apply list_elem_of_In).
    by rewrite String.eqb_refl in Hne. }
  destruct (fullSync_trace c w1 Hsup1 Hnext) as (w2 & Hsync & _).
  eexists w1, _, w2. split_and!; [done|done|exact Hsync|].
  intros Hquiet [Hl|Hr]%mergeBills_ids; [|done].
  rewrite (Hstore Hquiet) in Hl. by apply filter_other_ids_absent in Hl.
Qed.

(* ===================================================================== *)
(** * The further properties in the scenario *)
(* ===================================================================== *)

Lemma world0_typed : storeTyped world0.
Proof.
  unfold storeTyped.
  replace (localStorage world0 !! STORAGE_KEY)
    with (Some (BillJSON.stringify [billA])) by reflexivity.
  by exists [billA].
Qed.


(** Saving A' over A in the scenario: the store holds A' in the place
    of A unless the alert is shown. *)
Lemma saveBillToStorage_upserts_witness :
  exists w',
    saveBillToStorage billA' world0 = (Ok tt, w') /\
    storeTyped w' /\
    (alertsBetween world0 w' = [] ->
     List.find (hasId "1") (storedBillsOf w') = Some billA').
Proof.
  destruct (saveBillToStorage_upserts billA' world0 world0_typed)
    as (w' & Hrun & Htyped & Hout).
  exists w'. split_and!; [exact Hrun|exact Htyped|].
  intros Hquiet. destruct Hout as [[Hloud _]|(_ & Hfind & _)]; [|exact Hfind].
  rewrite Hquiet in Hloud. discriminate Hloud.
Defined.

(** Deleting bill 1 in the scenario. *)
Lemma deleteBillFromStorage_removes_witness :
  exists w',
    deleteBillFromStorage "1" world0 = (Ok tt, w') /\
    storeTyped w' /\
    requestsBetween world0 w' = [Delete "1"].
Proof.
  destruct (deleteBillFromStorage_removes "1" world0 world0_typed)
    as (w' & Hrun & Htyped & _ & _ & _ & Hreq).
  exists w'. split_and!; [exact Hrun|exact Htyped|].
  exact (Hreq client0 eq_refl).
Defined.

Lemma world0_keyed : tableKeyed (bills_table world0).
Proof.
  split; [apply NoDup_singleton|]. by repeat constructor.
Qed.

Lemma world0_delivered : allDelivered world0.
Proof. unfold allDelivered. simpl. constructor. Qed.

(** After clearing, the sync brings A' back from the remote. *)
Lemma handleClearAllData_then_sync_witness :
  exists st1 w1 st2 w2,
    handleClearAllData true true (appSelecting [billA]) world0 = (Ok st1, w1) /\
    allBills st1 = [] /\ storedBillsOf w1 = [] /\
    handleSync st1 w1 = (Ok st2, w2) /\
    (forall b, b ∈ allBills st2 -> b ∈ remoteBillsOf world0) /\
    (forall i, i ∈ ids (allBills st2) <-> i ∈ ids (remoteBillsOf world0)) /\
    (NoDup (ids (remoteBillsOf world0)) ->
     Permutation (allBills st2) (remoteBillsOf world0) /\
     pushedBetween w1 w2 = []).
Proof.
  exact (handleClearAllData_then_sync (appSelecting [billA]) world0 client0
           eq_refl eq_refl).
Defined.

(** The unreadable text is read as no bills, and A then overwrites it. *)
Lemma getStoredBills_unreadable_witness :
  getStoredBills worldUnreadable
  = (Ok [], set_events
              (events worldUnreadable
               ++ [ConsoleError "Failed to load bills:" SyntaxError])
              worldUnreadable) /\
  exists w',
    saveBillToStorage billA worldUnreadable = (Ok tt, w') /\
    (writeTaken [billA] worldUnreadable -> storedBillsOf w' = [billA]).
Proof.
  exact (getStoredBills_unreadable "not json" billA worldUnreadable
           eq_refl ltac:(discriminate)).
Defined.

(** Connecting the offline device. *)
Lemma initSupabase_connects_witness :
  exists w',
    initSupabase createClient0 "https://grace.supabase.co" "anon" worldOffline
    = (Ok true, w') /\
    supabase w' = Some client0 /\
    getSupabaseConfig w'
    = (Ok (Some (SupabaseConfig.mk "https://grace.supabase.co" "anon")), w') /\
    storedBillsOf w' = storedBillsOf worldOffline /\
    events w' = events worldOffline.
Proof.
  exact (initSupabase_connects createClient0 "https://grace.supabase.co" "anon"
           client0 worldOffline eq_refl ltac:(vm_compute; reflexivity)).
Defined.

(** Connecting a device whose store has no room for the configuration. *)
Lemma initSupabase_storage_full_witness :
  exists w',
    initSupabase createClient0 "https://grace.supabase.co" "anon" worldFull
    = (Ok false, w') /\
    supabase w' = Some client0 /\
    isSupabaseConnected w' = (Ok true, w') /\
    localStorage w' = localStorage worldFull /\
    eventsSince worldFull w'
    = [ConsoleError "Supabase Init Error" QuotaExceededError].
Proof.
  exact (initSupabase_storage_full createClient0 "https://grace.supabase.co" "anon"
           client0 QuotaExceededError worldFull eq_refl
           ltac:(vm_compute; reflexivity)).
Defined.

(** In the scenario the sync sends the fetch; with the full store the
    alert is shown. *)
Lemma fullSync_requests_and_full_store_witness :
  exists merged w',
    fullSync worldFull = (Ok merged, w') /\
    requestsBetween worldFull w'
    = Select :: map (fun b => Upsert (Payload.mk (id b) b (updatedAt b)))
                    (List.filter (needsPush (remoteBillsOf worldFull)) merged) /\
    (writeTaken merged worldFull -> alertsBetween worldFull w' = []) /\
    (~ writeTaken merged worldFull ->
     alertsBetween worldFull w' = [storageAlertText] /\
     localStorage w' = localStorage worldFull /\
     storedBillsOf w' = storedBillsOf worldFull).
Proof.
  exact (fullSync_requests_and_full_store worldFull client0 eq_refl eq_refl).
Defined.

(** In the scenario the table holds id 1 after the sync, with the
    [updatedAt] of the returned bill. *)
Lemma fullSync_converges_witness :
  exists merged w',
    fullSync world0 = (Ok merged, w') /\
    tableKeyed (bills_table w') /\
    (forall i, i ∈ ids (remoteBillsOf w') <-> i ∈ ids merged) /\
    (forall m r, m ∈ merged -> r ∈ remoteBillsOf w' -> id r = id m ->
       updatedAt r = updatedAt m /\
       (r = m \/ (r ∈ remoteBillsOf world0 /\
                  needsPush (remoteBillsOf world0) m = false))).
Proof.
  exact (fullSync_converges world0 client0 eq_refl world0_delivered world0_keyed).
Defined.

(** In the scenario a second sync fetches and does nothing else. *)
Lemma fullSync_idempotent_witness :
  exists merged w1 w2,
    fullSync world0 = (Ok merged, w1) /\
    fullSync w1 = (Ok merged, w2) /\
    requestsBetween w1 w2 = [Select] /\
    alertsBetween w1 w2 = [] /\
    bills_table w2 = bills_table w1 /\
    localStorage w2 = localStorage w1.
Proof.
  exact (fullSync_idempotent world0 client0 eq_refl world0_delivered world0_keyed
           ltac:(vm_compute; reflexivity)).
Defined.

(** Deleting the selected bill 1 from a list that holds A. *)
Lemma handleDeleteSelected_effect_witness :
  exists st' w',
    handleDeleteSelected true (appSelecting [billA]) world0 = (Ok st', w') /\
    allBills st' = [] /\
    selectedIds st' = ∅.
Proof.
  destruct (handleDeleteSelected_effect (appSelecting [billA]) world0
              (appSelecting_nonempty [billA]))
    as (st' & w' & Hrun & Hbills & _ & Hsel & _).
  exists st', w'. split_and!; [exact Hrun| |exact Hsel].
  rewrite Hbills. reflexivity.
Defined.

(** A second image of A raises the duplicate alert; confirming creates
    the bill. *)
Lemma handleAddBill_duplicate_then_confirm_witness :
  exists st',
    handleAddBill (Some ("image", extractedA)) (appSelecting [billA]) world0
    = (Ok st', world0) /\
    allBills st' = [billA] /\
    duplicateAlert st' = Some (DuplicateAlert.mk billA extractedA (Some "image")) /\
    exists st'' w'' b,
      handleConfirmDuplicate st' world0 = (Ok st'', w'') /\
      allBills st'' = [b; billA] /\
      invoiceNo b = " inv-001 ".
Proof.
  destruct (handleAddBill_duplicate_then_confirm "image" extractedA billA
              (appSelecting [billA]) world0 eq_refl)
    as (st' & Hrun & Hbills & Halert & st'' & w'' & b & Hconfirm & Hbills'' & Hinv & _).
  exists st'. split_and!; [exact Hrun|exact Hbills|exact Halert|].
  exists st'', w'', b. split_and!; [exact Hconfirm|exact Hbills''|exact Hinv].
Defined.



(** The delete of bill 1 is delivered: the next sync returns no bill of
    id 1. *)
Lemma deleteBillFromStorage_delivered_witness :
  exists w1 merged w2,
    deleteBillFromStorage "1" world0 = (Ok tt, w1) /\
    ("1" ∉ ids (remoteBillsOf w1)) /\
    fullSync w1 = (Ok merged, w2) /\
    (alertsBetween world0 w1 = [] -> "1" ∉ ids merged).
Proof.
  exact (deleteBillFromStorage_delivered "1" world0 client0 eq_refl
           world0_delivered world0_keyed).
Defined.
